(** * SDS2: gesture-driven scene controller

    A shallow embedding of the algorithmic core of the repository, one
    module per source unit:

    - [Types]: the enums and [HandState] of types.ts
      (first unit of src/types.ts);
    - [Store]: the zustand store, [setHandState] and [toggleMode]
      (second unit of src/unnamed/part_000);
    - [GestureController]: classifier, debounce and anchor of
      [predictWebcam] (second unit of src/components/PhotoUploader.tsx);
    - [Scene]: the drag/inertia controller [TreeGroup] and the layout
      generator [ornamentGroups] (second unit of src/types.ts);
    - [Polaroids]: the grid position of [items]
      (src/components/Polaroids.tsx);
    - [Ornaments]: the mix accumulator of [useFrame]
      (second unit of src/components/GestureTrail.tsx).

    Numbers.  A JavaScript [number] is embedded as a real number: the
    arithmetic of the source is kept operation by operation, IEEE-754
    rounding is not modelled.  Loop counters and array indices are
    [nat].

    Effects.  A React ref or the store is a record field threaded
    through the handlers; [Math.random] is a sequence of draws read
    through a cursor; a [TypeError] caught by the [try] of
    [predictWebcam] is [None].  The guards of the callbacks on their
    environment (video element present and playing, 30 Hz throttle,
    mesh mounted) are taken as passed. *)

From Stdlib Require Import String Reals Lra Lia ZArith Bool List.
Import ListNotations.

Open Scope R_scope.

(** ** Helpers shared by the modules *)

(** Comparisons of the source ([<], [>]) as booleans. *)
Definition Rltb (a b : R) : bool := if Rlt_dec a b then true else false.
Definition Rgtb (a b : R) : bool := if Rgt_dec a b then true else false.

(** [Math.hypot(a, b)]. *)
Definition hypot (a b : R) : R := sqrt (a * a + b * b).

(** A thrown [TypeError] (reading a field of [undefined]) is [None]. *)
Notation "x <- e ;; k" := (match e with Some x => k | None => None end)
  (at level 61, e at next level, right associativity, only parsing).

(** ** types.ts *)

Module Types.

Inductive TreeMode : Set := CHAOS | FORMED | GRID.

Inductive GestureType : Set := FIST | OPEN | PINCH | VICTORY | NONE.

Definition TreeMode_eq_dec (a b : TreeMode) : {a = b} + {a <> b}.
Proof. decide equality. Defined.

Definition GestureType_eq_dec (a b : GestureType) : {a = b} + {a <> b}.
Proof. decide equality. Defined.

(** [{ x: number; y: number }] *)
Record Point2 : Type := mkPoint2 { px : R; py : R }.

Record HandState : Type := mkHandState {
  detected : bool;
  gesture : GestureType;
  position : Point2;
  landmarks : list Point2
}.

(** [Partial<HandState>]: every field may be absent. *)
Record PartialHandState : Type := mkPartial {
  p_detected : option bool;
  p_gesture : option GestureType;
  p_position : option Point2;
  p_landmarks : option (list Point2)
}.

(** [{ ...h, ...partial }] *)
Definition spread (h : HandState) (partial : PartialHandState) : HandState :=
  {| detected := match p_detected partial with Some v => v | None => detected h end;
     gesture := match p_gesture partial with Some v => v | None => gesture h end;
     position := match p_position partial with Some v => v | None => position h end;
     landmarks := match p_landmarks partial with Some v => v | None => landmarks h end |}.

End Types.
Import Types.

(** ** store.ts *)

Module Store.

Record AppState : Type := mkAppState {
  mode : TreeMode;
  handState : HandState;
  videoReady : bool;
  photos : list string
}.

(** The state [create] starts from. *)
Definition useStore : AppState :=
  {| mode := FORMED;
     videoReady := false;
     handState := {| detected := false; gesture := NONE;
                     position := {| px := 0; py := 0 |}; landmarks := [] |};
     photos := [] |}.

(** The [switch] of [setHandState]; it has no [default]. *)
Definition gestureMode (newState : HandState) (current : TreeMode) : TreeMode :=
  if detected newState then
    match gesture newState with
    | OPEN => CHAOS
    | FIST => FORMED
    | PINCH => GRID
    | _ => current
    end
  else current.

Definition setHandState (partial : PartialHandState) (state : AppState) : AppState :=
  let newState := spread (handState state) partial in
  let newMode := gestureMode newState (mode state) in
  {| handState := newState; mode := newMode;
     videoReady := videoReady state; photos := photos state |}.

Definition toggleMode (state : AppState) : AppState :=
  {| mode := if TreeMode_eq_dec (mode state) FORMED then CHAOS else FORMED;
     handState := handState state;
     videoReady := videoReady state; photos := photos state |}.

Definition setVideoReady (ready : bool) (state : AppState) : AppState :=
  {| mode := mode state; handState := handState state;
     videoReady := ready; photos := photos state |}.

Definition setPhotos (ps : list string) (state : AppState) : AppState :=
  {| mode := mode state; handState := handState state;
     videoReady := videoReady state; photos := ps |}.

End Store.
Import Store.

(** ** GestureController.tsx *)

Module GestureController.

(** The five fingers named by the comments of [CONNECTIONS]. *)
Inductive Finger : Set := Thumb | Index | Middle | Ring | Pinky.

(** One row of [CONNECTIONS]: the chain wrist, base, two joints, tip. *)
Definition fingerRow (f : Finger) : list (nat * nat) :=
  match f with
  | Thumb => [(0, 1); (1, 2); (2, 3); (3, 4)]
  | Index => [(0, 5); (5, 6); (6, 7); (7, 8)]
  | Middle => [(0, 9); (9, 10); (10, 11); (11, 12)]
  | Ring => [(0, 13); (13, 14); (14, 15); (15, 16)]
  | Pinky => [(0, 17); (17, 18); (18, 19); (19, 20)]
  end%nat.

Definition knuckles : list (nat * nat) := [(5, 9); (9, 13); (13, 17)]%nat.

Definition CONNECTIONS : list (nat * nat) :=
  fingerRow Thumb ++ fingerRow Index ++ fingerRow Middle ++ fingerRow Ring
    ++ fingerRow Pinky ++ knuckles.

(** The base joint of a finger: the end of the bone that starts at the
    wrist (keypoint 0) in the finger's row. *)
Definition baseJoint (f : Finger) : nat :=
  match fingerRow f with
  | (_, b) :: _ => b
  | [] => 0%nat
  end.

Definition GESTURE_CONFIRM_THRESHOLD : nat := 5.

(** The component: its two debounce refs and the store it writes. *)
Record Controller : Type := mkController {
  pendingGestureRef : GestureType;
  gestureCountRef : nat;
  store : AppState
}.

Definition mount (s : AppState) : Controller :=
  {| pendingGestureRef := NONE; gestureCountRef := 0; store := s |}.

(** [dist(idx1, idx2)] over [landmarks]. *)
Definition dist (landmarks : list Point2) (idx1 idx2 : nat) : option R :=
  a <- nth_error landmarks idx1 ;;
  b <- nth_error landmarks idx2 ;;
  Some (hypot (px a - px b) (py a - py b)).

(** [dist(tip, 0) > dist(joint, 0) * 1.1] *)
Definition isUp (landmarks : list Point2) (tip joint : nat) : option bool :=
  dt <- dist landmarks tip 0 ;;
  dj <- dist landmarks joint 0 ;;
  Some (Rgtb dt (dj * 1.1)).

(** The six predicates the classifier measures on a sample. *)
Record Measure : Type := mkMeasure {
  isThumbUp : bool;
  isIndexUp : bool;
  isMiddleUp : bool;
  isRingUp : bool;
  isPinkyUp : bool;
  isPinch : bool
}.

Definition measure (landmarks : list Point2) : option Measure :=
  thumb <- isUp landmarks 4 3 ;;
  index <- isUp landmarks 8 6 ;;
  middle <- isUp landmarks 12 10 ;;
  ring <- isUp landmarks 16 14 ;;
  pinky <- isUp landmarks 20 18 ;;
  pinchDist <- dist landmarks 4 8 ;;
  Some {| isThumbUp := thumb; isIndexUp := index; isMiddleUp := middle;
          isRingUp := ring; isPinkyUp := pinky;
          isPinch := Rltb pinchDist 0.05 |}.

Definition incr (b : bool) (n : nat) : nat := if b then S n else n.

Definition fingersUp (m : Measure) : nat :=
  incr (isPinkyUp m) (incr (isRingUp m) (incr (isMiddleUp m)
    (incr (isIndexUp m) (incr (isThumbUp m) 0%nat)))).

(** The [if / else if] chain that sets [detectedGesture]. *)
Definition decideGesture (m : Measure) : GestureType :=
  if (4 <=? fingersUp m)%nat then OPEN
  else if isIndexUp m && isMiddleUp m && negb (isRingUp m) && negb (isPinkyUp m)
       then VICTORY
  else if isPinch m then PINCH
  else if (fingersUp m <=? 1)%nat then FIST
  else NONE.

Definition detectGesture (landmarks : list Point2) : option GestureType :=
  m <- measure landmarks ;; Some (decideGesture m).

(** The debounce step on the two refs. *)
Definition debounce (detectedGesture : GestureType) (c : Controller) : Controller :=
  if GestureType_eq_dec detectedGesture (pendingGestureRef c) then
    {| pendingGestureRef := pendingGestureRef c;
       gestureCountRef := S (gestureCountRef c);
       store := store c |}
  else
    {| pendingGestureRef := detectedGesture;
       gestureCountRef := 0;
       store := store c |}.

(** "Position for 3D Scene". *)
Definition scenePosition (landmarks : list Point2) : option Point2 :=
  l <- nth_error landmarks 9 ;;
  Some {| px := (1 - px l) * 2 - 1; py := - (py l * 2 - 1) |}.

Definition simplify (landmarks : list Point2) : list Point2 :=
  map (fun l => {| px := px l; py := py l |}) landmarks.

(** The two [setHandState] calls, chosen by the counter. *)
Definition publish (detectedGesture : GestureType) (pos : Point2)
    (simpleLandmarks : list Point2) (c : Controller) : Controller :=
  let partial :=
    if (GESTURE_CONFIRM_THRESHOLD <? gestureCountRef c)%nat then
      {| p_detected := Some true; p_gesture := Some detectedGesture;
         p_position := Some pos; p_landmarks := Some simpleLandmarks |}
    else
      {| p_detected := Some true; p_gesture := None;
         p_position := Some pos; p_landmarks := Some simpleLandmarks |} in
  {| pendingGestureRef := pendingGestureRef c;
     gestureCountRef := gestureCountRef c;
     store := setHandState partial (store c) |}.

(** What one classified sample does: debounce, then publish. *)
Definition onHand (detectedGesture : GestureType) (pos : Point2)
    (simpleLandmarks : list Point2) (c : Controller) : Controller :=
  publish detectedGesture pos simpleLandmarks (debounce detectedGesture c).

Definition onNoHand (c : Controller) : Controller :=
  {| pendingGestureRef := pendingGestureRef c;
     gestureCountRef := 0;
     store := setHandState
                {| p_detected := Some false; p_gesture := Some NONE;
                   p_position := None; p_landmarks := Some [] |} (store c) |}.

(** The body of [predictWebcam] on one detector result
    ([result.landmarks], a list of hands).  An exception is caught by
    the [try] and leaves what was written before it. *)
Definition predictWebcam (result : list (list Point2)) (c : Controller) : Controller :=
  match result with
  | landmarks :: _ =>
      match detectGesture landmarks with
      | None => c
      | Some detectedGesture =>
          let c1 := debounce detectedGesture c in
          match scenePosition landmarks with
          | None => c1
          | Some pos => publish detectedGesture pos (simplify landmarks) c1
          end
      end
  | [] => onNoHand c
  end.

(** A stream of classified samples, oldest first. *)
Definition Sample : Type := (GestureType * Point2 * list Point2)%type.

Definition feed (samples : list Sample) (c : Controller) : Controller :=
  fold_left (fun c s => let '(g, pos, lms) := s in onHand g pos lms c) samples c.

End GestureController.
Import GestureController.

(** ** three.js, the parts the scene calls

    [Vector3.distanceTo], [Vector3.lerpVectors] and [MathUtils.lerp]
    as three.js defines them. *)

Module THREE.

Record Vector3 : Type := mkVector3 { v_x : R; v_y : R; v_z : R }.

Record Euler : Type := mkEuler { e_x : R; e_y : R; e_z : R }.

Definition distanceToSquared (a v : Vector3) : R :=
  let dx := v_x a - v_x v in
  let dy := v_y a - v_y v in
  let dz := v_z a - v_z v in
  dx * dx + dy * dy + dz * dz.

Definition distanceTo (a v : Vector3) : R := sqrt (distanceToSquared a v).

(** [MathUtils.lerp(x, y, t)] *)
Definition lerp (x y t : R) : R := (1 - t) * x + t * y.

(** [lerpVectors(v1, v2, alpha)] *)
Definition lerpVectors (v1 v2 : Vector3) (alpha : R) : Vector3 :=
  {| v_x := v_x v1 + (v_x v2 - v_x v1) * alpha;
     v_y := v_y v1 + (v_y v2 - v_y v1) * alpha;
     v_z := v_z v1 + (v_z v2 - v_z v1) * alpha |}.

End THREE.
Import THREE.

(** ** [Math.random]: a source of draws read through a cursor *)

Module Random.

Definition Gen (A : Type) : Type := nat -> A * nat.

Definition ret {A : Type} (a : A) : Gen A := fun n => (a, n).

Definition bind {A B : Type} (g : Gen A) (k : A -> Gen B) : Gen B :=
  fun n => let (a, n') := g n in k a n'.

(** [Math.random()] over the draws [rnd]. *)
Definition random (rnd : nat -> R) : Gen R := fun n => (rnd n, S n).

End Random.
Import Random.

Notation "x <~ g ;; k" := (bind g (fun x => k))
  (at level 61, g at next level, right associativity).

(** [Math.floor] and [Math.ceil]. *)
Definition Math_floor (r : R) : Z := Int_part r.
Definition Math_ceil (r : R) : Z := (- Int_part (- r))%Z.

(** ** Scene.tsx *)

Module Scene.

Definition TREE_HEIGHT : R := 16.
Definition TREE_RADIUS : R := 6.

(** *** TreeGroup: drag and inertia *)

(** [groupRef.current] (its [rotation.y], when mounted) and the three
    drag refs. *)
Record TreeGroup : Type := mkTreeGroup {
  groupRef : option R;
  isDragging : bool;
  previousMouseX : R;
  velocity : R
}.

Definition handlePointerDown (clientX : R) (g : TreeGroup) : TreeGroup :=
  {| groupRef := groupRef g; isDragging := true;
     previousMouseX := clientX; velocity := 0 |}.

Definition handlePointerMove (clientX : R) (g : TreeGroup) : TreeGroup :=
  if negb (isDragging g) then g
  else
    let deltaX := clientX - previousMouseX g in
    let v := deltaX * 0.005 in
    {| groupRef := match groupRef g with
                   | Some rotation_y => Some (rotation_y + v)
                   | None => None
                   end;
       isDragging := isDragging g;
       previousMouseX := clientX;
       velocity := v |}.

Definition handlePointerUp (g : TreeGroup) : TreeGroup :=
  {| groupRef := groupRef g; isDragging := false;
     previousMouseX := previousMouseX g; velocity := velocity g |}.

(** The [useFrame] callback of [TreeGroup]. *)
Definition useFrame (h : HandState) (delta : R) (g : TreeGroup) : TreeGroup :=
  match groupRef g with
  | None => g
  | Some rotation_y =>
      if GestureType_eq_dec (gesture h) VICTORY then
        {| groupRef := Some (rotation_y - delta * 0.3);
           isDragging := isDragging g;
           previousMouseX := previousMouseX g;
           velocity := 0 |}
      else if negb (isDragging g) then
        if Rgtb (Rabs (velocity g)) 0.0001 then
          {| groupRef := Some (rotation_y + velocity g);
             isDragging := isDragging g;
             previousMouseX := previousMouseX g;
             velocity := velocity g * 0.95 |}
        else
          {| groupRef := groupRef g;
             isDragging := isDragging g;
             previousMouseX := previousMouseX g;
             velocity := 0 |}
      else g
  end.

(** [k] render ticks, each with its hand state and frame delta. *)
Definition frames (ticks : list (HandState * R)) (g : TreeGroup) : TreeGroup :=
  fold_left (fun g t => useFrame (fst t) (snd t) g) ticks g.

(** *** ornamentGroups: the layout generator *)

Inductive OrnamentType : Set := ball | box.

Record Config : Type := mkConfig {
  id : string;
  type : OrnamentType;
  count : nat;
  color : string;
  weight : R;
  scale : R
}.

Definition configs : list Config :=
  [ {| id := "gold"; type := ball; count := 250; color := "#FFD700";
       weight := 0.2; scale := 0.35 |};
    {| id := "red"; type := ball; count := 180; color := "#8B0000";
       weight := 0.2; scale := 0.3 |};
    {| id := "silver"; type := ball; count := 100; color := "#C0C0C0";
       weight := 0.2; scale := 0.2 |};
    {| id := "box"; type := box; count := 60; color := "#222";
       weight := 0.8; scale := 0.6 |} ].

(** An entry of [occupiedPositions]. *)
Record Occupied : Type := mkOccupied { pos : Vector3; radius : R }.

(** A value of [groups]. *)
Record Group : Type := mkGroup {
  targetPositions : list Vector3;
  chaosPositions : list Vector3;
  randomRotations : list Euler
}.

Definition ATTEMPTS : nat := 100.

Section Generator.

Variable rnd : nat -> R.

(** One candidate on the surface of the cone: two draws. *)
Definition candidate : Gen Vector3 :=
  yNorm <~ random rnd ;;
  let y := (yNorm - 0.5) * TREE_HEIGHT in
  let r := ((1 - yNorm) * TREE_RADIUS) + 0.5 in
  u <~ random rnd ;;
  let angle := u * PI * 2 in
  ret {| v_x := r * cos angle; v_y := y; v_z := r * sin angle |}.

(** The [for (const other of occupiedPositions)] loop, with its [break]. *)
Fixpoint collision (p : Vector3) (myRadius : R) (occupiedPositions : list Occupied) : bool :=
  match occupiedPositions with
  | [] => false
  | other :: rest =>
      if Rltb (distanceTo p (pos other)) (myRadius + radius other) then true
      else collision p myRadius rest
  end.

(** The [while (!valid && attempts < 100)] loop; [left] is
    [100 - attempts].  [Some p] is [valid] with [pos = p]. *)
Fixpoint tryPlace (left : nat) (myRadius : R) (occupiedPositions : list Occupied)
    : Gen (option Vector3) :=
  match left with
  | O => ret None
  | S left' =>
      p <~ candidate ;;
      if collision p myRadius occupiedPositions
      then tryPlace left' myRadius occupiedPositions
      else ret (Some p)
  end.

(** The chaos position of a placed ornament: three draws. *)
Definition chaosPosition : Gen Vector3 :=
  u1 <~ random rnd ;;
  let rChaos := 10 + u1 * 15 in
  u2 <~ random rnd ;;
  let theta := u2 * PI * 2 in
  u3 <~ random rnd ;;
  let phi := acos (2 * u3 - 1) in
  ret {| v_x := rChaos * sin phi * cos theta;
         v_y := rChaos * sin phi * sin theta;
         v_z := rChaos * cos phi |}.

Definition randomRotation : Gen Euler :=
  u1 <~ random rnd ;;
  u2 <~ random rnd ;;
  ret {| e_x := u1 * PI; e_y := u2 * PI; e_z := 0 |}.

(** One iteration of [for (let i = 0; i < config.count; i++)]. *)
Definition placeOne (myRadius : R) (st : list Occupied * Group)
    : Gen (list Occupied * Group) :=
  let (occupiedPositions, g) := st in
  r <~ tryPlace ATTEMPTS myRadius occupiedPositions ;;
  match r with
  | Some p =>
      c <~ chaosPosition ;;
      e <~ randomRotation ;;
      ret (occupiedPositions ++ [ {| pos := p; radius := myRadius |} ],
           {| targetPositions := targetPositions g ++ [p];
              chaosPositions := chaosPositions g ++ [c];
              randomRotations := randomRotations g ++ [e] |})
  | None => ret st
  end.

Fixpoint placeMany (n : nat) (myRadius : R) (st : list Occupied * Group)
    : Gen (list Occupied * Group) :=
  match n with
  | O => ret st
  | S n' => st' <~ placeOne myRadius st ;; placeMany n' myRadius st'
  end.

(** The callback of [configs.forEach]. *)
Definition placeConfig (config : Config)
    (st : list Occupied * list (string * Group))
    : Gen (list Occupied * list (string * Group)) :=
  let (occupiedPositions, groups) := st in
  let myRadius := scale config * 1.1 in
  r <~ placeMany (count config) myRadius
         (occupiedPositions,
          {| targetPositions := []; chaosPositions := []; randomRotations := [] |}) ;;
  ret (fst r, groups ++ [(id config, snd r)]).

Fixpoint forEach (cs : list Config) (st : list Occupied * list (string * Group))
    : Gen (list Occupied * list (string * Group)) :=
  match cs with
  | [] => ret st
  | config :: rest => st' <~ placeConfig config st ;; forEach rest st'
  end.

(** The whole [useMemo] callback, with the occupancy list it built. *)
Definition generate : list Occupied * list (string * Group) :=
  fst (forEach configs ([], []) 0%nat).

Definition ornamentGroups : list (string * Group) := snd generate.

End Generator.

End Scene.

(** ** Polaroids.tsx: the grid position *)

Module Polaroids.

Definition COUNT : nat := 25.
Definition gridCols : nat := 5.
Definition spacingX : R := 1.75.
Definition spacingY : R := 2.1.

Definition startX : R := - ((INR gridCols - 1) * spacingX) / 2.

Definition rows : Z := Math_ceil (INR COUNT / INR gridCols).

Definition totalGridHeight : R := (IZR rows - 1) * spacingY.

Definition startY : R := 2.9 + totalGridHeight / 2.

Definition col (i : nat) : nat := i mod gridCols.

Definition row (i : nat) : Z := Math_floor (INR i / INR gridCols).

(** [gPos] of item [i]. *)
Definition gPos (i : nat) : Vector3 :=
  {| v_x := startX + INR (col i) * spacingX;
     v_y := startY - IZR (row i) * spacingY;
     v_z := 8 |}.

(** The [gridPos] fields of [items], in order. *)
Definition gridPositions : list Vector3 := map gPos (seq 0 COUNT).

End Polaroids.

(** ** Ornaments.tsx: the mix accumulator *)

Module Ornaments.

Definition targetLerp (m : TreeMode) : R :=
  if TreeMode_eq_dec m CHAOS then 1 else 0.

Definition physicsSpeed (weight : R) : R := 2 * (1 - weight * 0.5).

(** The update of [lerpVal.current] in [useFrame]. *)
Definition useFrame (m : TreeMode) (weight delta : R) (lerpVal : R) : R :=
  lerp lerpVal (targetLerp m) (delta * physicsSpeed weight).

(** [n] ticks in one mode with one frame delta. *)
Fixpoint ticks (n : nat) (m : TreeMode) (weight delta : R) (lerpVal : R) : R :=
  match n with
  | O => lerpVal
  | S n' => useFrame m weight delta (ticks n' m weight delta lerpVal)
  end.

End Ornaments.

(** ** PhotoUploader.tsx: the upload handlers
    (first unit of src/components/PhotoUploader.tsx) *)

Module PhotoUploader.

Definition MAX_PHOTOS : nat := 25.

(** [photos.filter((_, idx) => keep idx)], [idx] counted from [start]. *)
Fixpoint filterIndex {A : Type} (keep : nat -> bool) (start : nat) (l : list A) : list A :=
  match l with
  | [] => []
  | x :: rest =>
      if keep start then x :: filterIndex keep (S start) rest
      else filterIndex keep (S start) rest
  end.

(** A string in a condition: the empty string is falsy. *)
Definition truthy (u : string) : bool :=
  match u with EmptyString => false | String _ _ => true end.

Section Handlers.

(** The browser's [File] objects and [URL.createObjectURL]. *)
Variable File : Type.
Variable createObjectURL : File -> string.

(** [handleFileChange]; [files] is [event.target.files], which may be
    [null]. *)
Definition handleFileChange (files : option (list File)) (s : AppState) : AppState :=
  match files with
  | Some newFiles =>
      if (0 <? length newFiles)%nat then
        let currentCount := length (photos s) in
        let remainingSlots := (Z.of_nat MAX_PHOTOS - Z.of_nat currentCount)%Z in
        if (remainingSlots <=? 0)%Z then s
        else
          let filesToProcess := firstn (Z.to_nat remainingSlots) newFiles in
          let newPhotoUrls := map createObjectURL filesToProcess in
          setPhotos (photos s ++ newPhotoUrls) s
      else s
  | None => s
  end.

End Handlers.

(** [handleRemovePhoto]: the URLs handed to [URL.revokeObjectURL] and
    the store after [setPhotos]. *)
Definition handleRemovePhoto (indexToRemove : nat) (s : AppState) : list string * AppState :=
  let revoked :=
    match nth_error (photos s) indexToRemove with
    | Some u => if truthy u then [u] else []
    | None => []
    end in
  let newPhotos :=
    filterIndex (fun idx => negb (idx =? indexToRemove)%nat) 0 (photos s) in
  (revoked, setPhotos newPhotos s).

End PhotoUploader.

(** ** The hand skeleton overlays: [renderSkeleton] of
    GestureController.tsx and GestureTrail.tsx
    (first unit of src/components/GestureTrail.tsx) *)

Module Skeleton.

Record Line : Type := mkLine { x1 : R; y1 : R; x2 : R; y2 : R }.

Record Circle : Type := mkCircle { cx : R; cy : R; cr : R }.

(** What a render does: throws (a bone end is [undefined]), returns
    [null], or returns the bones and joints. *)
Inductive Rendered : Type :=
  | Threw
  | Null
  | Drawn (bones : list Line) (joints : list Circle).

Section Overlay.

(** The coordinate maps and the two joint radii of an overlay. *)
Variables (fx fy : R -> R) (big small : R).

(** [CONNECTIONS.map(([start, end], i) => <line .../>)] *)
Fixpoint bones (landmarks : list Point2) (connections : list (nat * nat))
    : option (list Line) :=
  match connections with
  | [] => Some []
  | (start, end_) :: rest =>
      p1 <- nth_error landmarks start ;;
      p2 <- nth_error landmarks end_ ;;
      ls <- bones landmarks rest ;;
      Some ({| x1 := fx (px p1); y1 := fy (py p1);
               x2 := fx (px p2); y2 := fy (py p2) |} :: ls)
  end.

(** [i % 4 === 0 && i !== 0 ? big : small] *)
Definition jointRadius (i : nat) : R :=
  if ((i mod 4 =? 0) && negb (i =? 0))%nat then big else small.

(** [landmarks.map((lm, i) => <circle .../>)], [i] counted from [start]. *)
Fixpoint joints (start : nat) (landmarks : list Point2) : list Circle :=
  match landmarks with
  | [] => []
  | lm :: rest =>
      {| cx := fx (px lm); cy := fy (py lm); cr := jointRadius start |}
        :: joints (S start) rest
  end.

Definition overlay (h : HandState) : Rendered :=
  if negb (detected h) || (length (landmarks h) =? 0)%nat then Null
  else
    match bones (landmarks h) CONNECTIONS with
    | None => Threw
    | Some bs => Drawn bs (joints 0 (landmarks h))
    end.

End Overlay.

(** [renderSkeleton] of GestureController: coordinates in percent. *)
Definition renderSkeleton (h : HandState) : Rendered :=
  overlay (fun v => v * 100) (fun v => v * 100) 3 1.5 h.

(** [GestureTrail]: screen coordinates, x mirrored. *)
Definition GestureTrail (width height : R) (h : HandState) : Rendered :=
  overlay (fun val => (1 - val) * width) (fun val => val * height) 5 3 h.

End Skeleton.

(** ** Scene.tsx: CameraRig *)

Module CameraRig.

(** [Vector3.lerp(v, alpha)] of three.js. *)
Definition Vector3_lerp (this v : Vector3) (alpha : R) : Vector3 :=
  {| v_x := v_x this + (v_x v - v_x this) * alpha;
     v_y := v_y this + (v_y v - v_y this) * alpha;
     v_z := v_z this + (v_z v - v_z this) * alpha |}.

(** [vec.set(baseX + handX, baseY + handY, baseZ)] *)
Definition aim (h : HandState) : Vector3 :=
  let baseX := 0 in
  let baseY := 2 in
  let baseZ := 20 in
  let handX := if detected h then px (position h) * 10 else 0 in
  let handY := if detected h then py (position h) * 5 else 0 in
  {| v_x := baseX + handX; v_y := baseY + handY; v_z := baseZ |}.

(** The [useFrame] callback on [state.camera.position]. *)
Definition useFrame (h : HandState) (camera : Vector3) : Vector3 :=
  Vector3_lerp camera (aim h) 0.05.

(** The camera position the [Canvas] starts with. *)
Definition camera0 : Vector3 := {| v_x := 0; v_y := 4; v_z := 20 |}.

End CameraRig.

(** ** Polaroids.tsx: the [items] generator and [PolaroidFrame] *)

Module PolaroidItems.

Definition TREE_HEIGHT : R := 14.
Definition TREE_RADIUS : R := 5.
Definition MIN_DIST : R := 2.4.
Definition CHAOS_ATTEMPTS : nat := 50.

Record PolaroidData : Type := mkPolaroidData {
  id : nat;
  treePos : Vector3;
  chaosPos : Vector3;
  gridPos : Vector3;
  lookAtTree : Vector3;
  rotSpeed : Point2
}.

Section Generator.

Variable rnd : nat -> R.

(** One chaos candidate: three draws. *)
Definition chaosCandidate : Gen Vector3 :=
  u1 <~ random rnd ;;
  let chaosAngle := u1 * PI * 2 in
  u2 <~ random rnd ;;
  let chaosRadius := 9 + u2 * 7 in
  u3 <~ random rnd ;;
  let chaosHeight := (u3 - 0.5) * 12 + 4 in
  ret {| v_x := cos chaosAngle * chaosRadius;
         v_y := chaosHeight;
         v_z := sin chaosAngle * chaosRadius |}.

(** The [for (const item of arr)] loop, with its [break]. *)
Fixpoint collision (cPos : Vector3) (arr : list PolaroidData) : bool :=
  match arr with
  | [] => false
  | item :: rest =>
      if Rltb (distanceTo (chaosPos item) cPos) MIN_DIST then true
      else collision cPos rest
  end.

(** The [while (!valid && attempts < 50)] loop; [left] is
    [50 - attempts].  The result is [cPos] as the loop leaves it,
    valid or not. *)
Fixpoint chaosLoop (left : nat) (arr : list PolaroidData) (cPos : Vector3)
    : Gen Vector3 :=
  match left with
  | O => ret cPos
  | S left' =>
      c <~ chaosCandidate ;;
      if collision c arr then chaosLoop left' arr c else ret c
  end.

(** One iteration of [for (let i = 0; i < COUNT; i++)]. *)
Definition item (i : nat) (arr : list PolaroidData) : Gen (list PolaroidData) :=
  yNorm <~ random rnd ;;
  let y := (yNorm - 0.5) * TREE_HEIGHT in
  let r := ((1 - yNorm) * TREE_RADIUS) + 1.5 in
  u <~ random rnd ;;
  let angle := u * PI * 2 in
  let tPos := {| v_x := r * cos angle; v_y := y; v_z := r * sin angle |} in
  cPos <~ chaosLoop CHAOS_ATTEMPTS arr {| v_x := 0; v_y := 0; v_z := 0 |} ;;
  let gPos := Polaroids.gPos i in
  let look := {| v_x := 0; v_y := y; v_z := 0 |} in
  s1 <~ random rnd ;;
  s2 <~ random rnd ;;
  ret (arr ++ [ {| id := i; treePos := tPos; chaosPos := cPos; gridPos := gPos;
                   lookAtTree := look;
                   rotSpeed := {| px := (s1 - 0.5) * 0.5; py := (s2 - 0.5) * 0.5 |} |} ]).

(** The loop from [i] for [n] more items. *)
Fixpoint loop (n i : nat) (arr : list PolaroidData) : Gen (list PolaroidData) :=
  match n with
  | O => ret arr
  | S n' => arr' <~ item i arr ;; loop n' (S i) arr'
  end.

Definition items : list PolaroidData := fst (loop Polaroids.COUNT 0 [] 0%nat).

End Generator.

End PolaroidItems.

Module PolaroidFrame.

(** A number in a condition: zero is falsy. *)
Definition nonzero (r : R) : bool := if Req_dec_T r 0 then false else true.

(** The aspect-ratio effect: the new [planeArgs] for an image of the
    given size, [planeArgs] being the current value. *)
Definition fitPlane (width height : R) (planeArgs : R * R) : R * R :=
  if nonzero width && nonzero height then
    let aspect := width / height in
    if Rgtb aspect 1 then (1, 1 / aspect) else (aspect, 1)
  else planeArgs.

(** The three lerp refs of a frame. *)
Record Mix : Type := mkMix { lerpVal : R; scaleVal : R; gridLerpVal : R }.

Definition mix0 : Mix := {| lerpVal := 0; scaleVal := 0; gridLerpVal := 0 |}.

(** The accumulator updates of [useFrame]. *)
Definition useFrame (m : TreeMode) (delta : R) (f : Mix) : Mix :=
  let isChaos := if TreeMode_eq_dec m CHAOS then true else false in
  let isGrid := if TreeMode_eq_dec m GRID then true else false in
  let targetScale := if isChaos || isGrid then 1.3 else 0 in
  let targetChaos := if isChaos then 1 else 0 in
  let targetGrid := if isGrid then 1 else 0 in
  {| scaleVal := lerp (scaleVal f) targetScale (delta * 4);
     lerpVal := lerp (lerpVal f) targetChaos (delta * 2.5);
     gridLerpVal := lerp (gridLerpVal f) targetGrid (delta * 2.5) |}.

(** The position [useFrame] writes to the group. *)
Definition framePosition (data : PolaroidItems.PolaroidData) (f : Mix) : Vector3 :=
  let basePos :=
    lerpVectors (PolaroidItems.treePos data) (PolaroidItems.chaosPos data) (lerpVal f) in
  lerpVectors basePos (PolaroidItems.gridPos data) (gridLerpVal f).

End PolaroidFrame.

(** ** Ornaments.tsx: the per-instance transform *)

Module OrnamentInstances.

(** Position, rotation and scale written to [dummy] for instance [i];
    [None] when one of the three arrays has no entry [i] (reading a
    field of [undefined] throws). *)
Definition instance (data : Scene.Group) (scale lerpVal elapsedTime : R) (i : nat)
    : option (Vector3 * Euler * R) :=
  t <- nth_error (Scene.targetPositions data) i ;;
  c <- nth_error (Scene.chaosPositions data) i ;;
  r <- nth_error (Scene.randomRotations data) i ;;
  let currentScale := scale * (1 + lerpVal * 0.2) in
  Some (lerpVectors t c lerpVal,
        {| e_x := e_x r + elapsedTime * 0.2;
           e_y := e_y r + elapsedTime * 0.1;
           e_z := e_z r |},
        currentScale).

(** The [for (let i = 0; i < count; i++)] loop from [i], [n] instances. *)
Fixpoint instances (data : Scene.Group) (scale lerpVal elapsedTime : R) (n i : nat)
    : option (list (Vector3 * Euler * R)) :=
  match n with
  | O => Some []
  | S n' =>
      x <- instance data scale lerpVal elapsedTime i ;;
      xs <- instances data scale lerpVal elapsedTime n' (S i) ;;
      Some (x :: xs)
  end.

(** All instances of a frame; [count] is [data.targetPositions.length]. *)
Definition frame (data : Scene.Group) (scale lerpVal elapsedTime : R)
    : option (list (Vector3 * Euler * R)) :=
  instances data scale lerpVal elapsedTime (length (Scene.targetPositions data)) 0.

End OrnamentInstances.

(** ** TreeParticles.tsx: the easing of the vertex shader *)

Module TreeParticles.

(** [t < 0.5 ? 4.0*t*t*t : 1.0 - pow(-2.0*t + 2.0, 3.0) / 2.0];
    [pow(x, 3.0)] is the cube for [x >= 0]. *)
Definition ease (uLerp : R) : R :=
  let t := uLerp in
  if Rltb t 0.5 then 4 * t * t * t else 1 - (-2 * t + 2) ^ 3 / 2.

(** The update of [lerpVal.current] in [useFrame]. *)
Definition useFrame (m : TreeMode) (delta : R) (lerpVal : R) : R :=
  lerp lerpVal (if TreeMode_eq_dec m CHAOS then 1 else 0) (delta * 2).

End TreeParticles.

(** ** Star.tsx: the outline (first part of src/unnamed/part_001) *)

Module Star.




End Star.

(** ** Runs and concrete inputs the properties below are stated on *)

Module Inputs.

(** A store in GRID mode, reached from the initial one by a detected
    PINCH. *)
Definition pinched : AppState :=
  setHandState {| p_detected := Some true; p_gesture := Some PINCH;
                  p_position := None; p_landmarks := None |} useStore.

(** A classified sample with label [g]. *)
Definition sample (g : GestureType) : Sample :=
  (g, {| px := 0; py := 0 |}, []).

(** A hand laid along the x axis: keypoint [i] is [(nth i xs, 0)]. *)
Definition alongX (xs : list R) : list Point2 :=
  map (fun x => {| px := x; py := 0 |}) xs.

(** Four fingers extended (thumb, index, middle, ring), pinky folded,
    thumb tip and index tip 0.02 apart. *)
Definition openPinch : list Point2 :=
  alongX [ 0;
           0.02; 0.05; 0.1; 0.2;
           0.05; 0.1; 0.15; 0.22;
           0.06; 0.1; 0.15; 0.2;
           0.05; 0.1; 0.15; 0.2;
           0.05; 0.1; 0.08; 0.05 ].

(** Index and middle extended, ring and pinky folded, thumb extended,
    thumb tip and index tip 0.02 apart. *)
Definition victoryPinch : list Point2 :=
  alongX [ 0;
           0.02; 0.05; 0.1; 0.2;
           0.05; 0.1; 0.15; 0.22;
           0.06; 0.1; 0.15; 0.2;
           0.05; 0.1; 0.1; 0.1;
           0.05; 0.1; 0.08; 0.05 ].

(** No finger extended, thumb tip and index tip 0.02 apart. *)
Definition closedPinch : list Point2 :=
  alongX [ 0;
           0.02; 0.05; 0.1; 0.1;
           0.05; 0.1; 0.1; 0.08;
           0.06; 0.1; 0.1; 0.1;
           0.05; 0.1; 0.1; 0.1;
           0.05; 0.1; 0.08; 0.05 ].

(** The manual toggle pressed while the controller is mounted: both
    write the one store. *)
Definition manualToggle (c : Controller) : Controller :=
  {| pendingGestureRef := pendingGestureRef c;
     gestureCountRef := gestureCountRef c;
     store := toggleMode (store c) |}.

(** OPEN confirmed by seven samples, then one FIST sample (pending,
    not confirmed), then the manual toggle. *)
Definition toggledWhileOpen : Controller :=
  manualToggle (feed (repeat (sample OPEN) 7 ++ [sample FIST]) (mount useStore)).

(** A mounted group at rest, rotation 0. *)
Definition atRest : Scene.TreeGroup :=
  {| Scene.groupRef := Some 0; Scene.isDragging := false;
     Scene.previousMouseX := 0; Scene.velocity := 0 |}.

(** [k] frames of 1/60 s with the hand state of the initial store. *)
Definition idleTicks (k : nat) : list (HandState * R) :=
  repeat (handState useStore, 1 / 60) k.

(** Every sample of the stream carries the label [g]. *)
Definition allLabelled (g : GestureType) (samples : list Sample) : Prop :=
  Forall (fun s => fst (fst s) = g) samples.

(** No tick of the run is overridden by the VICTORY gesture. *)
Definition noVictory (ticks : list (HandState * R)) : Prop :=
  Forall (fun t => gesture (fst t) <> VICTORY) ticks.

(** Two occupancy records keep their distance. *)
Definition apart (p q : Scene.Occupied) : Prop :=
  distanceTo (Scene.pos p) (Scene.pos q) >= Scene.radius p + Scene.radius q.

(** Every two records at different indices keep their distance. *)
Definition separated (occ : list Scene.Occupied) : Prop :=
  forall (i j : nat) (p q : Scene.Occupied),
    i <> j -> nth_error occ i = Some p -> nth_error occ j = Some q -> apart p q.

(** The same over the pairs in the order of insertion. *)
Definition sep (occ : list Scene.Occupied) : Prop := ForallOrdPairs apart occ.

(** The candidate drawn when the cursor of the random source is at [n]. *)
Definition cand (rnd : nat -> R) (n : nat) : Vector3 :=
  fst (Scene.candidate rnd n).

(** The occupancy records of the formed positions of a category. *)
Definition records (config : Scene.Config) (g : Scene.Group) : list Scene.Occupied :=
  map (fun p => {| Scene.pos := p; Scene.radius := Scene.scale config * 1.1 |})
      (Scene.targetPositions g).

(** Draws that give the candidate (6.5, -8, 0) first and (-3.5, 0, 0)
    from the eighth draw on. *)
Definition twoSpots (n : nat) : R := if (n <? 7)%nat then 0 else 1 / 2.

Definition spotA : Vector3 := {| v_x := 6.5; v_y := -8; v_z := 0 |}.
Definition spotB : Vector3 := {| v_x := -3.5; v_y := 0; v_z := 0 |}.

(** The radius of a gold ball. *)
Definition goldRadius : R := 0.35 * 1.1.

Definition emptyGroup : Scene.Group :=
  {| Scene.targetPositions := []; Scene.chaosPositions := [];
     Scene.randomRotations := [] |}.


(** *** Runs of the handlers *)

(** The detector loop: one [predictWebcam] per result, oldest first. *)
Definition detect (results : list (list (list Point2))) (c : Controller) : Controller :=
  fold_left (fun c r => predictWebcam r c) results c.

(** Pointer moves at the given x, oldest first. *)
Definition pointerMoves (xs : list R) (g : Scene.TreeGroup) : Scene.TreeGroup :=
  fold_left (fun g x => Scene.handlePointerMove x g) xs g.

(** Frames of the camera rig, one hand state each. *)
Definition cameraFrames (hs : list HandState) (camera : Vector3) : Vector3 :=
  fold_left (fun cam h => CameraRig.useFrame h cam) hs camera.

(** Frames of one polaroid, each with its mode and delta. *)
Definition polaroidFrames (ticks : list (TreeMode * R)) (f : PolaroidFrame.Mix)
    : PolaroidFrame.Mix :=
  fold_left (fun f t => PolaroidFrame.useFrame (fst t) (snd t) f) ticks f.

(** Frames of an ornament group, each with its mode and delta. *)
Definition ornamentFrames (weight : R) (ticks : list (TreeMode * R)) (lerpVal : R) : R :=
  fold_left (fun v t => Ornaments.useFrame (fst t) weight (snd t) v) ticks lerpVal.

(** Adjacent labels of the stream differ, the first from [g]. *)
Fixpoint flickers (g : GestureType) (samples : list Sample) : Prop :=
  match samples with
  | [] => True
  | s :: rest => fst (fst s) <> g /\ flickers (fst (fst s)) rest
  end.

(** Every keypoint lies in the unit square. *)
Definition normalized (lms : list Point2) : Prop :=
  Forall (fun l => 0 <= px l <= 1 /\ 0 <= py l <= 1) lms.

(** The hand moved by [(dx, dy)], and mirrored in x. *)
Definition translate (dx dy : R) (lms : list Point2) : list Point2 :=
  map (fun l => {| px := px l + dx; py := py l + dy |}) lms.

Definition mirror (lms : list Point2) : list Point2 :=
  map (fun l => {| px := 1 - px l; py := py l |}) lms.

(** Every draw lies in [0, 1), as [Math.random] promises. *)
Definition unitDraws (rnd : nat -> R) : Prop := forall n : nat, 0 <= rnd n < 1.

(** The candidate of the polaroid chaos loop at cursor [n]. *)
Definition chaosCand (rnd : nat -> R) (n : nat) : Vector3 :=
  fst (PolaroidItems.chaosCandidate rnd n).

(** A file type for the uploader: a file is named by its URL. *)
Definition urlOf (f : string) : string := f.


(** What the [items] loop guarantees of item [d] at index [j], the
    items before it being [earlier]: its id and grid slot, where it
    looks, that its tree position is on the cone, and that its chaos
    position is clear of the earlier ones unless all 50 candidates
    collided, in which case it is the last candidate. *)
Definition polaroidPlaced (rnd : nat -> R) (j : nat) (d : PolaroidItems.PolaroidData)
    (earlier : list PolaroidItems.PolaroidData) : Prop :=
  PolaroidItems.id d = j
  /\ PolaroidItems.gridPos d = Polaroids.gPos j
  /\ PolaroidItems.lookAtTree d =
       {| v_x := 0; v_y := v_y (PolaroidItems.treePos d); v_z := 0 |}
  /\ v_x (PolaroidItems.treePos d) * v_x (PolaroidItems.treePos d)
       + v_z (PolaroidItems.treePos d) * v_z (PolaroidItems.treePos d)
     = (4 - 5 / 14 * v_y (PolaroidItems.treePos d))
       * (4 - 5 / 14 * v_y (PolaroidItems.treePos d))
  /\ (Forall (fun e => distanceTo (PolaroidItems.chaosPos e) (PolaroidItems.chaosPos d)
                        >= 2.4) earlier
      \/ exists n : nat,
           (forall b : nat, (b < 50)%nat ->
              PolaroidItems.collision (chaosCand rnd (n + 3 * b)) earlier = true)
           /\ PolaroidItems.chaosPos d = chaosCand rnd (n + 3 * 49)).

End Inputs.
Import Inputs.

(** * Properties *)

(** ** The store: manual toggle and gesture transition *)

(** C1, as stated, fails: from GRID the toggle yields FORMED, not CHAOS. *)
Lemma C1_toggle_from_grid_is_formed :
  mode pinched = GRID /\ mode (toggleMode pinched) = FORMED
  /\ mode (toggleMode pinched) <> CHAOS.
Proof.
  repeat split; try reflexivity.
  change (FORMED <> CHAOS). discriminate.
Qed.

(** C1 (amended): the manual toggle maps FORMED to CHAOS and every other
    mode, CHAOS and GRID alike, to FORMED; it reads nothing but the mode
    and leaves the hand state (so also the detection state) as it was. *)
Theorem C1_toggleMode_table : forall s : AppState,
  mode (toggleMode s) =
    match mode s with
    | FORMED => CHAOS
    | CHAOS => FORMED
    | GRID => FORMED
    end
  /\ handState (toggleMode s) = handState s.
Proof.
  intros s. split; [|reflexivity].
  unfold toggleMode; simpl. destruct (mode s); reflexivity.
Qed.

(** C4: the store starts in FORMED; a hand-state update leaves the mode
    alone unless the merged hand state is detected, and then OPEN gives
    CHAOS, FIST gives FORMED, PINCH gives GRID, from any mode, while
    VICTORY and NONE keep the mode. *)
Theorem C4_setHandState_transition :
  mode useStore = FORMED
  /\ forall (partial : PartialHandState) (s : AppState),
       let h := spread (handState s) partial in
       handState (setHandState partial s) = h
       /\ (detected h = false -> mode (setHandState partial s) = mode s)
       /\ (detected h = true ->
             (gesture h = OPEN -> mode (setHandState partial s) = CHAOS)
             /\ (gesture h = FIST -> mode (setHandState partial s) = FORMED)
             /\ (gesture h = PINCH -> mode (setHandState partial s) = GRID)
             /\ (gesture h = VICTORY -> mode (setHandState partial s) = mode s)
             /\ (gesture h = NONE -> mode (setHandState partial s) = mode s)).
Proof.
  split; [reflexivity|].
  intros partial s h. unfold setHandState, gestureMode; simpl. fold h.
  split; [reflexivity|]. split.
  - intros ->. reflexivity.
  - intros ->. repeat split; intros ->; reflexivity.
Qed.

(** The table of C4 read at concrete updates: an undetected OPEN keeps
    FORMED, a detected OPEN moves FORMED to CHAOS. *)
Lemma C4_setHandState_transition_witness :
  mode (setHandState {| p_detected := Some false; p_gesture := Some OPEN;
                        p_position := None; p_landmarks := None |} useStore) = FORMED
  /\ mode (setHandState {| p_detected := Some true; p_gesture := Some OPEN;
                           p_position := None; p_landmarks := None |} useStore) = CHAOS.
Proof.
  destruct C4_setHandState_transition as [_ H].
  split.
  - destruct (H {| p_detected := Some false; p_gesture := Some OPEN;
                   p_position := None; p_landmarks := None |} useStore)
      as (_ & Hoff & _).
    apply Hoff. reflexivity.
  - destruct (H {| p_detected := Some true; p_gesture := Some OPEN;
                   p_position := None; p_landmarks := None |} useStore)
      as (_ & _ & Hon).
    apply Hon; reflexivity.
Defined.

(** ** The debounce filter *)

Section Debounce.

Variables (g : GestureType) (p : Point2) (l : list Point2) (c : Controller).

Lemma onHand_pending : pendingGestureRef (onHand g p l c) = g.
Proof.
  unfold onHand, publish, debounce; simpl.
  destruct (GestureType_eq_dec g (pendingGestureRef c)); simpl; congruence.
Qed.

Lemma onHand_count :
  gestureCountRef (onHand g p l c) =
    if GestureType_eq_dec g (pendingGestureRef c) then S (gestureCountRef c) else 0%nat.
Proof.
  unfold onHand, publish, debounce; simpl.
  destruct (GestureType_eq_dec g (pendingGestureRef c)); reflexivity.
Qed.

Lemma onHand_gesture :
  gesture (handState (store (onHand g p l c))) =
    if (GESTURE_CONFIRM_THRESHOLD <? gestureCountRef (onHand g p l c))%nat
    then g else gesture (handState (store c)).
Proof.
  rewrite onHand_count.
  unfold onHand, publish, debounce; simpl.
  destruct (GestureType_eq_dec g (pendingGestureRef c)); simpl;
    [destruct (_ <? _)%nat|]; reflexivity.
Qed.

Lemma onHand_detected : detected (handState (store (onHand g p l c))) = true.
Proof.
  unfold onHand, publish; simpl.
  destruct (_ <? _)%nat; reflexivity.
Qed.

Lemma onHand_mode :
  mode (store (onHand g p l c)) =
    gestureMode (handState (store (onHand g p l c))) (mode (store (debounce g c))).
Proof. reflexivity. Qed.

End Debounce.

Lemma feed_cons (s : Sample) (samples : list Sample) (c : Controller) :
  feed (s :: samples) c =
    feed samples (onHand (fst (fst s)) (snd (fst s)) (snd s) c).
Proof. destruct s as [[g p] l]. reflexivity. Qed.

(** A streak that continues the pending candidate. *)
Lemma feed_streak (g : GestureType) (samples : list Sample) :
  allLabelled g samples ->
  forall c : Controller,
    pendingGestureRef c = g ->
    let c' := feed samples c in
    let k := length samples in
    pendingGestureRef c' = g
    /\ gestureCountRef c' = (gestureCountRef c + k)%nat
    /\ gesture (handState (store c')) =
         if ((1 <=? k) && (5 <? gestureCountRef c + k))%nat then g
         else gesture (handState (store c)).
Proof.
  induction 1 as [|s samples Hs _ IH]; intros c Hp.
  - simpl. rewrite Nat.add_0_r. auto.
  - rewrite feed_cons, Hs.
    set (c1 := onHand g (snd (fst s)) (snd s) c).
    assert (Hp1 : pendingGestureRef c1 = g) by apply onHand_pending.
    assert (Hc1 : gestureCountRef c1 = S (gestureCountRef c)).
    { unfold c1. rewrite onHand_count.
      destruct (GestureType_eq_dec g (pendingGestureRef c)); congruence. }
    assert (Hg1 : gesture (handState (store c1)) =
                  if (5 <? S (gestureCountRef c))%nat then g
                  else gesture (handState (store c))).
    { unfold c1 at 1. rewrite onHand_gesture. fold c1. rewrite Hc1. reflexivity. }
    destruct (IH c1 Hp1) as (IHp & IHc & IHg).
    split; [exact IHp|]. split; [rewrite IHc, Hc1; simpl; lia|].
    rewrite IHg, Hg1, Hc1. cbv zeta.
    destruct samples as [|s' samples']; cbn [length].
    + rewrite Nat.add_0_r.
      replace (gestureCountRef c + 1)%nat with (S (gestureCountRef c)) by lia.
      reflexivity.
    + set (n := length _). set (m := gestureCountRef c).
      replace (m + S (S n))%nat with (S m + S n)%nat by lia.
      change (1 <=? S n)%nat with true. change (1 <=? S (S n))%nat with true.
      rewrite !andb_true_l.
      destruct (5 <? S m + S n)%nat eqn:E; [reflexivity|].
      destruct (5 <? S m)%nat eqn:E'; [|reflexivity].
      apply Nat.ltb_lt in E'. apply Nat.ltb_ge in E. lia.
Qed.

(** A streak whose first sample differs from the pending candidate. *)
Lemma feed_fresh (g : GestureType) (s : Sample) (samples : list Sample) :
  allLabelled g (s :: samples) ->
  forall c : Controller,
    pendingGestureRef c <> g ->
    let c' := feed (s :: samples) c in
    let k := length (s :: samples) in
    pendingGestureRef c' = g
    /\ gestureCountRef c' = (k - 1)%nat
    /\ gesture (handState (store c')) =
         if (7 <=? k)%nat then g else gesture (handState (store c)).
Proof.
  intros Hall c Hp. apply Forall_cons_iff in Hall as [Hs Hrest].
  cbv zeta. rewrite feed_cons, Hs.
  set (c1 := onHand g (snd (fst s)) (snd s) c).
  assert (Hp1 : pendingGestureRef c1 = g) by apply onHand_pending.
  assert (Hc1 : gestureCountRef c1 = 0%nat).
  { unfold c1. rewrite onHand_count.
    destruct (GestureType_eq_dec g (pendingGestureRef c)); congruence. }
  assert (Hg1 : gesture (handState (store c1)) = gesture (handState (store c))).
  { unfold c1 at 1. rewrite onHand_gesture. fold c1. rewrite Hc1. reflexivity. }
  destruct (feed_streak g samples Hrest c1 Hp1) as (Fp & Fc & Fg).
  split; [exact Fp|]. split; [rewrite Fc, Hc1; simpl; lia|].
  rewrite Fg, Hg1, Hc1. simpl length. simpl Nat.add.
  destruct (7 <=? S (length samples))%nat eqn:E.
  - apply Nat.leb_le in E.
    replace (1 <=? length samples)%nat with true by (symmetry; apply Nat.leb_le; lia).
    replace (5 <? length samples)%nat with true by (symmetry; apply Nat.ltb_lt; lia).
    reflexivity.
  - apply Nat.leb_gt in E.
    replace (5 <? length samples)%nat with false by (symmetry; apply Nat.ltb_ge; lia).
    rewrite andb_false_r. reflexivity.
Qed.

(** C3, as stated, fails: from the mounted controller (candidate NONE,
    counter 0) six OPEN samples leave the counter at 5 and the forwarded
    gesture at NONE; the seventh confirms. *)
Lemma C3_six_samples_do_not_confirm :
  let c6 := feed (repeat (sample OPEN) 6) (mount useStore) in
  let c7 := feed (repeat (sample OPEN) 7) (mount useStore) in
  gestureCountRef c6 = 5%nat
  /\ gesture (handState (store c6)) = NONE
  /\ gesture (handState (store c6)) <> OPEN
  /\ gesture (handState (store c7)) = OPEN.
Proof.
  cbv zeta. repeat split; try reflexivity.
  change (NONE <> OPEN). discriminate.
Qed.

(** C3 (amended): over a run of [k] identical labels [g] fed from any
    state, the forwarded gesture becomes [g] on the sample at which the
    counter exceeds 5 and keeps its previous value until then.  When the
    run continues the pending candidate the counter grows by one per
    sample, so from counter 0 the 6th sample confirms.  When the first
    sample differs from the pending candidate it resets the counter to 0
    instead of counting, so the counter after [k] samples is [k - 1] and
    the 7th sample confirms: 6 further identical samples after the
    resetting one. *)
Theorem C3_debounce_confirmation :
  forall (g : GestureType) (samples : list Sample) (c : Controller),
    allLabelled g samples ->
    let k := length samples in
    let c' := feed samples c in
    (pendingGestureRef c = g ->
       pendingGestureRef c' = g
       /\ gestureCountRef c' = (gestureCountRef c + k)%nat
       /\ gesture (handState (store c')) =
            if ((1 <=? k) && (5 <? gestureCountRef c + k))%nat then g
            else gesture (handState (store c)))
    /\ (pendingGestureRef c <> g -> (1 <= k)%nat ->
          pendingGestureRef c' = g
          /\ gestureCountRef c' = (k - 1)%nat
          /\ gesture (handState (store c')) =
               if (7 <=? k)%nat then g else gesture (handState (store c))).
Proof.
  intros g samples c Hall k c'. split.
  - intros Hp. exact (feed_streak g samples Hall c Hp).
  - intros Hp Hk. unfold k in Hk.
    destruct samples as [|s samples]; [simpl in Hk; lia|].
    exact (feed_fresh g s samples Hall c Hp).
Qed.

(** C3 at a concrete run: seven OPEN samples from the mounted controller. *)
Lemma C3_debounce_confirmation_witness :
  gesture (handState (store (feed (repeat (sample OPEN) 7) (mount useStore)))) = OPEN
  /\ gestureCountRef (feed (repeat (sample NONE) 6) (mount useStore)) = 6%nat.
Proof.
  split.
  - assert (Hall : allLabelled OPEN (repeat (sample OPEN) 7))
      by (repeat constructor).
    destruct (C3_debounce_confirmation OPEN _ (mount useStore) Hall) as [_ H].
    destruct H as (_ & _ & Hg).
    + simpl. discriminate.
    + simpl. lia.
    + exact Hg.
  - assert (Hall : allLabelled NONE (repeat (sample NONE) 6))
      by (repeat constructor).
    destruct (C3_debounce_confirmation NONE _ (mount useStore) Hall) as [H _].
    destruct H as (_ & Hc & _).
    + reflexivity.
    + exact Hc.
Defined.

(** ** The classifier on a full hand *)

Lemma nth_error_in_range {A : Type} (xs : list A) (n : nat) :
  (n < length xs)%nat -> exists v, nth_error xs n = Some v.
Proof.
  intros H. destruct (nth_error xs n) eqn:E; [eauto|].
  apply nth_error_None in E. lia.
Qed.

Lemma dist_total (lms : list Point2) (i j : nat) :
  (i < length lms)%nat -> (j < length lms)%nat ->
  exists d, dist lms i j = Some d.
Proof.
  intros Hi Hj. unfold dist.
  destruct (nth_error_in_range lms i Hi) as [a ->].
  destruct (nth_error_in_range lms j Hj) as [b ->]. eauto.
Qed.

Lemma isUp_total (lms : list Point2) (tip joint : nat) :
  (tip < length lms)%nat -> (joint < length lms)%nat ->
  exists b, isUp lms tip joint = Some b.
Proof.
  intros Ht Hj. unfold isUp.
  assert (H0 : (0 < length lms)%nat) by lia.
  destruct (dist_total lms tip 0 Ht H0) as [dt ->].
  destruct (dist_total lms joint 0 Hj H0) as [dj ->]. eauto.
Qed.

Lemma measure_total (lms : list Point2) :
  length lms = 21%nat ->
  exists m d, measure lms = Some m /\ dist lms 4 8 = Some d
              /\ isPinch m = Rltb d 0.05.
Proof.
  intros H. unfold measure.
  destruct (isUp_total lms 4 3) as [b1 ->]; try lia.
  destruct (isUp_total lms 8 6) as [b2 ->]; try lia.
  destruct (isUp_total lms 12 10) as [b3 ->]; try lia.
  destruct (isUp_total lms 16 14) as [b4 ->]; try lia.
  destruct (isUp_total lms 20 18) as [b5 ->]; try lia.
  destruct (dist_total lms 4 8) as [d ->]; try lia.
  eexists; eexists; repeat split.
Qed.

(** On a full hand [predictWebcam] is one [onHand] step on the label the
    classifier decides and the remapped keypoint 9. *)
Lemma predictWebcam_hand (lms : list Point2) (rest : list (list Point2)) (c : Controller) :
  length lms = 21%nat ->
  exists m l9,
    measure lms = Some m /\ nth_error lms 9 = Some l9
    /\ predictWebcam (lms :: rest) c =
         onHand (decideGesture m)
                {| px := (1 - px l9) * 2 - 1; py := - (py l9 * 2 - 1) |}
                (simplify lms) c.
Proof.
  intros H.
  destruct (measure_total lms H) as (m & d & Hm & _ & _).
  destruct (nth_error_in_range lms 9) as [l9 H9]; [lia|].
  exists m, l9. repeat split; auto.
  unfold predictWebcam, detectGesture, scenePosition. rewrite Hm, H9. reflexivity.
Qed.

(** *** Evaluating the classifier on a hand along the x axis *)

Lemma hypot_axis (a : R) : hypot a (0 - 0) = Rabs a.
Proof.
  unfold hypot. replace (a * a + (0 - 0) * (0 - 0)) with (Rsqr a)
    by (unfold Rsqr; ring).
  apply sqrt_Rsqr_abs.
Qed.

Lemma Rgtb_true (a b : R) : a > b -> Rgtb a b = true.
Proof. intros H. unfold Rgtb. destruct (Rgt_dec a b); [reflexivity|contradiction]. Qed.

Lemma Rgtb_false (a b : R) : a <= b -> Rgtb a b = false.
Proof. intros H. unfold Rgtb. destruct (Rgt_dec a b); [lra|reflexivity]. Qed.

Lemma Rltb_true (a b : R) : a < b -> Rltb a b = true.
Proof. intros H. unfold Rltb. destruct (Rlt_dec a b); [reflexivity|contradiction]. Qed.


(** Settles a comparison of absolute values of concrete reals. *)
Ltac abs_cmp := unfold Rabs; repeat destruct Rcase_abs; lra.

Ltac eval_isUp :=
  unfold isUp, dist, openPinch, victoryPinch, closedPinch, alongX;
  cbn [map nth_error px py];
  rewrite !hypot_axis; f_equal;
  first [apply Rgtb_true; abs_cmp | apply Rgtb_false; abs_cmp].


Lemma measure_openPinch :
  measure openPinch =
    Some {| isThumbUp := true; isIndexUp := true; isMiddleUp := true;
            isRingUp := true; isPinkyUp := false; isPinch := true |}.
Proof.
  assert (H1 : isUp openPinch 4 3 = Some true) by eval_isUp.
  assert (H2 : isUp openPinch 8 6 = Some true) by eval_isUp.
  assert (H3 : isUp openPinch 12 10 = Some true) by eval_isUp.
  assert (H4 : isUp openPinch 16 14 = Some true) by eval_isUp.
  assert (H5 : isUp openPinch 20 18 = Some false) by eval_isUp.
  unfold measure. rewrite H1, H2, H3, H4, H5.
  unfold dist, openPinch, alongX; cbn [map nth_error px py].
  rewrite hypot_axis. do 2 f_equal. apply Rltb_true. abs_cmp.
Qed.





(** ** The anchor point *)

Lemma predictWebcam_position (lms : list Point2) (rest : list (list Point2)) (c : Controller) :
  length lms = 21%nat ->
  exists l9,
    nth_error lms 9 = Some l9
    /\ position (handState (store (predictWebcam (lms :: rest) c))) =
         {| px := (1 - px l9) * 2 - 1; py := - (py l9 * 2 - 1) |}.
Proof.
  intros H.
  destruct (predictWebcam_hand lms rest c H) as (m & l9 & _ & H9 & ->).
  exists l9. split; [exact H9|].
  unfold onHand, publish; simpl. destruct (_ <? _)%nat; reflexivity.
Qed.

(** C2, as stated, fails: the anchor is not the remapped base joint of
    the index finger (keypoint 5 of [CONNECTIONS]).  On [openPinch] that
    joint is at x = 0.05, which remaps to 0.9, and the emitted anchor has
    x = 0.88. *)
Lemma C2_anchor_is_not_index_base :
  baseJoint Index = 5%nat
  /\ exists l5,
       nth_error openPinch (baseJoint Index) = Some l5
       /\ position (handState (store (predictWebcam [openPinch] (mount useStore))))
            <> {| px := (1 - px l5) * 2 - 1; py := - (py l5 * 2 - 1) |}.
Proof.
  split; [reflexivity|].
  eexists. split; [reflexivity|].
  destruct (predictWebcam_position openPinch [] (mount useStore) eq_refl)
    as (l9 & H9 & ->).
  injection H9 as <-. cbn [px py].
  intros H. apply (f_equal px) in H. cbn [px] in H. lra.
Qed.

(** C2 (amended): for every full hand the anchor emitted with the
    classification is keypoint 9, the base joint of the middle finger in
    [CONNECTIONS], remapped by x' = (1 - x)*2 - 1 and y' = -(y*2 - 1). *)
Theorem C2_anchor_is_middle_base :
  forall (lms : list Point2) (rest : list (list Point2)) (c : Controller),
    length lms = 21%nat ->
    exists l9,
      nth_error lms (baseJoint Middle) = Some l9
      /\ position (handState (store (predictWebcam (lms :: rest) c))) =
           {| px := (1 - px l9) * 2 - 1; py := - (py l9 * 2 - 1) |}.
Proof.
  intros lms rest c H. change (baseJoint Middle) with 9%nat.
  apply predictWebcam_position. exact H.
Qed.

(** C2 at [openPinch]: keypoint 9 is at (0.06, 0), the anchor is
    ((1 - 0.06)*2 - 1, -(0*2 - 1)). *)
Lemma C2_anchor_is_middle_base_witness :
  position (handState (store (predictWebcam [openPinch] (mount useStore)))) =
    {| px := (1 - 0.06) * 2 - 1; py := - (0 * 2 - 1) |}.
Proof.
  destruct (C2_anchor_is_middle_base openPinch [] (mount useStore) eq_refl)
    as (l9 & H9 & ->).
  injection H9 as <-. reflexivity.
Defined.

(** ** Detector updates against the manual toggle *)

Lemma predictWebcam_openPinch (rest : list (list Point2)) (c : Controller) :
  predictWebcam (openPinch :: rest) c =
    onHand OPEN {| px := (1 - 0.06) * 2 - 1; py := - (0 * 2 - 1) |}
           (simplify openPinch) c.
Proof.
  unfold predictWebcam, detectGesture. rewrite measure_openPinch. reflexivity.
Qed.

Lemma onHand_reapplies (g : GestureType) (p : Point2) (l : list Point2) (c : Controller) :
  let c' := onHand g p l c in
  let h' := handState (store c') in
  (gesture h' = OPEN -> mode (store c') = CHAOS)
  /\ (gesture h' = FIST -> mode (store c') = FORMED)
  /\ (gesture h' = PINCH -> mode (store c') = GRID).
Proof.
  cbv zeta. rewrite onHand_mode. unfold gestureMode.
  rewrite onHand_detected.
  repeat split; intros ->; reflexivity.
Qed.

Lemma onHand_after_toggle (g : GestureType) (p : Point2) (l : list Point2) (c : Controller) :
  handState (store (onHand g p l (manualToggle c))) = handState (store (onHand g p l c))
  /\ pendingGestureRef (onHand g p l (manualToggle c)) = pendingGestureRef (onHand g p l c)
  /\ gestureCountRef (onHand g p l (manualToggle c)) = gestureCountRef (onHand g p l c).
Proof.
  unfold onHand, publish, debounce, manualToggle; simpl.
  destruct (GestureType_eq_dec g (pendingGestureRef c)); simpl; auto.
Qed.

(** C10: every detector update that sees a hand sets [detected] and
    applies the transition of the gesture the hand state then holds: if
    that gesture is OPEN, FIST or PINCH the mode after the update is
    CHAOS, FORMED or GRID.  An unconfirmed sample (counter not above the
    threshold) keeps the gesture of the previous hand state, so the
    transition of that gesture is applied again.  A manual toggle
    pressed before the update changes nothing in the outcome: the hand
    state is the same and, for those three gestures, so is the mode. *)
Theorem C10_detected_update_reapplies_mode :
  forall (lms : list Point2) (rest : list (list Point2)) (c : Controller),
    length lms = 21%nat ->
    let c' := predictWebcam (lms :: rest) c in
    let h' := handState (store c') in
    detected h' = true
    /\ (gesture h' = OPEN -> mode (store c') = CHAOS)
    /\ (gesture h' = FIST -> mode (store c') = FORMED)
    /\ (gesture h' = PINCH -> mode (store c') = GRID)
    /\ ((gestureCountRef c' <= GESTURE_CONFIRM_THRESHOLD)%nat ->
          gesture h' = gesture (handState (store c)))
    /\ (let t := predictWebcam (lms :: rest) (manualToggle c) in
        handState (store t) = h'
        /\ (gesture h' = OPEN \/ gesture h' = FIST \/ gesture h' = PINCH ->
              mode (store t) = mode (store c'))).
Proof.
  intros lms rest c H.
  destruct (predictWebcam_hand lms rest c H) as (m & l9 & Hm & H9 & E).
  destruct (predictWebcam_hand lms rest (manualToggle c) H) as (m' & l9' & Hm' & H9' & E').
  assert (m' = m) by congruence. assert (l9' = l9) by congruence. subst m' l9'.
  cbv zeta. rewrite E, E'. clear E E'.
  set (g := decideGesture m). set (p := {| px := _; py := _ |}).
  set (l := simplify lms).
  destruct (onHand_reapplies g p l c) as (Ho & Hf & Hp).
  destruct (onHand_reapplies g p l (manualToggle c)) as (Ho' & Hf' & Hp').
  destruct (onHand_after_toggle g p l c) as (Eh & _ & _).
  split; [apply onHand_detected|].
  split; [exact Ho|]. split; [exact Hf|]. split; [exact Hp|].
  split.
  - intros Hc. rewrite onHand_gesture.
    replace (_ <? _)%nat with false; [reflexivity|].
    symmetry. apply Nat.ltb_ge. exact Hc.
  - split; [exact Eh|].
    rewrite Eh in Ho', Hf', Hp'.
    intros [Hg | [Hg | Hg]].
    + rewrite (Ho Hg). apply Ho'. exact Hg.
    + rewrite (Hf Hg). apply Hf'. exact Hg.
    + rewrite (Hp Hg). apply Hp'. exact Hg.
Qed.

(** C10 at a concrete run: OPEN is confirmed, a FIST sample is pending,
    the toggle flips CHAOS to FORMED; the next update, an unconfirmed
    OPEN-shaped hand, keeps gesture OPEN and puts the mode back to CHAOS. *)
Lemma C10_detected_update_reapplies_mode_witness :
  mode (store toggledWhileOpen) = FORMED
  /\ gesture (handState (store toggledWhileOpen)) = OPEN
  /\ let c' := predictWebcam [openPinch] toggledWhileOpen in
     gestureCountRef c' = 0%nat
     /\ gesture (handState (store c')) = OPEN
     /\ mode (store c') = CHAOS.
Proof.
  split; [reflexivity|]. split; [reflexivity|]. cbv zeta.
  destruct (C10_detected_update_reapplies_mode openPinch [] toggledWhileOpen eq_refl)
    as (_ & Ho & _ & _ & Hret & _).
  assert (Hc : gestureCountRef (predictWebcam [openPinch] toggledWhileOpen) = 0%nat)
    by (rewrite predictWebcam_openPinch; reflexivity).
  assert (Hg : gesture (handState (store (predictWebcam [openPinch] toggledWhileOpen))) = OPEN).
  { rewrite Hret; [reflexivity|]. rewrite Hc. unfold GESTURE_CONFIRM_THRESHOLD. lia. }
  split; [exact Hc|]. split; [exact Hg|]. apply Ho. exact Hg.
Defined.

(** ** The photo grid *)

Section Grid.

Import Polaroids.

Lemma INR_gridCols : INR gridCols = 5.
Proof. unfold gridCols. rewrite INR_IZR_INZ. reflexivity. Qed.

Lemma INR_COUNT : INR COUNT = 25.
Proof. unfold COUNT. rewrite INR_IZR_INZ. reflexivity. Qed.

Lemma rows_5 : rows = 5%Z.
Proof.
  unfold rows, Math_ceil. rewrite INR_gridCols, INR_COUNT.
  rewrite <- (Int_part_spec (- (25 / 5)) (-5)%Z); [reflexivity|].
  split; lra.
Qed.

(** [Math.floor(i / gridCols)] is the integer quotient. *)
Lemma row_div (i : nat) : row i = Z.of_nat (i / 5).
Proof.
  unfold row, Math_floor. rewrite INR_gridCols.
  symmetry. apply Int_part_spec. rewrite <- INR_IZR_INZ.
  pose proof (Nat.div_mod_eq i 5) as E.
  pose proof (Nat.mod_upper_bound i 5 ltac:(lia)) as Hr.
  assert (Ei : INR i = 5 * INR (i / 5) + INR (i mod 5)).
  { rewrite E at 1. rewrite plus_INR, mult_INR.
    replace (INR 5) with 5 by (rewrite INR_IZR_INZ; reflexivity). reflexivity. }
  assert (H0 : 0 <= INR (i mod 5)) by apply pos_INR.
  assert (H4 : INR (i mod 5) <= 4).
  { replace 4 with (INR 4) by (rewrite INR_IZR_INZ; reflexivity).
    apply le_INR. lia. }
  rewrite Ei. split; lra.
Qed.

Lemma startX_value : startX = -3.5.
Proof. unfold startX, spacingX. rewrite INR_gridCols. lra. Qed.

Lemma startY_value : startY = 2.9 + 4.2.
Proof. unfold startY, totalGridHeight, spacingY. rewrite rows_5. lra. Qed.

Lemma gPos_value (i : nat) :
  gPos i = {| v_x := -3.5 + INR (i mod 5) * 1.75;
              v_y := 2.9 + 4.2 - INR (i / 5) * 2.1;
              v_z := 8 |}.
Proof.
  unfold gPos. rewrite startX_value, startY_value, row_div, <- INR_IZR_INZ.
  reflexivity.
Qed.

End Grid.

(** ** Drag and inertia *)

Section Inertia.

Import Scene.

Lemma frames_snoc (ticks : list (HandState * R)) (t : HandState * R) (g : TreeGroup) :
  frames (ticks ++ [t]) g = useFrame (fst t) (snd t) (frames ticks g).
Proof. unfold frames. rewrite fold_left_app. reflexivity. Qed.

Lemma frames_app (t1 t2 : list (HandState * R)) (g : TreeGroup) :
  frames (t1 ++ t2) g = frames t2 (frames t1 g).
Proof. unfold frames. apply fold_left_app. Qed.

Lemma pow_095_decr (j k : nat) : (j <= k)%nat -> 0.95 ^ k <= 0.95 ^ j.
Proof.
  induction 1 as [|k _ IH]; [lra|].
  simpl. assert (0 < 0.95 ^ k) by (apply pow_lt; lra). lra.
Qed.

Lemma above_epsilon (j : nat) : (j <= 166)%nat -> 0.5 * 0.95 ^ j > 0.0001.
Proof.
  intros H. apply pow_095_decr in H.
  assert (0.5 * 0.95 ^ 166 > 0.0001) by lra. lra.
Qed.

Lemma below_epsilon : 0 < 0.5 * 0.95 ^ 167 <= 0.0001.
Proof. split; lra. Qed.

(** The released group while the velocity decays. *)
Lemma inertia_decay (r : R) (g : TreeGroup) (ticks : list (HandState * R)) :
  groupRef g = Some r -> isDragging g = false -> velocity g = 0.5 ->
  noVictory ticks -> (length ticks <= 167)%nat ->
  let k := length ticks in
  let g' := frames ticks g in
  isDragging g' = false
  /\ velocity g' = 0.5 * 0.95 ^ k
  /\ groupRef g' = Some (r + 10 * (1 - 0.95 ^ k)).
Proof.
  intros Hr Hd Hv. induction ticks as [|t ticks IH] using rev_ind; intros Hn Hk.
  - simpl. rewrite Hv, Hr. split; [exact Hd|]. split; [lra|f_equal; lra].
  - rewrite length_app in Hk. simpl in Hk.
    apply Forall_app in Hn as [Hn Ht]. apply Forall_cons_iff in Ht as [Ht _].
    destruct (IH Hn ltac:(lia)) as (Id & Iv & Ir).
    cbv zeta. rewrite frames_snoc, length_app. simpl length.
    replace (length ticks + 1)%nat with (S (length ticks)) by lia.
    unfold useFrame. rewrite Ir.
    destruct (GestureType_eq_dec (gesture (fst t)) VICTORY) as [E|_]; [contradiction|].
    rewrite Id. cbn [negb].
    rewrite Rgtb_true.
    + cbn [isDragging velocity groupRef]. rewrite Iv.
      split; [reflexivity|]. split; [simpl; lra|f_equal; simpl; lra].
    + rewrite Iv. pose proof (above_epsilon (length ticks) ltac:(lia)) as Ha.
      rewrite Rabs_right; lra.
Qed.

(** A group at rest stays as it is. *)
Lemma inertia_rest (r : R) (ticks : list (HandState * R)) :
  noVictory ticks ->
  forall g : TreeGroup,
    groupRef g = Some r -> isDragging g = false -> velocity g = 0 ->
    let g' := frames ticks g in
    isDragging g' = false /\ velocity g' = 0 /\ groupRef g' = Some r.
Proof.
  induction 1 as [|t ticks Ht _ IH]; intros g Hr Hd Hv.
  - simpl. auto.
  - change (frames (t :: ticks) g) with (frames ticks (useFrame (fst t) (snd t) g)).
    apply IH; unfold useFrame; rewrite Hr;
      destruct (GestureType_eq_dec (gesture (fst t)) VICTORY) as [E|_];
      try contradiction; rewrite Hd; cbn [negb];
      rewrite Rgtb_false by (rewrite Hv, Rabs_R0; lra); auto.
Qed.

(** The tick at which the decayed velocity is no longer above the
    epsilon: it is set to 0 and the rotation is left alone. *)
Lemma inertia_clamp (r v : R) (t : HandState * R) (g : TreeGroup) :
  groupRef g = Some r -> isDragging g = false -> velocity g = v ->
  Rabs v <= 0.0001 -> gesture (fst t) <> VICTORY ->
  let g' := useFrame (fst t) (snd t) g in
  isDragging g' = false /\ velocity g' = 0 /\ groupRef g' = Some r.
Proof.
  intros Hr Hd Hv Ha Ht. cbv zeta. unfold useFrame. rewrite Hr.
  destruct (GestureType_eq_dec (gesture (fst t)) VICTORY) as [E|_]; [contradiction|].
  rewrite Hd. cbn [negb]. rewrite Rgtb_false by (rewrite Hv; exact Ha). auto.
Qed.

Lemma noVictory_idleTicks (k : nat) : noVictory (idleTicks k).
Proof.
  apply Forall_forall. intros t Ht. apply repeat_spec in Ht. subst t.
  simpl. discriminate.
Qed.

End Inertia.

(** C9: on a mounted group, pointer-down followed by a pointer-move 100
    pixels to the right adds 0.5 rad to the rotation at once and stores
    the velocity 100 * 0.005 = 0.5.  After pointer-up, over ticks that
    are not overridden by VICTORY, the velocity after [k] ticks is
    0.5 * 0.95^k for every k up to 167, each of these ticks having added
    the velocity it found (above 1e-4) to the rotation; the velocity
    after tick 167 is not above 1e-4, so tick 168 sets it to exactly 0
    without touching the rotation, and it stays 0 from then on. *)
Theorem C9_drag_inertia :
  forall (g0 : Scene.TreeGroup) (r0 x0 : R),
    Scene.groupRef g0 = Some r0 ->
    let g1 := Scene.handlePointerMove (x0 + 100) (Scene.handlePointerDown x0 g0) in
    Scene.groupRef g1 = Some (r0 + 0.5)
    /\ Scene.velocity g1 = 0.5
    /\ Scene.isDragging g1 = true
    /\ forall ticks : list (HandState * R),
         noVictory ticks ->
         let k := length ticks in
         let g := Scene.frames ticks (Scene.handlePointerUp g1) in
         ((k <= 167)%nat ->
            Scene.velocity g = 0.5 * 0.95 ^ k
            /\ Scene.groupRef g = Some (r0 + 0.5 + 10 * (1 - 0.95 ^ k))
            /\ ((k < 167)%nat -> Rabs (Scene.velocity g) > 0.0001)
            /\ (k = 167%nat -> Rabs (Scene.velocity g) <= 0.0001))
         /\ ((168 <= k)%nat ->
               Scene.velocity g = 0
               /\ Scene.groupRef g = Some (r0 + 0.5 + 10 * (1 - 0.95 ^ 167))).
Proof.
  intros g0 r0 x0 Hr0 g1.
  assert (H1r : Scene.groupRef g1 = Some (r0 + 0.5)).
  { unfold g1, Scene.handlePointerMove, Scene.handlePointerDown; simpl.
    rewrite Hr0. f_equal. lra. }
  assert (H1v : Scene.velocity g1 = 0.5).
  { unfold g1, Scene.handlePointerMove, Scene.handlePointerDown; simpl. lra. }
  assert (H1d : Scene.isDragging g1 = true) by reflexivity.
  split; [exact H1r|]. split; [exact H1v|]. split; [exact H1d|].
  intros ticks Hn k g.
  set (g2 := Scene.handlePointerUp g1) in *.
  assert (H2r : Scene.groupRef g2 = Some (r0 + 0.5)) by exact H1r.
  assert (H2v : Scene.velocity g2 = 0.5) by exact H1v.
  assert (H2d : Scene.isDragging g2 = false) by reflexivity.
  split.
  - intros Hk.
    destruct (inertia_decay (r0 + 0.5) g2 ticks H2r H2d H2v Hn Hk) as (_ & Dv & Dr).
    fold k in Dv, Dr. fold g in Dv, Dr.
    split; [exact Dv|]. split; [exact Dr|]. split.
    + intros Hlt. rewrite Dv.
      pose proof (above_epsilon k ltac:(lia)). rewrite Rabs_right; lra.
    + intros ->. rewrite Dv. pose proof below_epsilon. rewrite Rabs_right; lra.
  - intros Hk.
    assert (Hsplit : ticks = firstn 167 ticks ++ skipn 167 ticks)
      by (symmetry; apply firstn_skipn).
    assert (Hlen : length (firstn 167 ticks) = 167%nat)
      by (apply firstn_length_le; unfold k in Hk; lia).
    destruct (skipn 167 ticks) as [|t rest] eqn:Es.
    { apply (f_equal (@length _)) in Hsplit.
      rewrite length_app, Hlen in Hsplit. simpl in Hsplit. unfold k in Hk. lia. }
    assert (Hn' : noVictory (firstn 167 ticks) /\ noVictory (t :: rest)).
    { unfold noVictory in *. rewrite Hsplit in Hn. apply Forall_app in Hn. exact Hn. }
    destruct Hn' as [Hn1 Hn2]. apply Forall_cons_iff in Hn2 as [Ht Hn2].
    destruct (inertia_decay (r0 + 0.5) g2 (firstn 167 ticks) H2r H2d H2v Hn1
                ltac:(lia)) as (Dd & Dv & Dr).
    rewrite Hlen in Dv, Dr.
    assert (Ha : Rabs (0.5 * 0.95 ^ 167) <= 0.0001).
    { pose proof below_epsilon. rewrite Rabs_right; lra. }
    destruct (inertia_clamp _ _ t _ Dr Dd Dv Ha Ht) as (Cd & Cv & Cr).
    destruct (inertia_rest _ rest Hn2 _ Cr Cd Cv) as (_ & Rv & Rr).
    unfold g. rewrite Hsplit, frames_app.
    change (Scene.frames (t :: rest) ?x)
      with (Scene.frames rest (Scene.useFrame (fst t) (snd t) x)).
    split; [exact Rv|exact Rr].
Qed.

(** C9 at a concrete drag: from rest, three idle ticks after release
    leave the velocity at 0.5 * 0.95^3; 200 idle ticks leave it at 0. *)
Lemma C9_drag_inertia_witness :
  let g1 := Scene.handlePointerMove (40 + 100) (Scene.handlePointerDown 40 atRest) in
  Scene.groupRef g1 = Some (0 + 0.5)
  /\ Scene.velocity (Scene.frames (idleTicks 3) (Scene.handlePointerUp g1)) = 0.5 * 0.95 ^ 3
  /\ Scene.velocity (Scene.frames (idleTicks 200) (Scene.handlePointerUp g1)) = 0.
Proof.
  destruct (C9_drag_inertia atRest 0 40 eq_refl) as (Hr & _ & _ & Hrun).
  split; [exact Hr|]. split.
  - destruct (Hrun (idleTicks 3) (noVictory_idleTicks 3)) as [Hlow _].
    destruct Hlow as (Hv & _); [simpl; lia|]. exact Hv.
  - destruct (Hrun (idleTicks 200) (noVictory_idleTicks 200)) as [_ Hhigh].
    destruct Hhigh as (Hv & _); [unfold idleTicks; rewrite repeat_length; lia|].
    exact Hv.
Defined.

(** ** The ornament mix *)

Section Mix.

Import Ornaments.

Lemma useFrame_rule (m : TreeMode) (w dt mix : R) :
  useFrame m w dt mix =
    mix + (targetLerp m - mix) * dt * (2 * (1 - w * 0.5)).
Proof. unfold useFrame, lerp, physicsSpeed. ring. Qed.

(** Toward CHAOS from 0 the mix after [n] ticks is [1 - (1 - a)^n],
    [a] the step [delta * physicsSpeed weight]. *)
Lemma ticks_closed (w dt : R) (n : nat) :
  ticks n CHAOS w dt 0 = 1 - (1 - dt * physicsSpeed w) ^ n.
Proof.
  induction n as [|n IH]; cbn [ticks pow].
  - ring.
  - rewrite IH. unfold useFrame, lerp. change (targetLerp CHAOS) with 1. ring.
Qed.

Lemma exp_mult_nat (x : R) (n : nat) : exp (INR n * x) = exp x ^ n.
Proof.
  induction n as [|n IH].
  - simpl. rewrite Rmult_0_l. apply exp_0.
  - rewrite S_INR, Rmult_plus_distr_r, Rmult_1_l, exp_plus, IH. simpl. ring.
Qed.

Lemma exp_10_lower : 1024 <= exp 10.
Proof.
  replace 10 with (INR 10 * 1) by (rewrite INR_IZR_INZ; simpl; lra).
  rewrite exp_mult_nat.
  pose proof (exp_ineq1_le 1) as H.
  apply Rle_trans with (2 ^ 10); [lra|].
  apply pow_incr. lra.
Qed.

Lemma exp_le (x y : R) : x <= y -> exp x <= exp y.
Proof.
  intros [H | ->]; [left; apply exp_increasing; exact H | right; reflexivity].
Qed.

(** After [n] steps of size [a] with [n * a >= 10] what is left of the
    distance is below 1/1024. *)
Lemma residual_small (a : R) (n : nat) :
  0 < a <= 1 -> 10 <= INR n * a -> (1 - a) ^ n <= 0.001.
Proof.
  intros Ha Hn.
  apply Rle_trans with (exp (- a) ^ n).
  - apply pow_incr. split; [lra|].
    pose proof (exp_ineq1_le (- a)). lra.
  - rewrite <- exp_mult_nat.
    replace (INR n * - a) with (- (INR n * a)) by ring.
    rewrite exp_Ropp. pose proof exp_10_lower as H.
    assert (exp 10 <= exp (INR n * a)) by (apply exp_le; exact Hn).
    apply Rle_trans with (/ 1024); [|lra].
    apply Rinv_le_contravar; lra.
Qed.

End Mix.

(** C8: each tick the ornament mix is updated by
    mix += (target - mix) * delta * rate with rate = 2 * (1 - weight * 0.5),
    the target being 1 in CHAOS and 0 otherwise.  From mix = 0 toward
    target 1, with a fixed delta such that 0 < delta * rate <= 1, the
    mix after n ticks is 1 - (1 - delta * rate)^n: it never decreases,
    never passes 1, and is within 1e-3 of 1 as soon as
    n * delta * rate >= 10, a number of ticks inversely proportional to
    the rate.  A heavier ornament has the smaller rate and, tick for
    tick, the smaller mix. *)
Theorem C8_mix_update_converges :
  (forall (m : TreeMode) (w dt mix : R),
     Ornaments.useFrame m w dt mix =
       mix + (Ornaments.targetLerp m - mix) * dt * (2 * (1 - w * 0.5)))
  /\ Ornaments.targetLerp CHAOS = 1
  /\ Ornaments.targetLerp FORMED = 0
  /\ Ornaments.targetLerp GRID = 0
  /\ forall w dt : R,
       let rate := 2 * (1 - w * 0.5) in
       let mix := fun n => Ornaments.ticks n CHAOS w dt 0 in
       0 < dt * rate <= 1 ->
       (forall n : nat, mix n = 1 - (1 - dt * rate) ^ n)
       /\ (forall n : nat, 0 <= mix n /\ mix n <= mix (S n) /\ mix (S n) <= 1)
       /\ (forall n : nat, 10 <= INR n * (dt * rate) -> Rabs (1 - mix n) <= 0.001)
       /\ (forall w' : R, 0 < dt -> w <= w' ->
             2 * (1 - w' * 0.5) <= rate
             /\ forall n : nat, Ornaments.ticks n CHAOS w' dt 0 <= mix n).
Proof.
  split; [exact useFrame_rule|].
  split; [reflexivity|]. split; [reflexivity|]. split; [reflexivity|].
  intros w dt rate mix Ha.
  assert (Hc : forall n, mix n = 1 - (1 - dt * rate) ^ n).
  { intros n. unfold mix. rewrite ticks_closed. unfold Ornaments.physicsSpeed, rate.
    reflexivity. }
  set (a := dt * rate) in *.
  assert (Hp : forall n, 0 <= (1 - a) ^ n <= 1).
  { intros n. split; [apply pow_le; lra|].
    apply Rle_trans with (1 ^ n); [apply pow_incr; lra|rewrite pow1; lra]. }
  split; [exact Hc|]. split; [|split].
  - intros n. rewrite !Hc. simpl. pose proof (Hp n) as [H0 H1].
    assert (0 <= (1 - a) * (1 - a) ^ n) by (apply Rmult_le_pos; lra).
    assert ((1 - a) * (1 - a) ^ n <= 1 * (1 - a) ^ n)
      by (apply Rmult_le_compat_r; lra).
    lra.
  - intros n Hn. rewrite Hc.
    replace (1 - (1 - (1 - a) ^ n)) with ((1 - a) ^ n) by ring.
    rewrite Rabs_right by (apply Rle_ge; apply Hp).
    apply residual_small; assumption.
  - intros w' Hdt Hw. split; [unfold rate; lra|].
    intros n. rewrite Hc, ticks_closed.
    assert (1 - a <= 1 - dt * Ornaments.physicsSpeed w').
    { unfold a, rate, Ornaments.physicsSpeed.
      assert (dt * (w * 0.5) <= dt * (w' * 0.5))
        by (apply Rmult_le_compat_l; lra).
      lra. }
    assert ((1 - a) ^ n <= (1 - dt * Ornaments.physicsSpeed w') ^ n)
      by (apply pow_incr; lra).
    lra.
Qed.

(** C8 at 60 frames a second: a gold ball (weight 0.2, step 0.03) is
    within 1e-3 of 1 after 334 ticks, and a gift box (weight 0.8) is
    never ahead of it. *)
Lemma C8_mix_update_converges_witness :
  Rabs (1 - Ornaments.ticks 334 CHAOS 0.2 (1 / 60) 0) <= 0.001
  /\ Ornaments.ticks 334 CHAOS 0.8 (1 / 60) 0 <= Ornaments.ticks 334 CHAOS 0.2 (1 / 60) 0
  /\ Ornaments.ticks 3 CHAOS 0.2 (1 / 60) 0 <= Ornaments.ticks 4 CHAOS 0.2 (1 / 60) 0.
Proof.
  destruct C8_mix_update_converges as (_ & _ & _ & _ & H).
  destruct (H 0.2 (1 / 60)) as (_ & Hmono & Hnear & Hheavy); [lra|].
  split; [|split].
  - apply Hnear. rewrite INR_IZR_INZ. simpl. lra.
  - apply Hheavy; lra.
  - apply (Hmono 3%nat).
Defined.

(** ** The ornament layout *)

Section Layout.

Import Scene.

Lemma distanceTo_sym (a b : Vector3) : distanceTo a b = distanceTo b a.
Proof. unfold distanceTo, distanceToSquared. f_equal. ring. Qed.

Lemma apart_sym (p q : Occupied) : apart p q -> apart q p.
Proof. unfold apart. rewrite (distanceTo_sym (pos q)). lra. Qed.

(** What the collision loop decides. *)
Lemma collision_false (p : Vector3) (r : R) (occ : list Occupied) :
  collision p r occ = false <->
  Forall (fun other => distanceTo p (pos other) >= r + radius other) occ.
Proof.
  induction occ as [|o occ IH]; simpl.
  - split; auto.
  - unfold Rltb. destruct (Rlt_dec (distanceTo p (pos o)) (r + radius o)) as [Hlt|Hge].
    + split; [discriminate|]. intros H. apply Forall_cons_iff in H as [H _]. lra.
    + rewrite IH. split.
      * intros H. constructor; [lra|exact H].
      * intros H. apply Forall_cons_iff in H as [_ H]. exact H.
Qed.

Lemma sep_snoc (occ : list Occupied) (x : Occupied) :
  sep occ -> Forall (fun o => apart o x) occ -> sep (occ ++ [x]).
Proof.
  unfold sep. induction 1 as [|a l Ha Hl IH]; intros Hx; simpl.
  - constructor; constructor.
  - apply Forall_cons_iff in Hx as [Hax Hx]. constructor.
    + apply Forall_app. split; [exact Ha|]. constructor; [exact Hax|constructor].
    + apply IH. exact Hx.
Qed.

Lemma sep_push (occ : list Occupied) (p : Vector3) (r : R) :
  sep occ -> collision p r occ = false ->
  sep (occ ++ [ {| pos := p; radius := r |} ]).
Proof.
  intros Hs Hc. apply sep_snoc; [exact Hs|].
  apply collision_false in Hc. revert Hc. apply Forall_impl.
  intros o Ho. unfold apart. cbn [pos radius].
  rewrite distanceTo_sym. lra.
Qed.

Lemma sep_ordered (occ : list Occupied) :
  sep occ ->
  forall (i j : nat) (p q : Occupied),
    (i < j)%nat -> nth_error occ i = Some p -> nth_error occ j = Some q -> apart p q.
Proof.
  unfold sep. induction 1 as [|a l Ha Hl IH]; intros i j p q Hij Hi Hj.
  - destruct i; discriminate.
  - destruct j as [|j]; [lia|]. simpl in Hj. destruct i as [|i]; simpl in Hi.
    + injection Hi as <-. apply nth_error_In in Hj.
      rewrite Forall_forall in Ha. apply Ha. exact Hj.
    + apply (IH i j); [lia|exact Hi|exact Hj].
Qed.

Lemma sep_separated (occ : list Occupied) : sep occ -> separated occ.
Proof.
  intros Hs i j p q Hij Hi Hj.
  destruct (Nat.lt_total i j) as [H | [H | H]]; [|contradiction|].
  - apply (sep_ordered occ Hs i j); assumption.
  - apply apart_sym. apply (sep_ordered occ Hs j i); assumption.
Qed.

Variable rnd : nat -> R.

Lemma candidate_run (n : nat) : candidate rnd n = (cand rnd n, S (S n)).
Proof. reflexivity. Qed.

Lemma tryPlace_S (left : nat) (r : R) (occ : list Occupied) (n : nat) :
  tryPlace rnd (S left) r occ n =
    if collision (cand rnd n) r occ then tryPlace rnd left r occ (S (S n))
    else (Some (cand rnd n), S (S n)).
Proof.
  cbn [tryPlace]. unfold bind at 1. rewrite candidate_run.
  destruct (collision (cand rnd n) r occ); reflexivity.
Qed.

(** The attempt loop: either attempt [a] is the first whose candidate
    is clear of every record, or all [left] candidates collide. *)
Lemma tryPlace_spec (r : R) (occ : list Occupied) (left n : nat) :
  match tryPlace rnd left r occ n with
  | (Some p, n') =>
      exists a : nat,
        (a < left)%nat /\ n' = (n + 2 * S a)%nat /\ p = cand rnd (n + 2 * a)
        /\ collision p r occ = false
        /\ forall b : nat, (b < a)%nat -> collision (cand rnd (n + 2 * b)) r occ = true
  | (None, n') =>
      n' = (n + 2 * left)%nat
      /\ forall b : nat, (b < left)%nat -> collision (cand rnd (n + 2 * b)) r occ = true
  end.
Proof.
  revert n. induction left as [|left IH]; intros n.
  - simpl. split; [lia|]. intros b Hb. lia.
  - rewrite tryPlace_S.
    destruct (collision (cand rnd n) r occ) eqn:Ec.
    + specialize (IH (S (S n))).
      destruct (tryPlace rnd left r occ (S (S n))) as [[p|] n'].
      * destruct IH as (a & Ha & Hn & Hp & Hc & Hb).
        exists (S a). split; [lia|]. split; [lia|].
        split; [rewrite Hp; f_equal; lia|]. split; [exact Hc|].
        intros b Hlt. destruct b as [|b].
        -- rewrite Nat.mul_0_r, Nat.add_0_r. exact Ec.
        -- replace (n + 2 * S b)%nat with (S (S n) + 2 * b)%nat by lia.
           apply Hb. lia.
      * destruct IH as (Hn & Hb). split; [lia|].
        intros b Hlt. destruct b as [|b].
        -- rewrite Nat.mul_0_r, Nat.add_0_r. exact Ec.
        -- replace (n + 2 * S b)%nat with (S (S n) + 2 * b)%nat by lia.
           apply Hb. lia.
    + exists 0%nat. rewrite Nat.mul_0_r, Nat.add_0_r.
      split; [lia|]. split; [lia|]. split; [reflexivity|]. split; [exact Ec|].
      intros b Hb. lia.
Qed.

Lemma placeOne_eq (r : R) (occ : list Occupied) (g : Group) (n : nat) :
  placeOne rnd r (occ, g) n =
    match tryPlace rnd ATTEMPTS r occ n with
    | (Some p, n') =>
        ((occ ++ [ {| pos := p; radius := r |} ],
          {| targetPositions := targetPositions g ++ [p];
             chaosPositions := chaosPositions g ++ [fst (chaosPosition rnd n')];
             randomRotations :=
               randomRotations g ++ [fst (randomRotation rnd (n' + 3)%nat)] |}),
         (n' + 5)%nat)
    | (None, n') => ((occ, g), n')
    end.
Proof.
  unfold placeOne. unfold bind at 1.
  destruct (tryPlace rnd ATTEMPTS r occ n) as [[p|] n']; [|reflexivity].
  unfold bind, chaosPosition, randomRotation, random, ret; simpl.
  replace (S (S (S n'))) with (n' + 3)%nat by lia.
  replace (S (S (n' + 3))) with (n' + 5)%nat by lia.
  reflexivity.
Qed.

(** One entity: placed at the first clear candidate among the 100
    attempts, or dropped when all 100 collide. *)
Lemma placeOne_spec (r : R) (occ : list Occupied) (g : Group) (n : nat) :
  let res := fst (placeOne rnd r (occ, g) n) in
  (exists (a : nat) (p : Vector3),
     (a < ATTEMPTS)%nat
     /\ (forall b : nat, (b < a)%nat -> collision (cand rnd (n + 2 * b)) r occ = true)
     /\ p = cand rnd (n + 2 * a)
     /\ collision p r occ = false
     /\ fst res = occ ++ [ {| pos := p; radius := r |} ]
     /\ targetPositions (snd res) = targetPositions g ++ [p])
  \/ ((forall b : nat, (b < ATTEMPTS)%nat ->
         collision (cand rnd (n + 2 * b)) r occ = true)
      /\ res = (occ, g)).
Proof.
  cbv zeta. rewrite placeOne_eq.
  pose proof (tryPlace_spec r occ ATTEMPTS n) as H.
  destruct (tryPlace rnd ATTEMPTS r occ n) as [[p|] n'].
  - destruct H as (a & Ha & _ & Hp & Hc & Hb).
    left. exists a, p. cbn [fst snd targetPositions]. auto 10.
  - destruct H as (_ & Hb). right. split; [exact Hb|reflexivity].
Qed.

Lemma placeOne_inv (r : R) (occ0 occ : list Occupied) (g : Group) (n : nat) :
  sep occ ->
  occ = occ0 ++ map (fun p => {| pos := p; radius := r |}) (targetPositions g) ->
  let res := fst (placeOne rnd r (occ, g) n) in
  sep (fst res)
  /\ fst res = occ0 ++ map (fun p => {| pos := p; radius := r |}) (targetPositions (snd res))
  /\ (length (targetPositions (snd res)) <= S (length (targetPositions g)))%nat.
Proof.
  intros Hs Ho res.
  destruct (placeOne_spec r occ g n) as [(a & p & _ & _ & _ & Hc & Hocc & Ht) | (_ & E)];
    fold res in Hocc, Ht || fold res in E.
  - rewrite Hocc, Ht. split; [apply sep_push; assumption|]. split.
    + rewrite map_app, app_assoc, <- Ho. reflexivity.
    + rewrite length_app. simpl. lia.
  - rewrite E. cbn [fst snd]. split; [exact Hs|]. split; [exact Ho|lia].
Qed.

Lemma placeMany_S (k : nat) (r : R) (st : list Occupied * Group) (n : nat) :
  placeMany rnd (S k) r st n =
    placeMany rnd k r (fst (placeOne rnd r st n)) (snd (placeOne rnd r st n)).
Proof.
  cbn [placeMany]. unfold bind at 1.
  destruct (placeOne rnd r st n) as [st' n']. reflexivity.
Qed.

Lemma placeMany_add (a b : nat) (r : R) :
  forall (st : list Occupied * Group) (n : nat),
    placeMany rnd (a + b) r st n =
      placeMany rnd b r (fst (placeMany rnd a r st n)) (snd (placeMany rnd a r st n)).
Proof.
  induction a as [|a IH]; intros st n.
  - reflexivity.
  - change (S a + b)%nat with (S (a + b)).
    rewrite !placeMany_S. apply IH.
Qed.

Lemma placeMany_inv (r : R) (occ0 : list Occupied) (k : nat) :
  forall (occ : list Occupied) (g : Group) (n : nat),
    sep occ ->
    occ = occ0 ++ map (fun p => {| pos := p; radius := r |}) (targetPositions g) ->
    let res := fst (placeMany rnd k r (occ, g) n) in
    sep (fst res)
    /\ fst res = occ0 ++ map (fun p => {| pos := p; radius := r |}) (targetPositions (snd res))
    /\ (length (targetPositions (snd res)) <= length (targetPositions g) + k)%nat.
Proof.
  induction k as [|k IH]; intros occ g n Hs Ho.
  - simpl. split; [exact Hs|]. split; [exact Ho|lia].
  - cbv zeta. rewrite placeMany_S.
    destruct (placeOne_inv r occ0 occ g n Hs Ho) as (Hs1 & Ho1 & Hl1).
    destruct (fst (placeOne rnd r (occ, g) n)) as [occ1 g1].
    cbn [fst snd] in Hs1, Ho1, Hl1.
    destruct (IH occ1 g1 (snd (placeOne rnd r (occ, g) n)) Hs1 Ho1) as (Hs2 & Ho2 & Hl2).
    split; [exact Hs2|]. split; [exact Ho2|lia].
Qed.

Lemma placeConfig_eq (config : Config) (occ : list Occupied)
    (groups : list (string * Group)) (n : nat) :
  placeConfig rnd config (occ, groups) n =
    let r := placeMany rnd (count config) (scale config * 1.1)
               (occ, {| targetPositions := []; chaosPositions := [];
                        randomRotations := [] |}) n in
    ((fst (fst r), groups ++ [(id config, snd (fst r))]), snd r).
Proof.
  unfold placeConfig, bind, ret.
  destruct (placeMany rnd _ _ _ n) as [[occ' g'] n']. reflexivity.
Qed.

Lemma placeConfig_spec (config : Config) (occ : list Occupied)
    (groups : list (string * Group)) (n : nat) :
  sep occ ->
  let res := fst (placeConfig rnd config (occ, groups) n) in
  exists g : Group,
    snd res = groups ++ [(id config, g)]
    /\ fst res = occ ++ records config g
    /\ sep (fst res)
    /\ (length (targetPositions g) <= count config)%nat.
Proof.
  intros Hs. cbv zeta. rewrite placeConfig_eq. cbv zeta.
  pose proof (placeMany_inv (scale config * 1.1) occ (count config) occ
                {| targetPositions := []; chaosPositions := []; randomRotations := [] |}
                n Hs) as H.
  cbn [targetPositions map] in H. rewrite app_nil_r in H. specialize (H eq_refl).
  cbv zeta in H. destruct H as (Hs' & Ho' & Hl').
  eexists. cbn [fst snd]. unfold records.
  split; [reflexivity|]. split; [exact Ho'|]. split; [exact Hs'|exact Hl'].
Qed.

Lemma forEach_cons (config : Config) (rest : list Config)
    (st : list Occupied * list (string * Group)) (n : nat) :
  forEach rnd (config :: rest) st n =
    forEach rnd rest (fst (placeConfig rnd config st n))
                     (snd (placeConfig rnd config st n)).
Proof.
  cbn [forEach]. unfold bind at 1.
  destruct (placeConfig rnd config st n) as [st' n']. reflexivity.
Qed.

Lemma forEach_spec (cs : list Config) :
  forall (occ : list Occupied) (groups : list (string * Group)) (n : nat),
    sep occ ->
    let res := fst (forEach rnd cs (occ, groups) n) in
    exists gs : list Group,
      snd res = groups ++ combine (map id cs) gs
      /\ fst res = occ ++ flat_map (fun cg => records (fst cg) (snd cg)) (combine cs gs)
      /\ sep (fst res)
      /\ Forall2 (fun c g => (length (targetPositions g) <= count c)%nat) cs gs.
Proof.
  induction cs as [|config rest IH]; intros occ groups n Hs.
  - exists []. simpl. rewrite !app_nil_r. auto.
  - cbv zeta. rewrite forEach_cons.
    destruct (placeConfig_spec config occ groups n Hs) as (g & Hg & Ho & Hs1 & Hl).
    destruct (fst (placeConfig rnd config (occ, groups) n)) as [occ1 groups1].
    cbn [fst snd] in Hg, Ho, Hs1.
    destruct (IH occ1 groups1 (snd (placeConfig rnd config (occ, groups) n)) Hs1)
      as (gs & Hgs & Hos & Hss & Hls).
    exists (g :: gs). cbn [map combine flat_map fst snd].
    split; [rewrite Hgs, Hg, <- app_assoc; reflexivity|].
    split; [rewrite Hos, Ho, <- app_assoc; reflexivity|].
    split; [exact Hss|]. constructor; assumption.
Qed.

End Layout.

(** C6: whatever the random source draws, the layout generator run
    over the four categories in order (gold, red, silver, box) returns
    one group per category, none longer than the requested count; its
    occupancy list is the formed positions of all groups in that order,
    each with radius its category scale times 1.1; and every two
    entries of it, of the same or of different categories, are at
    distance at least the sum of their radii.  An entity is placed at
    the first of its 100 candidates that is clear of every entry so
    far; when all 100 collide it is dropped and nothing is recorded. *)
Theorem C6_layout_never_overlaps : forall rnd : nat -> R,
  (exists gs : list Scene.Group,
     Scene.ornamentGroups rnd = combine (map Scene.id Scene.configs) gs
     /\ fst (Scene.generate rnd) =
          flat_map (fun cg => records (fst cg) (snd cg)) (combine Scene.configs gs)
     /\ Forall2 (fun c g =>
                   (length (Scene.targetPositions g) <= Scene.count c)%nat)
                Scene.configs gs)
  /\ separated (fst (Scene.generate rnd))
  /\ forall (r : R) (occ : list Scene.Occupied) (g : Scene.Group) (n : nat),
       let res := fst (Scene.placeOne rnd r (occ, g) n) in
       (exists (a : nat) (p : Vector3),
          (a < 100)%nat
          /\ (forall b : nat, (b < a)%nat ->
                Scene.collision (cand rnd (n + 2 * b)) r occ = true)
          /\ p = cand rnd (n + 2 * a)
          /\ Scene.collision p r occ = false
          /\ fst res = occ ++ [ {| Scene.pos := p; Scene.radius := r |} ]
          /\ Scene.targetPositions (snd res) = Scene.targetPositions g ++ [p])
       \/ ((forall b : nat, (b < 100)%nat ->
              Scene.collision (cand rnd (n + 2 * b)) r occ = true)
           /\ res = (occ, g)).
Proof.
  intros rnd.
  assert (H0 : sep []) by constructor.
  destruct (forEach_spec rnd Scene.configs [] [] 0%nat H0) as (gs & Hg & Ho & Hs & Hl).
  split; [|split].
  - exists gs. unfold Scene.ornamentGroups, Scene.generate.
    split; [exact Hg|]. split; [exact Ho|exact Hl].
  - apply sep_separated. exact Hs.
  - intros r occ g n. apply placeOne_spec.
Qed.

(** *** A run that fills one category short

    With the draws [twoSpots] the first gold ball lands on [spotA], the
    second on [spotB], and every later candidate is [spotB] again. *)

Section ShortRun.

Import Scene.

Lemma twoSpots_late (n : nat) : (7 <= n)%nat -> twoSpots n = 1 / 2.
Proof.
  intros H. unfold twoSpots.
  destruct (n <? 7)%nat eqn:E; [apply Nat.ltb_lt in E; lia|reflexivity].
Qed.

Lemma cand_first : cand twoSpots 0 = spotA.
Proof.
  unfold cand, candidate, bind, random, ret, spotA; cbn [fst].
  change (twoSpots 0) with 0. change (twoSpots 1) with 0.
  unfold TREE_RADIUS, TREE_HEIGHT.
  replace (0 * PI * 2) with 0 by ring. rewrite cos_0, sin_0.
  f_equal; lra.
Qed.

Lemma cand_late (n : nat) : (7 <= n)%nat -> cand twoSpots n = spotB.
Proof.
  intros H.
  unfold cand, candidate, bind, random, ret, spotB; cbn [fst].
  rewrite (twoSpots_late n), (twoSpots_late (S n)) by lia.
  unfold TREE_RADIUS, TREE_HEIGHT.
  replace (1 / 2 * PI * 2) with PI by field. rewrite cos_PI, sin_PI.
  f_equal; lra.
Qed.

Lemma collision_hit (p : Vector3) (r : R) (o : Occupied) (occ : list Occupied) :
  In o occ -> distanceTo p (pos o) < r + radius o -> collision p r occ = true.
Proof.
  intros Hin Hlt. destruct (collision p r occ) eqn:E; [reflexivity|].
  apply collision_false in E. rewrite Forall_forall in E.
  specialize (E o Hin). lra.
Qed.

Lemma distanceTo_self (p : Vector3) : distanceTo p p = 0.
Proof.
  unfold distanceTo, distanceToSquared.
  replace (_ + _ + _) with 0 by ring. apply sqrt_0.
Qed.

Lemma distanceTo_spots : distanceTo spotB spotA >= goldRadius + goldRadius.
Proof.
  unfold distanceTo, distanceToSquared, spotA, spotB, goldRadius; cbn [v_x v_y v_z].
  apply Rle_ge. rewrite <- (sqrt_square (0.35 * 1.1 + 0.35 * 1.1)) by lra.
  apply sqrt_le_1; lra.
Qed.

(** Once [spotB] is occupied, no candidate from draw 7 on is clear. *)
Lemma stuck_tryPlace (r r0 : R) (occ : list Occupied) :
  In {| pos := spotB; radius := r0 |} occ -> 0 < r + r0 ->
  forall left n : nat,
    (7 <= n)%nat -> tryPlace twoSpots left r occ n = (None, (n + 2 * left)%nat).
Proof.
  intros Hin Hr. induction left as [|left IH]; intros n Hn.
  - simpl. unfold ret. f_equal. lia.
  - rewrite tryPlace_S, cand_late by exact Hn.
    rewrite (collision_hit spotB r _ occ Hin)
      by (cbn [pos radius]; rewrite distanceTo_self; exact Hr).
    rewrite IH by lia. f_equal. lia.
Qed.

Lemma stuck_placeMany (r r0 : R) (occ : list Occupied) (g : Group) :
  In {| pos := spotB; radius := r0 |} occ -> 0 < r + r0 ->
  forall k n : nat,
    (7 <= n)%nat ->
    placeMany twoSpots k r (occ, g) n = ((occ, g), (n + 2 * ATTEMPTS * k)%nat).
Proof.
  intros Hin Hr. induction k as [|k IH]; intros n Hn.
  - simpl. unfold ret. f_equal. lia.
  - rewrite placeMany_S, placeOne_eq.
    rewrite (stuck_tryPlace r r0 occ Hin Hr ATTEMPTS n Hn). cbn [fst snd].
    rewrite IH by lia. f_equal. lia.
Qed.

(** The two gold balls that are placed. *)
Lemma first_two_placed :
  exists c1 c2 e1 e2,
    placeMany twoSpots 2 goldRadius ([], emptyGroup) 0%nat =
      (([ {| pos := spotA; radius := goldRadius |};
          {| pos := spotB; radius := goldRadius |} ],
        {| targetPositions := [spotA; spotB];
           chaosPositions := [c1; c2];
           randomRotations := [e1; e2] |}), 14%nat).
Proof.
  do 4 eexists.
  rewrite placeMany_S, placeOne_eq.
  unfold ATTEMPTS. rewrite tryPlace_S, cand_first. cbn [collision fst snd app].
  rewrite placeMany_S, placeOne_eq.
  unfold ATTEMPTS. rewrite tryPlace_S, cand_late by lia.
  replace (collision spotB goldRadius _) with false.
  - cbn [fst snd app placeMany targetPositions chaosPositions randomRotations].
    unfold ret. reflexivity.
  - symmetry. apply collision_false. constructor; [|constructor].
    cbn [pos radius]. apply distanceTo_spots.
Qed.

(** The side conditions of [stuck_placeMany] on a concrete state. *)
Ltac stuck_side :=
  first [ lia | solve [unfold goldRadius; lra] | solve [simpl; auto] ].

Lemma generate_twoSpots :
  exists g : Group,
    targetPositions g = [spotA; spotB]
    /\ generate twoSpots =
         ([ {| pos := spotA; radius := goldRadius |};
            {| pos := spotB; radius := goldRadius |} ],
          [ ("gold"%string, g); ("red"%string, emptyGroup);
            ("silver"%string, emptyGroup); ("box"%string, emptyGroup) ]).
Proof.
  destruct first_two_placed as (c1 & c2 & e1 & e2 & E2).
  eexists. split; [|].
  2:{ unfold generate, configs.
      rewrite forEach_cons, placeConfig_eq. cbv zeta. cbn [count scale id].
      rewrite (placeMany_add twoSpots 2 248 (0.35 * 1.1)).
      fold goldRadius. fold emptyGroup. rewrite E2. cbn [fst snd].
      rewrite (stuck_placeMany goldRadius goldRadius)
        by stuck_side.
      cbn [fst snd app].
      rewrite forEach_cons, placeConfig_eq. cbv zeta. cbn [count scale id].
      fold emptyGroup.
      rewrite (stuck_placeMany (0.3 * 1.1) goldRadius)
        by stuck_side.
      cbn [fst snd app].
      rewrite forEach_cons, placeConfig_eq. cbv zeta. cbn [count scale id].
      fold emptyGroup.
      rewrite (stuck_placeMany (0.2 * 1.1) goldRadius)
        by stuck_side.
      cbn [fst snd app].
      rewrite forEach_cons, placeConfig_eq. cbv zeta. cbn [count scale id].
      fold emptyGroup.
      rewrite (stuck_placeMany (0.6 * 1.1) goldRadius)
        by stuck_side.
      cbn [fst snd app forEach]. unfold ret. cbn [fst]. reflexivity. }
  reflexivity.
Qed.

End ShortRun.

(** C6 on the run [twoSpots]: the two gold balls placed are at least
    two gold radii apart, and the gold category, asked for 250, holds 2. *)
Lemma C6_layout_never_overlaps_witness :
  distanceTo spotA spotB >= goldRadius + goldRadius
  /\ exists g : Scene.Group,
       In ("gold"%string, g) (Scene.ornamentGroups twoSpots)
       /\ length (Scene.targetPositions g) = 2%nat.
Proof.
  destruct generate_twoSpots as (g & Hg & E).
  split.
  - destruct (C6_layout_never_overlaps twoSpots) as (_ & Hsep & _).
    rewrite E in Hsep. cbn [fst] in Hsep.
    apply (Hsep 0%nat 1%nat
             {| Scene.pos := spotA; Scene.radius := goldRadius |}
             {| Scene.pos := spotB; Scene.radius := goldRadius |});
      [lia|reflexivity|reflexivity].
  - exists g. unfold Scene.ornamentGroups. rewrite E. cbn [snd].
    split; [left; reflexivity|rewrite Hg; reflexivity].
Defined.

(** * Further properties of the code *)

(** ** The store *)

(** X1: the manual toggle never leaves the store in GRID; pressed twice
    it restores FORMED and CHAOS, and from GRID it ends in CHAOS. *)
Theorem X1_toggle_twice : forall s : AppState,
  mode (toggleMode s) <> GRID
  /\ (mode s <> GRID -> mode (toggleMode (toggleMode s)) = mode s)
  /\ (mode s = GRID -> mode (toggleMode (toggleMode s)) = CHAOS).
Proof.
  intros s. unfold toggleMode; cbn [mode].
  destruct (mode s); cbn; (split; [discriminate|]); split; intros H;
    try reflexivity; try discriminate H; exfalso; apply H; reflexivity.
Qed.

Lemma X1_toggle_twice_witness :
  mode (toggleMode (toggleMode useStore)) = FORMED
  /\ mode (toggleMode (toggleMode pinched)) = CHAOS.
Proof.
  split.
  - destruct (X1_toggle_twice useStore) as (_ & H & _).
    apply H. simpl. discriminate.
  - destruct (X1_toggle_twice pinched) as (_ & _ & H).
    apply H. reflexivity.
Defined.

(** X2: a hand-state update that changes the mode was a detected OPEN,
    FIST or PINCH, and the new mode is the one of that gesture; no other
    update of the hand state moves the mode. *)
Theorem X2_mode_change_has_a_gesture :
  forall (partial : PartialHandState) (s : AppState),
    let s' := setHandState partial s in
    mode s' <> mode s ->
    detected (handState s') = true
    /\ ((gesture (handState s') = OPEN /\ mode s' = CHAOS)
        \/ (gesture (handState s') = FIST /\ mode s' = FORMED)
        \/ (gesture (handState s') = PINCH /\ mode s' = GRID)).
Proof.
  intros partial s. cbv zeta. unfold setHandState, gestureMode.
  cbn [mode handState]. set (h := spread (handState s) partial).
  destruct (detected h); [|intros H; exfalso; apply H; reflexivity].
  destruct (gesture h); intros H; split; auto;
    exfalso; apply H; reflexivity.
Qed.

Lemma X2_mode_change_has_a_gesture_witness :
  gesture (handState pinched) = PINCH /\ mode pinched = GRID.
Proof.
  destruct (X2_mode_change_has_a_gesture
              {| p_detected := Some true; p_gesture := Some PINCH;
                 p_position := None; p_landmarks := None |} useStore)
    as (_ & [[H _] | [[H _] | H]]).
  - simpl. discriminate.
  - discriminate H.
  - discriminate H.
  - exact H.
Defined.

(** X3: a hand-state update is idempotent: writing the same partial
    state twice leaves the store as after the first write. *)
Theorem X3_setHandState_idempotent :
  forall (partial : PartialHandState) (s : AppState),
    setHandState partial (setHandState partial s) = setHandState partial s.
Proof.
  intros partial s. unfold setHandState; simpl.
  assert (E : spread (spread (handState s) partial) partial = spread (handState s) partial).
  { unfold spread; simpl.
    destruct (p_detected partial), (p_gesture partial), (p_position partial),
      (p_landmarks partial); reflexivity. }
  rewrite E. f_equal.
  unfold gestureMode. destruct (detected _); [|reflexivity].
  destruct (gesture _); reflexivity.
Qed.

(** ** The photo uploader *)

Section Uploader.

Import PhotoUploader.

Lemma filterIndex_remove {A : Type} (l : list A) :
  forall start i : nat,
    filterIndex (fun idx => negb (idx =? start + i)%nat) start l =
      firstn i l ++ skipn (S i) l.
Proof.
  induction l as [|x l IH]; intros start i.
  - simpl. destruct i; reflexivity.
  - cbn [filterIndex]. destruct i as [|i].
    + rewrite Nat.add_0_r, Nat.eqb_refl. cbn [negb firstn skipn app].
      clear IH. revert start. 
      assert (H : forall k start : nat,
                 filterIndex (fun idx => negb (idx =? start)%nat) (S k + start) l = l).
      { induction l as [|y l IHl]; intros k st; [reflexivity|].
        cbn [filterIndex].
        replace (S k + st =? st)%nat with false by (symmetry; apply Nat.eqb_neq; lia).
        cbn [negb]. f_equal. apply (IHl (S k)). }
      intros start. apply (H 0%nat).
    + replace (start =? start + S i)%nat with false
        by (symmetry; apply Nat.eqb_neq; lia).
      cbn [negb firstn skipn app]. f_equal.
      replace (start + S i)%nat with (S start + i)%nat by lia.
      apply IH.
Qed.

End Uploader.

(** X4: an upload appends the URLs of the first files that still fit,
    in order, keeps the photos already there, and does nothing when the
    picker is empty, cancelled or the collection is full; a collection
    of at most 25 photos stays at most 25. *)
Theorem X4_upload_respects_capacity :
  forall (File : Type) (createObjectURL : File -> string)
         (files : option (list File)) (s : AppState),
    let newFiles := match files with Some l => l | None => [] end in
    let s' := PhotoUploader.handleFileChange File createObjectURL files s in
    photos s' =
      photos s ++ map createObjectURL (firstn (25 - length (photos s)) newFiles)
    /\ mode s' = mode s /\ handState s' = handState s
    /\ ((length (photos s) <= 25)%nat -> (length (photos s') <= 25)%nat)
    /\ ((25 <= length (photos s))%nat -> s' = s).
Proof.
  intros File createObjectURL files s newFiles s'.
  assert (E : photos s' =
              photos s ++ map createObjectURL (firstn (25 - length (photos s)) newFiles)
              /\ mode s' = mode s /\ handState s' = handState s
              /\ ((25 <= length (photos s))%nat -> s' = s)).
  { unfold s', newFiles, PhotoUploader.handleFileChange.
    destruct files as [l|]; [|simpl; rewrite firstn_nil, app_nil_r; auto].
    destruct (0 <? length l)%nat eqn:El.
    - unfold PhotoUploader.MAX_PHOTOS.
      destruct (Z.of_nat 25 - Z.of_nat (length (photos s)) <=? 0)%Z eqn:Er.
      + apply Z.leb_le in Er.
        replace (25 - length (photos s))%nat with 0%nat by lia.
        simpl. rewrite app_nil_r. auto.
      + apply Z.leb_gt in Er.
        replace (Z.to_nat (Z.of_nat 25 - Z.of_nat (length (photos s))))
          with (25 - length (photos s))%nat by lia.
        simpl. repeat split. intros H. lia.
    - apply Nat.ltb_ge in El. destruct l; [|simpl in El; lia].
      rewrite firstn_nil. simpl. rewrite app_nil_r. auto. }
  destruct E as (Ep & Em & Eh & Ef).
  split; [exact Ep|]. split; [exact Em|]. split; [exact Eh|]. split; [|exact Ef].
  intros Hle. rewrite Ep, length_app, length_map, length_firstn. lia.
Qed.

Lemma X4_upload_respects_capacity_witness :
  let s' := PhotoUploader.handleFileChange string urlOf
              (Some ["blob:a"; "blob:b"]%string) useStore in
  photos s' = ["blob:a"; "blob:b"]%string /\ (length (photos s') <= 25)%nat.
Proof.
  destruct (X4_upload_respects_capacity string urlOf
              (Some ["blob:a"; "blob:b"]%string) useStore) as (Hp & _ & _ & Hc & _).
  split.
  - rewrite Hp. reflexivity.
  - apply Hc. simpl. lia.
Defined.

(** X5: removing photo [i] deletes exactly that entry and keeps the
    others in order; its URL is revoked unless it is the empty string;
    an index past the end removes and revokes nothing. *)
Theorem X5_remove_photo :
  forall (i : nat) (s : AppState),
    let revoked := fst (PhotoUploader.handleRemovePhoto i s) in
    let s' := snd (PhotoUploader.handleRemovePhoto i s) in
    photos s' = firstn i (photos s) ++ skipn (S i) (photos s)
    /\ mode s' = mode s /\ handState s' = handState s
    /\ ((i < length (photos s))%nat -> S (length (photos s')) = length (photos s))
    /\ ((length (photos s) <= i)%nat -> photos s' = photos s /\ revoked = [])
    /\ (forall u : string,
          nth_error (photos s) i = Some u ->
          revoked = if PhotoUploader.truthy u then [u] else []).
Proof.
  intros i s. cbv zeta. unfold PhotoUploader.handleRemovePhoto; cbn [fst snd].
  assert (Ep : photos (setPhotos
                 (PhotoUploader.filterIndex (fun idx => negb (idx =? i)%nat) 0 (photos s)) s)
               = firstn i (photos s) ++ skipn (S i) (photos s)).
  { cbn [photos setPhotos]. apply (filterIndex_remove (photos s) 0 i). }
  split; [exact Ep|]. split; [reflexivity|]. split; [reflexivity|].
  split; [|split].
  - intros Hi. rewrite Ep, length_app, length_firstn, length_skipn. lia.
  - intros Hi. split.
    + rewrite Ep, firstn_all2 by exact Hi. rewrite skipn_all2 by lia.
      apply app_nil_r.
    + apply nth_error_None in Hi. rewrite Hi. reflexivity.
  - intros u Hu. rewrite Hu. reflexivity.
Qed.

Lemma X5_remove_photo_witness :
  let s := setPhotos ["blob:a"; "blob:b"; "blob:c"]%string useStore in
  photos (snd (PhotoUploader.handleRemovePhoto 1 s)) = ["blob:a"; "blob:c"]%string
  /\ fst (PhotoUploader.handleRemovePhoto 1 s) = ["blob:b"%string]
  /\ fst (PhotoUploader.handleRemovePhoto 7 s) = [].
Proof.
  cbv zeta.
  set (s := setPhotos ["blob:a"; "blob:b"; "blob:c"]%string useStore).
  destruct (X5_remove_photo 1 s) as (Hp & _ & _ & _ & _ & Hr).
  destruct (X5_remove_photo 7 s) as (_ & _ & _ & _ & Ho & _).
  split; [rewrite Hp; reflexivity|]. split.
  - rewrite (Hr "blob:b"%string); reflexivity.
  - apply Ho. simpl. lia.
Defined.

(** X6: uploading one file into a collection that is not full and then
    removing the last photo gives back the store as it was, and revokes
    the URL just created. *)
Theorem X6_upload_then_remove :
  forall (File : Type) (createObjectURL : File -> string) (f : File) (s : AppState),
    (length (photos s) < 25)%nat ->
    let uploaded := PhotoUploader.handleFileChange File createObjectURL (Some [f]) s in
    photos uploaded = photos s ++ [createObjectURL f]
    /\ snd (PhotoUploader.handleRemovePhoto (length (photos s)) uploaded) = s
    /\ (createObjectURL f <> EmptyString ->
          fst (PhotoUploader.handleRemovePhoto (length (photos s)) uploaded)
            = [createObjectURL f]).
Proof.
  intros File createObjectURL f s Hlt uploaded.
  assert (Eu : uploaded = setPhotos (photos s ++ [createObjectURL f]) s).
  { unfold uploaded, PhotoUploader.handleFileChange, PhotoUploader.MAX_PHOTOS.
    cbn [length Nat.ltb Nat.leb].
    destruct (Z.of_nat 25 - Z.of_nat (length (photos s)) <=? 0)%Z eqn:Er;
      [apply Z.leb_le in Er; lia|].
    apply Z.leb_gt in Er.
    destruct (Z.to_nat (Z.of_nat 25 - Z.of_nat (length (photos s)))) eqn:En; [lia|].
    cbn [firstn]. rewrite firstn_nil. reflexivity. }
  rewrite Eu. split; [reflexivity|]. split.
  - unfold PhotoUploader.handleRemovePhoto; cbn [snd photos setPhotos].
    pose proof (filterIndex_remove (photos s ++ [createObjectURL f]) 0
                  (length (photos s))) as E.
    cbn [Nat.add] in E. rewrite E. clear E.
    rewrite firstn_app, firstn_all, Nat.sub_diag. cbn [firstn].
    rewrite skipn_app, skipn_all2 by lia.
    replace (S (length (photos s)) - length (photos s))%nat with 1%nat by lia.
    cbn [skipn app]. rewrite !app_nil_r.
    destruct s; reflexivity.
  - intros Hne.
    unfold PhotoUploader.handleRemovePhoto; cbn [fst photos setPhotos].
    rewrite nth_error_app2 by lia. rewrite Nat.sub_diag. cbn [nth_error].
    destruct (createObjectURL f); [contradiction|reflexivity].
Qed.

Lemma X6_upload_then_remove_witness :
  snd (PhotoUploader.handleRemovePhoto 0
         (PhotoUploader.handleFileChange string urlOf (Some ["blob:a"%string]) useStore))
    = useStore.
Proof.
  destruct (X6_upload_then_remove string urlOf "blob:a"%string useStore) as (_ & H & _).
  - simpl. lia.
  - exact H.
Defined.

(** ** The gesture controller beyond the claims *)

(** X7: an update without a hand clears the hand state (not detected,
    gesture NONE, no landmarks, position kept) and the counter, leaves
    the mode alone and keeps the pending candidate; so when the hand
    comes back showing that candidate, it is confirmed on the 6th
    sample and the gesture is NONE until then. *)
Theorem X7_hand_lost_keeps_candidate :
  forall c : Controller,
    let c0 := predictWebcam [] c in
    mode (store c0) = mode (store c)
    /\ handState (store c0) =
         {| detected := false; gesture := NONE;
            position := position (handState (store c)); landmarks := [] |}
    /\ gestureCountRef c0 = 0%nat
    /\ pendingGestureRef c0 = pendingGestureRef c
    /\ forall samples : list Sample,
         allLabelled (pendingGestureRef c) samples ->
         gesture (handState (store (feed samples c0))) =
           if (6 <=? length samples)%nat then pendingGestureRef c else NONE.
Proof.
  intros c c0.
  split; [reflexivity|]. split; [reflexivity|]. split; [reflexivity|].
  split; [reflexivity|].
  intros samples Hall.
  destruct (feed_streak (pendingGestureRef c) samples Hall c0 eq_refl) as (_ & _ & Hg).
  rewrite Hg. change (gestureCountRef c0) with 0%nat. cbn [Nat.add].
  change (gesture (handState (store c0))) with NONE.
  set (k := length samples).
  destruct (6 <=? k)%nat eqn:E.
  - apply Nat.leb_le in E.
    replace (1 <=? k)%nat with true by (symmetry; apply Nat.leb_le; lia).
    replace (5 <? k)%nat with true by (symmetry; apply Nat.ltb_lt; lia).
    reflexivity.
  - apply Nat.leb_gt in E.
    replace (5 <? k)%nat with false by (symmetry; apply Nat.ltb_ge; lia).
    rewrite andb_false_r. reflexivity.
Qed.

Lemma X7_hand_lost_keeps_candidate_witness :
  let c := feed (repeat (sample OPEN) 7) (mount useStore) in
  gesture (handState (store (feed (repeat (sample OPEN) 6) (predictWebcam [] c)))) = OPEN
  /\ gesture (handState (store (feed (repeat (sample OPEN) 5) (predictWebcam [] c)))) = NONE.
Proof.
  cbv zeta. set (c := feed (repeat (sample OPEN) 7) (mount useStore)).
  destruct (X7_hand_lost_keeps_candidate c) as (_ & _ & _ & _ & H).
  split.
  - apply (H (repeat (sample OPEN) 6)). repeat constructor.
  - apply (H (repeat (sample OPEN) 5)). repeat constructor.
Defined.

(** X8: a stream in which no two adjacent labels are equal, the first
    one differing from the pending candidate, never confirms anything:
    the forwarded gesture stays what it was and the counter stays 0. *)
Theorem X8_flicker_never_confirms :
  forall (samples : list Sample) (c : Controller),
    flickers (pendingGestureRef c) samples ->
    let c' := feed samples c in
    gesture (handState (store c')) = gesture (handState (store c))
    /\ (samples <> [] ->
          gestureCountRef c' = 0%nat /\ detected (handState (store c')) = true).
Proof.
  induction samples as [|s samples IH]; intros c Hf.
  - simpl. split; [reflexivity|]. intros H. contradiction.
  - destruct Hf as [Hne Hf]. cbv zeta. rewrite feed_cons.
    set (c1 := onHand (fst (fst s)) (snd (fst s)) (snd s) c).
    assert (Hp1 : pendingGestureRef c1 = fst (fst s)) by apply onHand_pending.
    assert (Hc1 : gestureCountRef c1 = 0%nat).
    { unfold c1. rewrite onHand_count.
      destruct (GestureType_eq_dec (fst (fst s)) (pendingGestureRef c)); congruence. }
    assert (Hg1 : gesture (handState (store c1)) = gesture (handState (store c))).
    { unfold c1 at 1. rewrite onHand_gesture. fold c1. rewrite Hc1. reflexivity. }
    assert (Hd1 : detected (handState (store c1)) = true) by apply onHand_detected.
    rewrite <- Hp1 in Hf. destruct (IH c1 Hf) as (IHg & IHc).
    split; [rewrite IHg; exact Hg1|]. intros _.
    destruct samples as [|s' samples'].
    + simpl. auto.
    + apply IHc. discriminate.
Qed.

Lemma X8_flicker_never_confirms_witness :
  let stream := [sample OPEN; sample FIST; sample OPEN; sample FIST;
                 sample OPEN; sample FIST; sample OPEN; sample FIST] in
  gesture (handState (store (feed stream (mount useStore)))) = NONE.
Proof.
  cbv zeta.
  eapply (proj1 (X8_flicker_never_confirms _ (mount useStore) _)).
  Unshelve. simpl. repeat split; discriminate.
Defined.

Lemma nth_error_simple_map {A B : Type} (f : A -> B) (l : list A) (n : nat) :
  nth_error (map f l) n = option_map f (nth_error l n).
Proof.
  revert n. induction l as [|x l IH]; intros [|n]; simpl; auto.
Qed.

(** X9: for a full hand whose keypoints lie in the unit square the
    anchor lies in the square from -1 to 1, and mirroring the hand in x
    negates the anchor's x and keeps its y. *)
Theorem X9_anchor_range :
  forall (lms : list Point2) (rest : list (list Point2)) (c : Controller),
    length lms = 21%nat -> normalized lms ->
    let p := position (handState (store (predictWebcam (lms :: rest) c))) in
    let q := position (handState (store (predictWebcam (mirror lms :: rest) c))) in
    -1 <= px p <= 1 /\ -1 <= py p <= 1
    /\ px q = - px p /\ py q = py p.
Proof.
  intros lms rest c Hlen Hn p q.
  destruct (predictWebcam_position lms rest c Hlen) as (l9 & H9 & Hp).
  assert (Hlen' : length (mirror lms) = 21%nat)
    by (unfold mirror; rewrite length_map; exact Hlen).
  destruct (predictWebcam_position (mirror lms) rest c Hlen') as (m9 & M9 & Hq).
  unfold mirror in M9. rewrite nth_error_simple_map, H9 in M9.
  injection M9 as <-.
  unfold p, q. rewrite Hp, Hq. cbn [px py].
  unfold normalized in Hn. rewrite Forall_forall in Hn.
  destruct (Hn l9 (nth_error_In _ _ H9)) as [Hx Hy].
  repeat split; lra.
Qed.

Lemma openPinch_normalized : normalized openPinch.
Proof.
  unfold normalized, openPinch, alongX. cbn [map].
  repeat (apply Forall_cons; [cbn [px py]; lra|]). apply Forall_nil.
Qed.

Lemma X9_anchor_range_witness :
  let p := position (handState (store (predictWebcam [openPinch] (mount useStore)))) in
  -1 <= px p <= 1 /\ -1 <= py p <= 1.
Proof.
  destruct (X9_anchor_range openPinch [] (mount useStore) eq_refl openPinch_normalized)
    as (Hx & Hy & _).
  split; [exact Hx|exact Hy].
Defined.

Lemma measure_needs_21 (lms : list Point2) (m : Measure) :
  measure lms = Some m -> (21 <= length lms)%nat.
Proof.
  unfold measure. intros H.
  destruct (isUp lms 4 3); [|discriminate].
  destruct (isUp lms 8 6); [|discriminate].
  destruct (isUp lms 12 10); [|discriminate].
  destruct (isUp lms 16 14); [|discriminate].
  destruct (isUp lms 20 18) eqn:E; [|discriminate].
  unfold isUp, dist in E.
  destruct (nth_error lms 20) eqn:E20; [|discriminate].
  assert (nth_error lms 20 <> None) by congruence.
  apply nth_error_Some in H0. lia.
Qed.

(** X10: a hand with fewer than 21 keypoints is ignored: the read of a
    missing keypoint throws before anything is written, so the
    controller and the store are exactly as before. *)
Theorem X10_short_hand_is_ignored :
  forall (lms : list Point2) (rest : list (list Point2)) (c : Controller),
    (length lms < 21)%nat -> predictWebcam (lms :: rest) c = c.
Proof.
  intros lms rest c Hlt. unfold predictWebcam, detectGesture.
  destruct (measure lms) as [m|] eqn:E; [|reflexivity].
  apply measure_needs_21 in E. lia.
Qed.

Lemma X10_short_hand_is_ignored_witness :
  predictWebcam [firstn 20 openPinch] toggledWhileOpen = toggledWhileOpen.
Proof.
  apply X10_short_hand_is_ignored. simpl. lia.
Defined.

(** *** The skeleton overlays on the states the controller produces *)

Section SkeletonSafety.

Import Skeleton.

(** What the controller keeps true of the hand state it writes. *)
Lemma predictWebcam_keeps_full_hand (result : list (list Point2)) (c : Controller) :
  (detected (handState (store c)) = true ->
     (21 <= length (landmarks (handState (store c))))%nat) ->
  detected (handState (store (predictWebcam result c))) = true ->
  (21 <= length (landmarks (handState (store (predictWebcam result c)))))%nat.
Proof.
  intros Hinv. destruct result as [|lms rest].
  - cbn. discriminate.
  - unfold predictWebcam, detectGesture.
    destruct (measure lms) as [m|] eqn:Em; [|exact Hinv].
    pose proof (measure_needs_21 lms m Em) as Hlen.
    unfold scenePosition.
    destruct (nth_error_in_range lms 9 ltac:(lia)) as [l9 ->].
    intros _. unfold publish, debounce, simplify.
    destruct (GestureType_eq_dec (decideGesture m) (pendingGestureRef c));
      cbn [gestureCountRef store]; destruct (_ <? _)%nat;
      cbn; rewrite length_map; exact Hlen.
Qed.

Lemma detect_keeps_full_hand (results : list (list (list Point2))) :
  forall c : Controller,
    (detected (handState (store c)) = true ->
       (21 <= length (landmarks (handState (store c))))%nat) ->
    detected (handState (store (detect results c))) = true ->
    (21 <= length (landmarks (handState (store (detect results c)))))%nat.
Proof.
  induction results as [|r results IH]; intros c Hinv.
  - exact Hinv.
  - apply (IH (predictWebcam r c)).
    apply predictWebcam_keeps_full_hand. exact Hinv.
Qed.

Lemma bones_total (fx fy : R -> R) (lms : list Point2) (cs : list (nat * nat)) :
  Forall (fun ab => (fst ab < length lms)%nat /\ (snd ab < length lms)%nat) cs ->
  exists bs, bones fx fy lms cs = Some bs /\ length bs = length cs.
Proof.
  induction 1 as [|[a b] cs [Ha Hb] _ IH].
  - exists []. auto.
  - cbn [bones]. cbn [fst snd] in Ha, Hb.
    destruct (nth_error_in_range lms a Ha) as [p1 ->].
    destruct (nth_error_in_range lms b Hb) as [p2 ->].
    destruct IH as (bs & -> & Hl).
    eexists. split; [reflexivity|]. simpl. rewrite Hl. reflexivity.
Qed.

Lemma joints_length (fx fy : R -> R) (big small : R) (lms : list Point2) :
  forall start : nat, length (joints fx fy big small start lms) = length lms.
Proof.
  induction lms as [|lm lms IH]; intros start; simpl; [reflexivity|].
  rewrite IH. reflexivity.
Qed.

Lemma overlay_safe (fx fy : R -> R) (big small : R) (h : HandState) :
  (detected h = true -> (21 <= length (landmarks h))%nat) ->
  (detected h = false /\ overlay fx fy big small h = Null)
  \/ (detected h = true
      /\ exists bs js,
           overlay fx fy big small h = Drawn bs js
           /\ length bs = 23%nat /\ length js = length (landmarks h)).
Proof.
  intros Hinv. unfold overlay. destruct (detected h) eqn:Ed.
  - right. split; [reflexivity|]. specialize (Hinv eq_refl).
    cbn [negb orb].
    replace (length (landmarks h) =? 0)%nat with false
      by (symmetry; apply Nat.eqb_neq; lia).
    destruct (bones_total fx fy (landmarks h) CONNECTIONS) as (bs & -> & Hl).
    { unfold CONNECTIONS, fingerRow, knuckles. cbn [app].
      repeat (apply Forall_cons; [cbn [fst snd]; lia|]). apply Forall_nil. }
    exists bs, (joints fx fy big small 0 (landmarks h)).
    split; [reflexivity|]. split; [exact Hl|apply joints_length].
  - left. auto.
Qed.

End SkeletonSafety.

(** X11: on every state the detector loop can reach from the mounted
    controller, whatever the detector returned (full hands, short
    hands, no hand), both skeleton overlays render without throwing:
    they return null when no hand is detected, and otherwise draw the
    23 bones and one joint per keypoint. *)
Theorem X11_overlays_never_throw :
  forall (results : list (list (list Point2))) (width height : R),
    let h := handState (store (detect results (mount useStore))) in
    (detected h = false
     /\ Skeleton.renderSkeleton h = Skeleton.Null
     /\ Skeleton.GestureTrail width height h = Skeleton.Null)
    \/ (detected h = true
        /\ (exists bs js,
              Skeleton.renderSkeleton h = Skeleton.Drawn bs js
              /\ length bs = 23%nat /\ length js = length (landmarks h))
        /\ (exists bs js,
              Skeleton.GestureTrail width height h = Skeleton.Drawn bs js
              /\ length bs = 23%nat /\ length js = length (landmarks h))).
Proof.
  intros results width height h.
  assert (Hinv : detected h = true -> (21 <= length (landmarks h))%nat).
  { apply detect_keeps_full_hand. cbn. discriminate. }
  unfold Skeleton.renderSkeleton, Skeleton.GestureTrail.
  destruct (overlay_safe (fun v => v * 100) (fun v => v * 100) 3 1.5 h Hinv)
    as [[Hd H1] | [Hd H1]];
  destruct (overlay_safe (fun val => (1 - val) * width) (fun val => val * height) 5 3 h Hinv)
    as [[Hd' H2] | [Hd' H2]]; try congruence.
  - left. auto.
  - right. auto.
Qed.



(** *** The classifier: symmetries, a degenerate hand, what a label tells *)

Lemma dist_translate (dx dy : R) (lms : list Point2) (i j : nat) :
  dist (translate dx dy lms) i j = dist lms i j.
Proof.
  unfold dist, translate. rewrite !nth_error_simple_map.
  destruct (nth_error lms i) as [a|]; [|reflexivity].
  destruct (nth_error lms j) as [b|]; [|reflexivity].
  cbn [option_map px py]. f_equal. f_equal; ring.
Qed.

Lemma dist_mirror (lms : list Point2) (i j : nat) :
  dist (mirror lms) i j = dist lms i j.
Proof.
  unfold dist, mirror. rewrite !nth_error_simple_map.
  destruct (nth_error lms i) as [a|]; [|reflexivity].
  destruct (nth_error lms j) as [b|]; [|reflexivity].
  cbn [option_map px py]. f_equal. unfold hypot. f_equal. ring.
Qed.

(** X13: the classifier does not depend on where the hand is in the
    frame nor on which way the image is mirrored: moving every keypoint
    by the same vector, or mirroring the hand in x, gives the same
    label (or the same failure on a short hand). *)
Theorem X13_classifier_symmetries :
  forall (lms : list Point2) (dx dy : R),
    detectGesture (translate dx dy lms) = detectGesture lms
    /\ detectGesture (mirror lms) = detectGesture lms.
Proof.
  intros lms dx dy. unfold detectGesture, measure, isUp.
  rewrite !dist_translate, !dist_mirror. split; reflexivity.
Qed.

(** X14: a hand whose 21 keypoints all coincide is labelled PINCH: no
    finger counts as extended and the two tips are at distance 0. *)
Theorem X14_collapsed_hand_is_pinch :
  forall p : Point2, detectGesture (repeat p 21) = Some PINCH.
Proof.
  intros p.
  assert (Hd : forall i j, (i < 21)%nat -> (j < 21)%nat -> dist (repeat p 21) i j = Some 0).
  { intros i j Hi Hj. unfold dist.
    assert (Hn : forall k, (k < 21)%nat -> nth_error (repeat p 21) k = Some p).
    { intros k Hk. do 21 (destruct k as [|k]; [reflexivity|]). lia. }
    rewrite (Hn i Hi), (Hn j Hj). f_equal. unfold hypot.
    replace (_ * _ + _ * _) with 0 by ring. apply sqrt_0. }
  unfold detectGesture, measure, isUp.
  rewrite !Hd by lia.
  rewrite Rgtb_false by lra. rewrite Rltb_true by lra. reflexivity.
Qed.



(** ** The drag and inertia controller beyond the claims *)

Section Dragging.

Import Scene.

Lemma pointerMoves_snoc (xs : list R) (x : R) (g : TreeGroup) :
  pointerMoves (xs ++ [x]) g = handlePointerMove x (pointerMoves xs g).
Proof. unfold pointerMoves. rewrite fold_left_app. reflexivity. Qed.

(** The released group over idle ticks, from any velocity [v]: either
    it has decayed once per tick, or it has stopped after [j] decays. *)
Lemma inertia_general (r v : R) (g : TreeGroup) (ticks : list (HandState * R)) :
  groupRef g = Some r -> isDragging g = false -> velocity g = v ->
  noVictory ticks ->
  let k := length ticks in
  let g' := frames ticks g in
  isDragging g' = false
  /\ exists j : nat,
       (j <= k)%nat
       /\ groupRef g' = Some (r + 20 * v * (1 - 0.95 ^ j))
       /\ (velocity g' = 0 \/ (velocity g' = v * 0.95 ^ j /\ j = k)).
Proof.
  intros Hr Hd Hv. induction ticks as [|t ticks IH] using rev_ind; intros Hn.
  - simpl. split; [exact Hd|]. exists 0%nat. split; [lia|].
    split; [rewrite Hr; f_equal; simpl; lra|]. right. split; [simpl; lra|reflexivity].
  - apply Forall_app in Hn as [Hn Ht]. apply Forall_cons_iff in Ht as [Ht _].
    destruct (IH Hn) as (Id & j & Hj & Ir & Iv).
    cbv zeta. rewrite frames_snoc, length_app. cbn [length].
    replace (length ticks + 1)%nat with (S (length ticks)) by lia.
    unfold useFrame. rewrite Ir.
    destruct (GestureType_eq_dec (gesture (fst t)) VICTORY) as [E|_]; [contradiction|].
    rewrite Id. cbn [negb].
    destruct (Rgt_dec (Rabs (velocity (frames ticks g))) 0.0001) as [Hgt|Hle].
    + rewrite (Rgtb_true _ _ Hgt). cbn [isDragging groupRef velocity].
      split; [reflexivity|].
      destruct Iv as [I0 | [Iv Ej]].
      * rewrite I0, Rabs_R0 in Hgt. lra.
      * exists (S j). split; [lia|]. split.
        -- rewrite Iv. f_equal. simpl. lra.
        -- right. split; [rewrite Iv; simpl; lra|lia].
    + rewrite Rgtb_false by lra. cbn [isDragging groupRef velocity].
      split; [reflexivity|]. exists j. split; [lia|]. split; [reflexivity|]. left. reflexivity.
Qed.

Lemma pow_095_unit (j : nat) : 0 < 0.95 ^ j <= 1.
Proof.
  split; [apply pow_lt; lra|].
  replace 1 with (0.95 ^ 0) by reflexivity. apply pow_095_decr. lia.
Qed.

End Dragging.

(** X16: during a drag the rotation follows the pointer: after
    pointer-down at x0 and any pointer moves, the rotation has changed
    by 0.005 times the net displacement of the pointer, whatever the
    path, and the stored velocity is 0.005 times the last step.  Moves
    that arrive while no drag is in progress change nothing. *)
Theorem X16_drag_follows_pointer :
  forall (g0 : Scene.TreeGroup) (r0 x0 : R) (xs : list R),
    Scene.groupRef g0 = Some r0 ->
    let g := pointerMoves xs (Scene.handlePointerDown x0 g0) in
    Scene.groupRef g = Some (r0 + (last xs x0 - x0) * 0.005)
    /\ Scene.velocity g = (last xs x0 - last (removelast xs) x0) * 0.005
    /\ Scene.previousMouseX g = last xs x0
    /\ Scene.isDragging g = true
    /\ pointerMoves xs (Scene.handlePointerUp g) = Scene.handlePointerUp g.
Proof.
  intros g0 r0 x0 xs Hr.
  assert (Hidle : forall (ys : list R) (g : Scene.TreeGroup),
            Scene.isDragging g = false -> pointerMoves ys g = g).
  { induction ys as [|y ys IH]; intros g Hd; [reflexivity|].
    change (pointerMoves (y :: ys) g) with (pointerMoves ys (Scene.handlePointerMove y g)).
    unfold Scene.handlePointerMove at 1. rewrite Hd. cbn [negb]. apply IH. exact Hd. }
  cbv zeta.
  assert (H : Scene.groupRef (pointerMoves xs (Scene.handlePointerDown x0 g0))
                = Some (r0 + (last xs x0 - x0) * 0.005)
              /\ Scene.velocity (pointerMoves xs (Scene.handlePointerDown x0 g0))
                   = (last xs x0 - last (removelast xs) x0) * 0.005
              /\ Scene.previousMouseX (pointerMoves xs (Scene.handlePointerDown x0 g0))
                   = last xs x0
              /\ Scene.isDragging (pointerMoves xs (Scene.handlePointerDown x0 g0)) = true).
  { induction xs as [|x xs IH] using rev_ind.
    - cbn. rewrite Hr. repeat split; [f_equal; lra|lra].
    - destruct IH as (Ir & _ & Ip & Id).
      rewrite pointerMoves_snoc, last_last, removelast_last.
      unfold Scene.handlePointerMove. rewrite Id. cbn [negb].
      cbn [Scene.groupRef Scene.velocity Scene.previousMouseX Scene.isDragging].
      rewrite Ir, Ip.
      split; [f_equal; lra|]. split; [reflexivity|]. split; reflexivity. }
  destruct H as (H1 & H2 & H3 & H4).
  split; [exact H1|]. split; [exact H2|]. split; [exact H3|]. split; [exact H4|].
  apply Hidle. reflexivity.
Qed.

Lemma X16_drag_follows_pointer_witness :
  Scene.groupRef (pointerMoves [60; 20; 140] (Scene.handlePointerDown 40 atRest))
    = Some (0 + (140 - 40) * 0.005).
Proof.
  destruct (X16_drag_follows_pointer atRest 0 40 [60; 20; 140] eq_refl) as (H & _).
  exact H.
Defined.

(** X17: a tick under the VICTORY gesture turns the group by
    -0.3 * delta and zeroes the stored velocity, also in the middle of
    a drag; the inertia it killed does not come back: with the pointer
    released, the idle ticks that follow leave the rotation where the
    gesture put it. *)
Theorem X17_victory_kills_inertia :
  forall (h : HandState) (delta r : R) (g : Scene.TreeGroup),
    Scene.groupRef g = Some r -> gesture h = VICTORY ->
    let g1 := Scene.useFrame h delta g in
    Scene.groupRef g1 = Some (r - delta * 0.3)
    /\ Scene.velocity g1 = 0
    /\ Scene.isDragging g1 = Scene.isDragging g
    /\ (Scene.isDragging g = false ->
          forall ticks : list (HandState * R),
            noVictory ticks ->
            Scene.groupRef (Scene.frames ticks g1) = Some (r - delta * 0.3)
            /\ Scene.velocity (Scene.frames ticks g1) = 0).
Proof.
  intros h delta r g Hr Hv g1.
  assert (E : g1 = {| Scene.groupRef := Some (r - delta * 0.3);
                      Scene.isDragging := Scene.isDragging g;
                      Scene.previousMouseX := Scene.previousMouseX g;
                      Scene.velocity := 0 |}).
  { unfold g1, Scene.useFrame. rewrite Hr, Hv.
    destruct (GestureType_eq_dec VICTORY VICTORY); [reflexivity|contradiction]. }
  rewrite E. cbn [Scene.groupRef Scene.velocity Scene.isDragging].
  split; [reflexivity|]. split; [reflexivity|]. split; [reflexivity|].
  intros Hd ticks Hn.
  destruct (inertia_rest (r - delta * 0.3) ticks Hn
              {| Scene.groupRef := Some (r - delta * 0.3);
                 Scene.isDragging := Scene.isDragging g;
                 Scene.previousMouseX := Scene.previousMouseX g;
                 Scene.velocity := 0 |} eq_refl Hd eq_refl) as (_ & Rv & Rr).
  split; [exact Rr|exact Rv].
Qed.

Lemma X17_victory_kills_inertia_witness :
  let thrown := Scene.handlePointerUp
                  (Scene.handlePointerMove 140 (Scene.handlePointerDown 40 atRest)) in
  let h := {| detected := true; gesture := VICTORY;
              position := {| px := 0; py := 0 |}; landmarks := [] |} in
  Scene.velocity thrown = (140 - 40) * 0.005
  /\ Scene.velocity (Scene.frames (idleTicks 10) (Scene.useFrame h 1 thrown)) = 0.
Proof.
  cbv zeta. split; [reflexivity|].
  set (thrown := Scene.handlePointerUp _).
  set (h := {| detected := true; gesture := VICTORY; position := _; landmarks := [] |}).
  destruct (X17_victory_kills_inertia h 1 (0 + (140 - 40) * 0.005) thrown)
    as (_ & _ & _ & H); [reflexivity|reflexivity|].
  apply H; [reflexivity|apply noVictory_idleTicks].
Defined.

(** X18: released with any velocity v, the group comes to rest: over
    idle ticks the rotation never strays more than 20 * |v| from where
    it was released, the velocity never exceeds |v| in size, and from
    some tick on the velocity is exactly 0. *)
Theorem X18_inertia_comes_to_rest :
  forall (g : Scene.TreeGroup) (r v : R),
    Scene.groupRef g = Some r -> Scene.isDragging g = false -> Scene.velocity g = v ->
    (forall ticks : list (HandState * R),
       noVictory ticks ->
       exists rot : R,
         Scene.groupRef (Scene.frames ticks g) = Some rot
         /\ Rabs (rot - r) <= 20 * Rabs v
         /\ Rabs (Scene.velocity (Scene.frames ticks g)) <= Rabs v)
    /\ exists K : nat,
         forall ticks : list (HandState * R),
           noVictory ticks -> (K <= length ticks)%nat ->
           Scene.velocity (Scene.frames ticks g) = 0.
Proof.
  intros g r v Hr Hd Hv. split.
  - intros ticks Hn.
    destruct (inertia_general r v g ticks Hr Hd Hv Hn) as (_ & j & _ & Ir & Iv).
    pose proof (pow_095_unit j) as [Hp0 Hp1].
    exists (r + 20 * v * (1 - 0.95 ^ j)). split; [exact Ir|]. split.
    + replace (r + 20 * v * (1 - 0.95 ^ j) - r) with (20 * (v * (1 - 0.95 ^ j))) by ring.
      rewrite Rabs_mult, (Rabs_right 20) by lra.
      rewrite Rabs_mult, (Rabs_right (1 - 0.95 ^ j)) by lra.
      pose proof (Rabs_pos v). nra.
    + destruct Iv as [-> | [-> _]].
      * rewrite Rabs_R0. apply Rabs_pos.
      * rewrite Rabs_mult, (Rabs_right (0.95 ^ j)) by lra.
        pose proof (Rabs_pos v). nra.
  - assert (Hy : 0 < 0.0001 / (Rabs v + 1)).
    { pose proof (Rabs_pos v). apply Rdiv_lt_0_compat; lra. }
    destruct (pow_lt_1_zero 0.95 ltac:(rewrite Rabs_right; lra) _ Hy) as [N HN].
    exists (S N). intros ticks Hn Hk.
    assert (Hsplit : ticks = firstn N ticks ++ skipn N ticks)
      by (symmetry; apply firstn_skipn).
    assert (Hlen : length (firstn N ticks) = N) by (apply firstn_length_le; lia).
    destruct (skipn N ticks) as [|t rest] eqn:Es.
    { apply (f_equal (@length _)) in Hsplit.
      rewrite length_app, Hlen in Hsplit. simpl in Hsplit. lia. }
    assert (Hn' : noVictory (firstn N ticks) /\ noVictory (t :: rest)).
    { unfold noVictory in *. rewrite Hsplit in Hn. apply Forall_app in Hn. exact Hn. }
    destruct Hn' as [Hn1 Hn2]. apply Forall_cons_iff in Hn2 as [Ht Hn2].
    destruct (inertia_general r v g (firstn N ticks) Hr Hd Hv Hn1)
      as (Dd & j & _ & Dr & Dv).
    rewrite Hlen in Dv.
    assert (Ha : Rabs (Scene.velocity (Scene.frames (firstn N ticks) g)) <= 0.0001).
    { destruct Dv as [-> | [-> ->]]; [rewrite Rabs_R0; lra|].
      rewrite Rabs_mult.
      pose proof (HN N ltac:(lia)) as Hs. pose proof (Rabs_pos v) as Hv0.
      pose proof (Rabs_pos (0.95 ^ N)) as Hp0.
      apply Rle_trans with (Rabs v * (0.0001 / (Rabs v + 1))); [nra|].
      unfold Rdiv. rewrite <- Rmult_assoc.
      apply Rmult_le_reg_r with (Rabs v + 1); [lra|].
      rewrite Rmult_assoc, Rinv_l by lra. nra. }
    destruct (inertia_clamp _ _ t _ Dr Dd eq_refl Ha Ht) as (Cd & Cv & Cr).
    destruct (inertia_rest _ rest Hn2 _ Cr Cd Cv) as (_ & Rv & _).
    rewrite Hsplit, frames_app.
    change (Scene.frames (t :: rest) ?x)
      with (Scene.frames rest (Scene.useFrame (fst t) (snd t) x)).
    exact Rv.
Qed.

Lemma X18_inertia_comes_to_rest_witness :
  let thrown := Scene.handlePointerUp
                  (Scene.handlePointerMove (-160) (Scene.handlePointerDown 40 atRest)) in
  exists rot : R,
    Scene.groupRef (Scene.frames (idleTicks 30) thrown) = Some rot
    /\ Rabs (rot - (0 + (-160 - 40) * 0.005)) <= 20 * Rabs ((-160 - 40) * 0.005).
Proof.
  cbv zeta. set (thrown := Scene.handlePointerUp _).
  destruct (X18_inertia_comes_to_rest thrown (0 + (-160 - 40) * 0.005)
              ((-160 - 40) * 0.005) eq_refl eq_refl eq_refl) as (H & _).
  destruct (H (idleTicks 30) (noVictory_idleTicks 30)) as (rot & Hr & Hb & _).
  exists rot. split; [exact Hr|exact Hb].
Defined.

(** ** The camera rig *)

(** X19: each frame moves the camera 5% of the way to its aim, so the
    offset from the aim shrinks by the factor 0.95 in every coordinate;
    with hand positions in the square from -1 to 1 the camera, started
    at (0, 4, 20), never leaves the box |x| <= 10, -3 <= y <= 7 and
    stays at z = 20. *)
Theorem X19_camera_stays_in_box :
  (forall (h : HandState) (cam : Vector3),
     v_x (CameraRig.useFrame h cam) - v_x (CameraRig.aim h)
       = 0.95 * (v_x cam - v_x (CameraRig.aim h))
     /\ v_y (CameraRig.useFrame h cam) - v_y (CameraRig.aim h)
          = 0.95 * (v_y cam - v_y (CameraRig.aim h))
     /\ v_z (CameraRig.useFrame h cam) - v_z (CameraRig.aim h)
          = 0.95 * (v_z cam - v_z (CameraRig.aim h)))
  /\ forall hs : list HandState,
       Forall (fun h => detected h = true ->
                        -1 <= px (position h) <= 1 /\ -1 <= py (position h) <= 1) hs ->
       let cam := cameraFrames hs CameraRig.camera0 in
       -10 <= v_x cam <= 10 /\ -3 <= v_y cam <= 7 /\ v_z cam = 20.
Proof.
  split.
  - intros h cam. unfold CameraRig.useFrame, CameraRig.Vector3_lerp.
    cbn [v_x v_y v_z]. repeat split; lra.
  - intros hs Hhs. cbv zeta.
    assert (H : forall cam : Vector3,
              -10 <= v_x cam <= 10 /\ -3 <= v_y cam <= 7 /\ v_z cam = 20 ->
              -10 <= v_x (cameraFrames hs cam) <= 10
              /\ -3 <= v_y (cameraFrames hs cam) <= 7
              /\ v_z (cameraFrames hs cam) = 20).
    { induction Hhs as [|h hs Hh _ IH]; intros cam Hc; [exact Hc|].
      change (cameraFrames (h :: hs) cam)
        with (cameraFrames hs (CameraRig.useFrame h cam)).
      apply IH. destruct Hc as (Hx & Hy & Hz).
      unfold CameraRig.useFrame, CameraRig.Vector3_lerp, CameraRig.aim.
      cbn [v_x v_y v_z]. rewrite Hz.
      destruct (detected h).
      - destruct (Hh eq_refl) as [Px Py]. repeat split; lra.
      - repeat split; lra. }
    apply H. unfold CameraRig.camera0. cbn [v_x v_y v_z]. repeat split; lra.
Qed.

Lemma X19_camera_stays_in_box_witness :
  let h := {| detected := true; gesture := NONE;
              position := {| px := 1; py := -1 |}; landmarks := [] |} in
  -10 <= v_x (cameraFrames [h; h; h] CameraRig.camera0) <= 10.
Proof.
  cbv zeta.
  destruct X19_camera_stays_in_box as [_ H].
  apply H.
  repeat (apply Forall_cons; [intros _; cbn [position px py]; lra|]).
  apply Forall_nil.
Defined.

(** ** The ornament layout beyond the claims *)

Section GroupInvariant.

Import Scene.

Variable rnd : nat -> R.

(** A property of groups kept by every placement. *)
Variable P : Group -> Prop.

Hypothesis P_step :
  forall (g : Group) (n n' : nat),
    P g ->
    P {| targetPositions := targetPositions g ++ [cand rnd n];
         chaosPositions := chaosPositions g ++ [fst (chaosPosition rnd n')];
         randomRotations := randomRotations g ++ [fst (randomRotation rnd (n' + 3)%nat)] |}.

Lemma placeOne_keeps (r : R) (occ : list Occupied) (g : Group) (n : nat) :
  P g -> P (snd (fst (placeOne rnd r (occ, g) n))).
Proof.
  intros Hg. rewrite placeOne_eq.
  pose proof (tryPlace_spec rnd r occ ATTEMPTS n) as H.
  destruct (tryPlace rnd ATTEMPTS r occ n) as [[p|] n']; cbn [fst snd]; [|exact Hg].
  destruct H as (a & _ & _ & -> & _). apply P_step. exact Hg.
Qed.

Lemma placeMany_keeps (r : R) (k : nat) :
  forall (occ : list Occupied) (g : Group) (n : nat),
    P g -> P (snd (fst (placeMany rnd k r (occ, g) n))).
Proof.
  induction k as [|k IH]; intros occ g n Hg; [exact Hg|].
  rewrite placeMany_S.
  pose proof (placeOne_keeps r occ g n Hg) as H1.
  destruct (fst (placeOne rnd r (occ, g) n)) as [occ1 g1]. apply IH. exact H1.
Qed.

Hypothesis P_empty :
  P {| targetPositions := []; chaosPositions := []; randomRotations := [] |}.

Lemma forEach_keeps (cs : list Config) :
  forall (occ : list Occupied) (groups : list (string * Group)) (n : nat),
    Forall (fun sg => P (snd sg)) groups ->
    Forall (fun sg => P (snd sg)) (snd (fst (forEach rnd cs (occ, groups) n))).
Proof.
  induction cs as [|config rest IH]; intros occ groups n Hg; [exact Hg|].
  rewrite forEach_cons, placeConfig_eq. cbv zeta. cbn [fst snd].
  apply IH. apply Forall_app. split; [exact Hg|].
  constructor; [|constructor]. cbn [snd].
  apply placeMany_keeps. exact P_empty.
Qed.

Lemma ornamentGroups_keep (name : string) (g : Group) :
  In (name, g) (ornamentGroups rnd) -> P g.
Proof.
  intros Hin. unfold ornamentGroups, generate in Hin.
  pose proof (forEach_keeps configs [] [] 0%nat (Forall_nil _)) as H.
  rewrite Forall_forall in H. apply (H (name, g) Hin).
Qed.

End GroupInvariant.

Section LayoutFacts.

Import Scene.

Lemma instances_total (data : Group) (scale lerpVal elapsedTime : R) (n : nat) :
  forall i : nat,
    (i + n <= length (targetPositions data))%nat ->
    (i + n <= length (chaosPositions data))%nat ->
    (i + n <= length (randomRotations data))%nat ->
    exists xs,
      OrnamentInstances.instances data scale lerpVal elapsedTime n i = Some xs
      /\ length xs = n.
Proof.
  induction n as [|n IH]; intros i Ht Hc Hr.
  - exists []. auto.
  - cbn [OrnamentInstances.instances]. unfold OrnamentInstances.instance.
    destruct (nth_error_in_range (targetPositions data) i ltac:(lia)) as [t ->].
    destruct (nth_error_in_range (chaosPositions data) i ltac:(lia)) as [c ->].
    destruct (nth_error_in_range (randomRotations data) i ltac:(lia)) as [r ->].
    destruct (IH (S i) ltac:(lia) ltac:(lia) ltac:(lia)) as (xs & -> & Hl).
    eexists. split; [reflexivity|]. simpl. rewrite Hl. reflexivity.
Qed.

Lemma cand_on_cone (rnd : nat -> R) (n : nat) :
  let p := cand rnd n in
  v_y p = (rnd n - 0.5) * 16
  /\ v_x p * v_x p + v_z p * v_z p = (3.5 - 0.375 * v_y p) * (3.5 - 0.375 * v_y p).
Proof.
  unfold cand, candidate, bind, random, ret, TREE_HEIGHT, TREE_RADIUS.
  cbn [fst v_x v_y v_z]. split; [reflexivity|].
  set (a := rnd (S n) * PI * 2).
  pose proof (sin2_cos2 a) as H. unfold Rsqr in H.
  replace (3.5 - 0.375 * ((rnd n - 0.5) * 16)) with ((1 - rnd n) * 6 + 0.5) by lra.
  set (r := (1 - rnd n) * 6 + 0.5).
  replace (r * cos a * (r * cos a) + r * sin a * (r * sin a))
    with (r * r * (sin a * sin a + cos a * cos a)) by ring.
  rewrite H. ring.
Qed.

Lemma chaos_in_shell (rnd : nat -> R) (n : nat) :
  let c := fst (chaosPosition rnd n) in
  let rChaos := 10 + rnd n * 15 in
  v_x c * v_x c + v_y c * v_y c + v_z c * v_z c = rChaos * rChaos.
Proof.
  unfold chaosPosition, bind, random, ret. cbn [fst v_x v_y v_z].
  set (rc := 10 + rnd n * 15).
  set (th := rnd (S n) * PI * 2). set (ph := acos (2 * rnd (S (S n)) - 1)).
  pose proof (sin2_cos2 th) as Ht. pose proof (sin2_cos2 ph) as Hp.
  unfold Rsqr in Ht, Hp.
  replace (rc * sin ph * cos th * (rc * sin ph * cos th)
           + rc * sin ph * sin th * (rc * sin ph * sin th)
           + rc * cos ph * (rc * cos ph))
    with (rc * rc * (sin ph * sin ph * (sin th * sin th + cos th * cos th)
                     + cos ph * cos ph)) by ring.
  rewrite Ht, Rmult_1_r, Hp. ring.
Qed.

End LayoutFacts.

(** X20: in every group the generator returns, the three arrays
    (formed positions, chaos positions, rotations) have the same
    length, so a frame of [Ornaments] finds all three entries of every
    instance and writes one transform per formed position, never
    reading past an array. *)
Theorem X20_every_instance_renders :
  forall (rnd : nat -> R) (name : string) (g : Scene.Group),
    In (name, g) (Scene.ornamentGroups rnd) ->
    length (Scene.chaosPositions g) = length (Scene.targetPositions g)
    /\ length (Scene.randomRotations g) = length (Scene.targetPositions g)
    /\ forall scale lerpVal elapsedTime : R,
         exists xs,
           OrnamentInstances.frame g scale lerpVal elapsedTime = Some xs
           /\ length xs = length (Scene.targetPositions g).
Proof.
  intros rnd name g Hin.
  assert (H : length (Scene.chaosPositions g) = length (Scene.targetPositions g)
              /\ length (Scene.randomRotations g) = length (Scene.targetPositions g)).
  { apply (ornamentGroups_keep rnd
             (fun g => length (Scene.chaosPositions g) = length (Scene.targetPositions g)
                       /\ length (Scene.randomRotations g) = length (Scene.targetPositions g)))
      with (name := name); [|split; reflexivity|exact Hin].
    intros g0 n n' [H1 H2]. cbn. rewrite !length_app, H1, H2. auto. }
  destruct H as [Hc Hr]. split; [exact Hc|]. split; [exact Hr|].
  intros scale lerpVal elapsedTime. unfold OrnamentInstances.frame.
  apply instances_total; lia.
Qed.

Lemma X20_every_instance_renders_witness :
  exists g xs,
    In ("gold"%string, g) (Scene.ornamentGroups twoSpots)
    /\ OrnamentInstances.frame g 0.35 0 0 = Some xs /\ length xs = 2%nat.
Proof.
  destruct generate_twoSpots as (g & Hg & E).
  assert (Hin : In ("gold"%string, g) (Scene.ornamentGroups twoSpots)).
  { unfold Scene.ornamentGroups. rewrite E. left. reflexivity. }
  destruct (X20_every_instance_renders twoSpots "gold"%string g Hin) as (_ & _ & H).
  destruct (H 0.35 0 0) as (xs & Hx & Hl).
  exists g, xs. split; [exact Hin|]. split; [exact Hx|].
  rewrite Hl, Hg. reflexivity.
Defined.

(** X21: with draws in [0, 1) every formed position of every group
    lies on the cone the generator samples: its height y is in
    [-8, 8) and its distance from the axis is 3.5 - 0.375 * y, between
    0.5 (top) and 6.5 (bottom). *)
Theorem X21_formed_positions_on_cone :
  forall (rnd : nat -> R) (name : string) (g : Scene.Group) (p : Vector3),
    unitDraws rnd ->
    In (name, g) (Scene.ornamentGroups rnd) ->
    In p (Scene.targetPositions g) ->
    -8 <= v_y p < 8
    /\ v_x p * v_x p + v_z p * v_z p = (3.5 - 0.375 * v_y p) * (3.5 - 0.375 * v_y p)
    /\ 0.5 < 3.5 - 0.375 * v_y p <= 6.5.
Proof.
  intros rnd name g p Hu Hin Hp.
  assert (H : Forall (fun q => exists n, q = cand rnd n) (Scene.targetPositions g)).
  { apply (ornamentGroups_keep rnd
             (fun g => Forall (fun q => exists n, q = cand rnd n) (Scene.targetPositions g)))
      with (name := name); [|constructor|exact Hin].
    intros g0 n n' H0. cbn. apply Forall_app. split; [exact H0|].
    constructor; [exists n; reflexivity|constructor]. }
  rewrite Forall_forall in H. destruct (H p Hp) as [n ->].
  destruct (cand_on_cone rnd n) as [Hy Hc]. destruct (Hu n) as [H0 H1].
  rewrite Hy in *. split; [lra|]. split; [exact Hc|lra].
Qed.

Lemma unitDraws_twoSpots : unitDraws twoSpots.
Proof.
  intros n. unfold twoSpots. destruct (n <? 7)%nat; lra.
Qed.

Lemma X21_formed_positions_on_cone_witness :
  v_x spotB * v_x spotB + v_z spotB * v_z spotB
    = (3.5 - 0.375 * v_y spotB) * (3.5 - 0.375 * v_y spotB).
Proof.
  destruct generate_twoSpots as (g & Hg & E).
  assert (Hin : In ("gold"%string, g) (Scene.ornamentGroups twoSpots)).
  { unfold Scene.ornamentGroups. rewrite E. left. reflexivity. }
  assert (Hp : In spotB (Scene.targetPositions g)).
  { rewrite Hg. right. left. reflexivity. }
  destruct (X21_formed_positions_on_cone twoSpots _ g spotB unitDraws_twoSpots Hin Hp)
    as (_ & H & _).
  exact H.
Defined.

(** X22: with draws in [0, 1) every chaos position of every group lies
    in the spherical shell around the origin of inner radius 10 and
    outer radius 25. *)
Theorem X22_chaos_positions_in_shell :
  forall (rnd : nat -> R) (name : string) (g : Scene.Group) (c : Vector3),
    unitDraws rnd ->
    In (name, g) (Scene.ornamentGroups rnd) ->
    In c (Scene.chaosPositions g) ->
    exists rChaos : R,
      10 <= rChaos < 25
      /\ v_x c * v_x c + v_y c * v_y c + v_z c * v_z c = rChaos * rChaos.
Proof.
  intros rnd name g c Hu Hin Hc.
  assert (H : Forall (fun q => exists n, q = fst (Scene.chaosPosition rnd n))
                     (Scene.chaosPositions g)).
  { apply (ornamentGroups_keep rnd
             (fun g => Forall (fun q => exists n, q = fst (Scene.chaosPosition rnd n))
                              (Scene.chaosPositions g)))
      with (name := name); [|constructor|exact Hin].
    intros g0 n n' H0. cbn. apply Forall_app. split; [exact H0|].
    constructor; [exists n'; reflexivity|constructor]. }
  rewrite Forall_forall in H. destruct (H c Hc) as [n ->].
  exists (10 + rnd n * 15). destruct (Hu n) as [H0 H1].
  split; [lra|]. apply chaos_in_shell.
Qed.

Lemma X22_chaos_positions_in_shell_witness :
  exists (g : Scene.Group) (c : Vector3),
    In ("gold"%string, g) (Scene.ornamentGroups twoSpots)
    /\ nth_error (Scene.chaosPositions g) 0 = Some c
    /\ exists rChaos : R,
         10 <= rChaos < 25
         /\ v_x c * v_x c + v_y c * v_y c + v_z c * v_z c = rChaos * rChaos.
Proof.
  destruct generate_twoSpots as (g & Hg & E).
  assert (Hin : In ("gold"%string, g) (Scene.ornamentGroups twoSpots)).
  { unfold Scene.ornamentGroups. rewrite E. left. reflexivity. }
  assert (Hc : exists c, nth_error (Scene.chaosPositions g) 0 = Some c).
  { apply nth_error_in_range.
    assert (Hl : length (Scene.chaosPositions g) = length (Scene.targetPositions g)).
    { apply (ornamentGroups_keep twoSpots
               (fun g => length (Scene.chaosPositions g) = length (Scene.targetPositions g)))
        with (name := "gold"%string); [|reflexivity|exact Hin].
      intros g0 n n' H1. cbn. rewrite !length_app, H1. reflexivity. }
    rewrite Hl, Hg. simpl. lia. }
  destruct Hc as [c Hc]. exists g, c. split; [exact Hin|]. split; [exact Hc|].
  apply (X22_chaos_positions_in_shell twoSpots "gold"%string g c unitDraws_twoSpots Hin).
  apply nth_error_In with (n := 0%nat). exact Hc.
Defined.

Section FirstPlacement.

Import Scene.

Variable rnd : nat -> R.

Lemma forEach_appends (cs : list Config) :
  forall (occ : list Occupied) (groups : list (string * Group)) (n : nat),
    exists tail, snd (fst (forEach rnd cs (occ, groups) n)) = groups ++ tail.
Proof.
  induction cs as [|config rest IH]; intros occ groups n.
  - exists []. simpl. rewrite app_nil_r. reflexivity.
  - rewrite forEach_cons, placeConfig_eq. cbv zeta. cbn [fst snd].
    destruct (IH (fst (fst (placeMany rnd (count config) (scale config * 1.1)
                              (occ, {| targetPositions := []; chaosPositions := [];
                                       randomRotations := [] |}) n)))
                 (groups ++ [(id config,
                              snd (fst (placeMany rnd (count config) (scale config * 1.1)
                                (occ, {| targetPositions := []; chaosPositions := [];
                                         randomRotations := [] |}) n)))])
                 (snd (placeMany rnd (count config) (scale config * 1.1)
                         (occ, {| targetPositions := []; chaosPositions := [];
                                  randomRotations := [] |}) n)))
      as [tail ->].
    rewrite <- app_assoc. eexists. reflexivity.
Qed.

(** On an empty occupancy list the first candidate is taken. *)
Lemma placeOne_first (r : R) (g : Group) (n : nat) :
  targetPositions (snd (fst (placeOne rnd r ([], g) n))) = targetPositions g ++ [cand rnd n].
Proof.
  rewrite placeOne_eq. unfold ATTEMPTS. rewrite tryPlace_S. reflexivity.
Qed.

Lemma gold_first :
  nth_error
    (targetPositions (snd (fst (placeMany rnd 250 (0.35 * 1.1)
       ([], {| targetPositions := []; chaosPositions := []; randomRotations := [] |})
       0%nat)))) 0
  = Some (cand rnd 0).
Proof.
  rewrite (placeMany_add rnd 1 249).
  set (st := {| targetPositions := []; chaosPositions := []; randomRotations := [] |}).
  assert (E1 : placeMany rnd 1 (0.35 * 1.1) ([], st) 0%nat
               = placeOne rnd (0.35 * 1.1) ([], st) 0%nat).
  { rewrite placeMany_S. cbn [placeMany]. unfold ret.
    destruct (placeOne rnd (0.35 * 1.1) ([], st) 0%nat). reflexivity. }
  rewrite E1.
  pose proof (placeOne_first (0.35 * 1.1) st 0) as H1.
  destruct (placeOne rnd (0.35 * 1.1) ([], st) 0%nat) as [[occ1 g1] n1].
  cbn [fst snd] in *.
  apply (placeMany_keeps rnd
           (fun g => nth_error (targetPositions g) 0 = Some (cand rnd 0))).
  - intros g n n' Hg. cbn [targetPositions].
    rewrite nth_error_app1; [exact Hg|].
    apply nth_error_Some. congruence.
  - rewrite H1. reflexivity.
Qed.

(** X23: the first gold ball is always placed, at the first candidate
    drawn: nothing is occupied yet, so nothing can collide.  The gold
    group is therefore never empty, whatever the random source, and
    never longer than the 250 asked for. *)
Theorem X23_first_ball_is_placed :
  exists g : Group,
    In ("gold"%string, g) (ornamentGroups rnd)
    /\ nth_error (targetPositions g) 0 = Some (cand rnd 0)
    /\ (1 <= length (targetPositions g) <= 250)%nat.
Proof.
  unfold ornamentGroups, generate, configs.
  rewrite forEach_cons, placeConfig_eq. cbv zeta. cbn [count scale id fst snd app].
  set (st := {| targetPositions := []; chaosPositions := []; randomRotations := [] |}).
  set (r := placeMany rnd 250 (0.35 * 1.1) ([], st) 0%nat).
  destruct (forEach_appends
              [ {| id := "red"; type := ball; count := 180; color := "#8B0000";
                   weight := 0.2; scale := 0.3 |};
                {| id := "silver"; type := ball; count := 100; color := "#C0C0C0";
                   weight := 0.2; scale := 0.2 |};
                {| id := "box"; type := box; count := 60; color := "#222";
                   weight := 0.8; scale := 0.6 |} ]
              (fst (fst r)) [("gold"%string, snd (fst r))] (snd r)) as [tail ->].
  exists (snd (fst r)). split; [left; reflexivity|].
  pose proof gold_first as H0. fold st in H0. fold r in H0.
  split; [exact H0|]. split.
  - assert (nth_error (targetPositions (snd (fst r))) 0 <> None) by congruence.
    apply nth_error_Some in H. lia.
  - assert (Hs : sep []) by constructor.
    destruct (placeMany_inv rnd (0.35 * 1.1) [] 250 [] st 0%nat Hs eq_refl)
      as (_ & _ & Hl).
    fold r in Hl. cbn [targetPositions st length] in Hl. lia.
Qed.

End FirstPlacement.

(** ** The polaroids *)

Section PolaroidLayout.

Import PolaroidItems.

Variable rnd : nat -> R.

Lemma chaosCandidate_run (n : nat) :
  chaosCandidate rnd n = (chaosCand rnd n, S (S (S n))).
Proof. reflexivity. Qed.

Lemma chaosLoop_S (left : nat) (arr : list PolaroidData) (c0 : Vector3) (n : nat) :
  chaosLoop rnd (S left) arr c0 n =
    if collision (chaosCand rnd n) arr
    then chaosLoop rnd left arr (chaosCand rnd n) (S (S (S n)))
    else (chaosCand rnd n, S (S (S n))).
Proof.
  cbn [chaosLoop]. unfold bind at 1. rewrite chaosCandidate_run.
  destruct (collision (chaosCand rnd n) arr); reflexivity.
Qed.

Lemma polaroid_collision_false (c : Vector3) (arr : list PolaroidData) :
  collision c arr = false ->
  Forall (fun e => distanceTo (chaosPos e) c >= 2.4) arr.
Proof.
  induction arr as [|e arr IH]; simpl; intros H; [constructor|].
  unfold Rltb, MIN_DIST in H.
  destruct (Rlt_dec (distanceTo (chaosPos e) c) 2.4); [discriminate|].
  constructor; [lra|apply IH; exact H].
Qed.

(** The chaos loop: it leaves a candidate clear of the array, or all
    its candidates collided and it leaves the last one. *)
Lemma chaosLoop_spec (arr : list PolaroidData) (left : nat) :
  forall (c0 : Vector3) (n : nat),
    collision (fst (chaosLoop rnd left arr c0 n)) arr = false
    \/ ((forall b : nat, (b < left)%nat -> collision (chaosCand rnd (n + 3 * b)) arr = true)
        /\ fst (chaosLoop rnd left arr c0 n) =
             match left with
             | O => c0
             | S l => chaosCand rnd (n + 3 * l)
             end).
Proof.
  induction left as [|left IH]; intros c0 n.
  - right. split; [intros b Hb; lia|reflexivity].
  - rewrite chaosLoop_S. destruct (collision (chaosCand rnd n) arr) eqn:Ec.
    + destruct (IH (chaosCand rnd n) (S (S (S n)))) as [H | [Hb He]].
      * left. exact H.
      * right. split.
        -- intros b Hlt. destruct b as [|b].
           ++ rewrite Nat.mul_0_r, Nat.add_0_r. exact Ec.
           ++ replace (n + 3 * S b)%nat with (S (S (S n)) + 3 * b)%nat by lia.
              apply Hb. lia.
        -- rewrite He. destruct left as [|l].
           ++ rewrite Nat.mul_0_r, Nat.add_0_r. reflexivity.
           ++ f_equal. lia.
    + left. cbn [fst]. exact Ec.
Qed.

Lemma item_eq (i : nat) (arr : list PolaroidData) (n : nat) :
  exists (d : PolaroidData) (n' : nat),
    item rnd i arr n = (arr ++ [d], n')
    /\ polaroidPlaced rnd i d arr.
Proof.
  unfold item, bind, random, ret.
  pose proof (chaosLoop_spec arr CHAOS_ATTEMPTS {| v_x := 0; v_y := 0; v_z := 0 |}
                (S (S n))) as Hc.
  destruct (chaosLoop rnd CHAOS_ATTEMPTS arr {| v_x := 0; v_y := 0; v_z := 0 |} (S (S n)))
    as [c n1].
  eexists. eexists. split; [reflexivity|].
  unfold polaroidPlaced. cbn [id gridPos lookAtTree treePos chaosPos v_x v_y v_z].
  split; [reflexivity|]. split; [reflexivity|]. split; [reflexivity|]. split.
  - unfold TREE_HEIGHT, TREE_RADIUS.
    set (a := rnd (S n) * PI * 2).
    pose proof (sin2_cos2 a) as H. unfold Rsqr in H.
    replace (4 - 5 / 14 * ((rnd n - 0.5) * 14)) with ((1 - rnd n) * 5 + 1.5) by lra.
    set (r := (1 - rnd n) * 5 + 1.5).
    replace (r * cos a * (r * cos a) + r * sin a * (r * sin a))
      with (r * r * (sin a * sin a + cos a * cos a)) by ring.
    rewrite H. ring.
  - cbn [fst] in Hc. destruct Hc as [Hc | [Hb He]].
    + left. apply polaroid_collision_false. exact Hc.
    + right. exists (S (S n)). split; [exact Hb|exact He].
Qed.

Lemma loop_S (k i : nat) (arr : list PolaroidData) (n : nat) :
  loop rnd (S k) i arr n =
    loop rnd k (S i) (fst (item rnd i arr n)) (snd (item rnd i arr n)).
Proof.
  cbn [loop]. unfold bind at 1. destruct (item rnd i arr n). reflexivity.
Qed.

Lemma loop_spec (k : nat) :
  forall (i : nat) (arr : list PolaroidData) (n : nat),
    length arr = i ->
    (forall j d, nth_error arr j = Some d -> polaroidPlaced rnd j d (firstn j arr)) ->
    let arr' := fst (loop rnd k i arr n) in
    length arr' = (i + k)%nat
    /\ forall j d, nth_error arr' j = Some d -> polaroidPlaced rnd j d (firstn j arr').
Proof.
  induction k as [|k IH]; intros i arr n Hl Hinv.
  - simpl. split; [lia|exact Hinv].
  - cbv zeta. rewrite loop_S.
    destruct (item_eq i arr n) as (d & n' & -> & Hd). cbn [fst snd].
    destruct (IH (S i) (arr ++ [d]) n') as (Hl' & Hinv').
    + rewrite length_app. simpl. lia.
    + intros j e Hj.
      destruct (Nat.lt_ge_cases j (length arr)) as [Hlt | Hge].
      * rewrite nth_error_app1 in Hj by exact Hlt.
        rewrite firstn_app. replace (j - length arr)%nat with 0%nat by lia.
        cbn [firstn]. rewrite app_nil_r. apply Hinv. exact Hj.
      * rewrite nth_error_app2 in Hj by exact Hge.
        destruct (j - length arr)%nat as [|m] eqn:Em.
        -- cbn in Hj. injection Hj as <-.
           assert (j = length arr) by lia. subst j.
           rewrite firstn_app, firstn_all, Nat.sub_diag. cbn [firstn].
           rewrite app_nil_r, Hl. exact Hd.
        -- destruct m; discriminate.
    + split; [lia|exact Hinv'].
Qed.

Lemma items_placed :
  length (items rnd) = 25%nat
  /\ forall j d, nth_error (items rnd) j = Some d ->
                 polaroidPlaced rnd j d (firstn j (items rnd)).
Proof.
  unfold items.
  apply (loop_spec Polaroids.COUNT 0 [] 0); [reflexivity|].
  intros j d H. destruct j; discriminate.
Qed.

End PolaroidLayout.

(** C7: with COUNT = 25 and gridCols = 5 the grid has exactly 5 rows,
    and the generator places its photos on it: whatever the random
    source, [items] holds 25 photos, photo [i] has id [i] and its grid
    position is slot [i], in column [i mod 5] and row [i / 5]
    (row-major), every row index below 5 and every one of the 5 rows
    used.  Along a row x grows by the fixed spacing 1.75 and the photos
    of mirrored columns have opposite x, so a row is symmetric about
    x = 0; down a column y falls by the fixed spacing 2.1 and the
    photos of mirrored rows average to the baseline y = 2.9, the top
    row at 2.9 + 4.2 and the bottom row at 2.9 - 4.2.  (Coordinates are
    real numbers; the rounding of the source's floating-point sums is
    not part of the statement.) *)
Theorem C7_photo_grid_layout : forall rnd : nat -> R,
  Polaroids.COUNT = 25%nat /\ Polaroids.gridCols = 5%nat
  /\ Polaroids.rows = 5%Z
  /\ length (PolaroidItems.items rnd) = Polaroids.COUNT
  /\ (forall i : nat, (i < Polaroids.COUNT)%nat ->
        exists d : PolaroidItems.PolaroidData,
          nth_error (PolaroidItems.items rnd) i = Some d
          /\ PolaroidItems.id d = i
          /\ PolaroidItems.gridPos d = Polaroids.gPos i
          /\ PolaroidItems.gridPos d =
               {| v_x := Polaroids.startX + INR (i mod 5) * 1.75;
                  v_y := Polaroids.startY - INR (i / 5) * 2.1;
                  v_z := 8 |})
  /\ (forall i : nat, (i < Polaroids.COUNT)%nat ->
        Polaroids.col i = (i mod 5)%nat
        /\ Polaroids.row i = Z.of_nat (i / 5)
        /\ (i / 5 < 5)%nat
        /\ Polaroids.gPos i =
             {| v_x := Polaroids.startX + INR (i mod 5) * 1.75;
                v_y := Polaroids.startY - INR (i / 5) * 2.1;
                v_z := 8 |})
  /\ (forall r : nat, (r < 5)%nat ->
        (5 * r < Polaroids.COUNT)%nat /\ Polaroids.row (5 * r) = Z.of_nat r)
  /\ (forall (i j : nat) (di dj : PolaroidItems.PolaroidData),
        nth_error (PolaroidItems.items rnd) i = Some di ->
        nth_error (PolaroidItems.items rnd) j = Some dj ->
        ((i mod 5 + j mod 5 = 4)%nat ->
           v_x (PolaroidItems.gridPos di) = - v_x (PolaroidItems.gridPos dj))
        /\ ((i / 5 + j / 5 = 4)%nat ->
              (v_y (PolaroidItems.gridPos di) + v_y (PolaroidItems.gridPos dj)) / 2 = 2.9)
        /\ ((i / 5 = j / 5)%nat -> (j mod 5 = S (i mod 5))%nat ->
              v_x (PolaroidItems.gridPos dj) - v_x (PolaroidItems.gridPos di) = 1.75
              /\ v_y (PolaroidItems.gridPos dj) = v_y (PolaroidItems.gridPos di))
        /\ ((i mod 5 = j mod 5)%nat -> (j / 5 = S (i / 5))%nat ->
              v_y (PolaroidItems.gridPos di) - v_y (PolaroidItems.gridPos dj) = 2.1
              /\ v_x (PolaroidItems.gridPos dj) = v_x (PolaroidItems.gridPos di)))
  /\ (forall i j : nat, (i < Polaroids.COUNT)%nat -> (j < Polaroids.COUNT)%nat ->
        (i mod 5 + j mod 5 = 4)%nat ->
        v_x (Polaroids.gPos i) = - v_x (Polaroids.gPos j))
  /\ (forall i j : nat, (i < Polaroids.COUNT)%nat -> (j < Polaroids.COUNT)%nat ->
        (i / 5 + j / 5 = 4)%nat ->
        (v_y (Polaroids.gPos i) + v_y (Polaroids.gPos j)) / 2 = 2.9)
  /\ v_y (Polaroids.gPos 0) = 2.9 + 4.2
  /\ v_y (Polaroids.gPos 24) = 2.9 - 4.2.
Proof.
  intros rnd. destruct (items_placed rnd) as [Hlen Hplaced].
  assert (Hsum : forall a b c : nat, (a + b = c)%nat -> INR a + INR b = INR c).
  { intros a b c <-. symmetry. apply plus_INR. }
  assert (H4 : INR 4 = 4) by (rewrite INR_IZR_INZ; reflexivity).
  split; [reflexivity|]. split; [reflexivity|]. split; [apply rows_5|].
  split; [exact Hlen|].
  split; [|split; [|split; [|split; [|split; [|split; [|split]]]]]].
  - intros i Hi. unfold Polaroids.COUNT in Hi.
    destruct (nth_error_in_range (PolaroidItems.items rnd) i) as [d Hd];
      [rewrite Hlen; exact Hi|].
    destruct (Hplaced i d Hd) as (Hid & Hg & _).
    exists d. split; [exact Hd|]. split; [exact Hid|]. split; [exact Hg|].
    rewrite Hg, gPos_value, startX_value, startY_value. reflexivity.
  - intros i Hi. unfold Polaroids.COUNT in Hi.
    split; [reflexivity|]. split; [apply row_div|].
    split; [apply Nat.Div0.div_lt_upper_bound; lia|].
    rewrite gPos_value, startX_value, startY_value. reflexivity.
  - intros r Hr. unfold Polaroids.COUNT. split; [lia|].
    rewrite row_div. f_equal.
    rewrite Nat.mul_comm. apply Nat.div_mul. lia.
  - intros i j di dj Hi Hj.
    destruct (Hplaced i di Hi) as (_ & Gi & _).
    destruct (Hplaced j dj Hj) as (_ & Gj & _).
    rewrite Gi, Gj, !gPos_value. cbn [v_x v_y].
    split; [|split; [|split]].
    + intros H. apply Hsum in H. rewrite H4 in H. lra.
    + intros H. apply Hsum in H. rewrite H4 in H. lra.
    + intros Hrow Hcol. rewrite Hrow, Hcol, S_INR. split; lra.
    + intros Hcol Hrow. rewrite Hcol, Hrow, S_INR. split; lra.
  - intros i j _ _ H. rewrite !gPos_value. cbn [v_x].
    apply Hsum in H. rewrite H4 in H. lra.
  - intros i j _ _ H. rewrite !gPos_value. cbn [v_y].
    apply Hsum in H. rewrite H4 in H. lra.
  - rewrite gPos_value. cbn [v_y]. change (0 / 5)%nat with 0%nat. simpl INR. lra.
  - rewrite gPos_value. cbn [v_y]. change (24 / 5)%nat with 4%nat.
    rewrite H4. lra.
Qed.

(** C7 on the photos the generator returns for the draws [twoSpots]:
    photos 7 and 17 exist, sit in column 2, rows 1 and 3, both on
    x = 0, mirrored about y = 2.9; photo 8 is one spacing to the right
    of photo 7. *)
Lemma C7_photo_grid_layout_witness :
  exists d7 d8 d17 : PolaroidItems.PolaroidData,
    nth_error (PolaroidItems.items twoSpots) 7 = Some d7
    /\ nth_error (PolaroidItems.items twoSpots) 8 = Some d8
    /\ nth_error (PolaroidItems.items twoSpots) 17 = Some d17
    /\ PolaroidItems.id d7 = 7%nat
    /\ Polaroids.col 7 = 2%nat /\ Polaroids.row 7 = 1%Z
    /\ v_x (PolaroidItems.gridPos d7) = - v_x (PolaroidItems.gridPos d17)
    /\ (v_y (PolaroidItems.gridPos d7) + v_y (PolaroidItems.gridPos d17)) / 2 = 2.9
    /\ v_x (PolaroidItems.gridPos d8) - v_x (PolaroidItems.gridPos d7) = 1.75.
Proof.
  destruct (C7_photo_grid_layout twoSpots)
    as (_ & _ & _ & _ & Hitem & Hslot & _ & Hpair & _).
  assert (H7 : (7 < Polaroids.COUNT)%nat) by (unfold Polaroids.COUNT; lia).
  assert (H8 : (8 < Polaroids.COUNT)%nat) by (unfold Polaroids.COUNT; lia).
  assert (H17 : (17 < Polaroids.COUNT)%nat) by (unfold Polaroids.COUNT; lia).
  destruct (Hitem 7%nat H7) as (d7 & E7 & I7 & _).
  destruct (Hitem 8%nat H8) as (d8 & E8 & _).
  destruct (Hitem 17%nat H17) as (d17 & E17 & _).
  destruct (Hslot 7%nat H7) as (Hc & Hr & _).
  destruct (Hpair 7%nat 17%nat d7 d17 E7 E17) as (Hx & Hy & _).
  destruct (Hpair 7%nat 8%nat d7 d8 E7 E8) as (_ & _ & Hstep & _).
  exists d7, d8, d17.
  split; [exact E7|]. split; [exact E8|]. split; [exact E17|].
  split; [exact I7|]. split; [exact Hc|]. split; [exact Hr|].
  split; [apply Hx; reflexivity|]. split; [apply Hy; reflexivity|].
  apply Hstep; reflexivity.
Defined.

(** X24: whatever the random source, the polaroid generator returns
    exactly 25 items (it never drops one); item i has id i, sits on
    grid slot i of the 5 x 5 grid, looks at the tree axis at its own
    height, and its tree position is on the cone of radius
    4 - 5/14 * y around the axis. *)
Theorem X24_polaroid_items_complete :
  forall rnd : nat -> R,
    length (PolaroidItems.items rnd) = 25%nat
    /\ map PolaroidItems.gridPos (PolaroidItems.items rnd) = Polaroids.gridPositions
    /\ forall (i : nat) (d : PolaroidItems.PolaroidData),
         nth_error (PolaroidItems.items rnd) i = Some d ->
         PolaroidItems.id d = i
         /\ PolaroidItems.gridPos d = Polaroids.gPos i
         /\ PolaroidItems.lookAtTree d =
              {| v_x := 0; v_y := v_y (PolaroidItems.treePos d); v_z := 0 |}
         /\ v_x (PolaroidItems.treePos d) * v_x (PolaroidItems.treePos d)
              + v_z (PolaroidItems.treePos d) * v_z (PolaroidItems.treePos d)
            = (4 - 5 / 14 * v_y (PolaroidItems.treePos d))
              * (4 - 5 / 14 * v_y (PolaroidItems.treePos d)).
Proof.
  intros rnd. destruct (items_placed rnd) as [Hl Hp].
  split; [exact Hl|]. split.
  - apply nth_error_ext. intros i.
    unfold Polaroids.gridPositions. rewrite !nth_error_simple_map.
    destruct (nth_error (PolaroidItems.items rnd) i) as [d|] eqn:Ed.
    + destruct (Hp i d Ed) as (_ & Hg & _).
      assert (Hi : (i < 25)%nat).
      { rewrite <- Hl. apply nth_error_Some. congruence. }
      unfold Polaroids.COUNT. rewrite nth_error_seq.
      replace (i <? 25)%nat with true by (symmetry; apply Nat.ltb_lt; exact Hi).
      cbn [option_map Nat.add]. rewrite Hg. reflexivity.
    + apply nth_error_None in Ed. rewrite Hl in Ed.
      unfold Polaroids.COUNT. rewrite nth_error_seq.
      replace (i <? 25)%nat with false by (symmetry; apply Nat.ltb_ge; exact Ed).
      reflexivity.
  - intros i d Hd. destruct (Hp i d Hd) as (H1 & H2 & H3 & H4 & _). auto.
Qed.

Lemma X24_polaroid_items_complete_witness :
  exists d : PolaroidItems.PolaroidData,
    nth_error (PolaroidItems.items twoSpots) 24 = Some d
    /\ PolaroidItems.id d = 24%nat
    /\ PolaroidItems.gridPos d = Polaroids.gPos 24.
Proof.
  destruct (X24_polaroid_items_complete twoSpots) as (Hl & _ & H).
  destruct (nth_error_in_range (PolaroidItems.items twoSpots) 24) as [d Hd];
    [rewrite Hl; lia|].
  exists d. split; [exact Hd|].
  destruct (H 24%nat d Hd) as (H1 & H2 & _). split; [exact H1|exact H2].
Defined.

(** X25: the chaos position of a polaroid is at least 2.4 away from
    the chaos position of every earlier polaroid, unless all 50 of its
    candidates collided with earlier ones; in that case it is kept at
    the 50th candidate, overlap and all.  The first polaroid always has
    a clear position. *)
Theorem X25_polaroid_chaos_spacing :
  forall (rnd : nat -> R) (j : nat) (d : PolaroidItems.PolaroidData),
    nth_error (PolaroidItems.items rnd) j = Some d ->
    let earlier := firstn j (PolaroidItems.items rnd) in
    length earlier = j
    /\ ((forall (i : nat) (e : PolaroidItems.PolaroidData),
           (i < j)%nat -> nth_error (PolaroidItems.items rnd) i = Some e ->
           distanceTo (PolaroidItems.chaosPos e) (PolaroidItems.chaosPos d) >= 2.4)
        \/ exists n : nat,
             (forall b : nat, (b < 50)%nat ->
                PolaroidItems.collision (chaosCand rnd (n + 3 * b)) earlier = true)
             /\ PolaroidItems.chaosPos d = chaosCand rnd (n + 3 * 49)
             /\ (0 < j)%nat).
Proof.
  intros rnd j d Hd earlier.
  destruct (items_placed rnd) as [Hl Hp].
  assert (Hj : (j < 25)%nat).
  { rewrite <- Hl. apply nth_error_Some. congruence. }
  split; [unfold earlier; apply firstn_length_le; lia|].
  destruct (Hp j d Hd) as (_ & _ & _ & _ & [Hclear | (n & Hb & Hc)]).
  - left. intros i e Hi He. rewrite Forall_forall in Hclear. apply Hclear.
    apply nth_error_In with (n := i). rewrite nth_error_firstn.
    replace (i <? j)%nat with true by (symmetry; apply Nat.ltb_lt; exact Hi).
    exact He.
  - destruct j as [|j].
    + specialize (Hb 0%nat ltac:(lia)). discriminate Hb.
    + right. exists n. split; [exact Hb|]. split; [exact Hc|lia].
Qed.

Lemma X25_polaroid_chaos_spacing_witness :
  exists d : PolaroidItems.PolaroidData,
    nth_error (PolaroidItems.items twoSpots) 24 = Some d
    /\ length (firstn 24 (PolaroidItems.items twoSpots)) = 24%nat.
Proof.
  destruct (items_placed twoSpots) as (Hl & _).
  destruct (nth_error_in_range (PolaroidItems.items twoSpots) 24) as [d Hd];
    [rewrite Hl; lia|].
  exists d. split; [exact Hd|].
  destruct (X25_polaroid_chaos_spacing twoSpots 24 d Hd) as (H & _). exact H.
Defined.

(** X26: for an image of positive width and height the photo plane
    fits the unit square and keeps the image's aspect ratio: both
    sides are in (0, 1], the longer one is exactly 1, and
    planeWidth / planeHeight = width / height.  An image reporting a
    zero width or height leaves the plane as it was. *)
Theorem X26_photo_plane_fits :
  forall (width height : R) (prev : R * R),
    (0 < width -> 0 < height ->
       let (w, h) := PolaroidFrame.fitPlane width height prev in
       0 < w <= 1 /\ 0 < h <= 1 /\ (w = 1 \/ h = 1) /\ w * height = h * width)
    /\ (width = 0 \/ height = 0 -> PolaroidFrame.fitPlane width height prev = prev).
Proof.
  intros width height prev. split.
  - intros Hw Hh. unfold PolaroidFrame.fitPlane, PolaroidFrame.nonzero.
    destruct (Req_dec_T width 0) as [E|_]; [lra|].
    destruct (Req_dec_T height 0) as [E|_]; [lra|]. cbn [andb].
    assert (Ha : 0 < width / height) by (apply Rdiv_lt_0_compat; assumption).
    unfold Rgtb. destruct (Rgt_dec (width / height) 1) as [Hgt|Hle].
    + assert (Hlt : height < width).
      { apply Rmult_lt_reg_r with (/ height); [apply Rinv_0_lt_compat; exact Hh|].
        rewrite Rinv_r by lra. exact Hgt. }
      assert (Ei : 1 / (width / height) = height / width) by (field; lra).
      rewrite Ei.
      assert (H1 : 0 < height / width) by (apply Rdiv_lt_0_compat; assumption).
      assert (H2 : height / width <= 1).
      { apply Rmult_le_reg_r with width; [exact Hw|].
        unfold Rdiv. rewrite Rmult_assoc, Rinv_l by lra. lra. }
      split; [lra|]. split; [lra|]. split; [left; reflexivity|]. field. lra.
    + split; [lra|]. split; [lra|]. split; [right; reflexivity|]. field. lra.
  - intros [-> | ->]; unfold PolaroidFrame.fitPlane, PolaroidFrame.nonzero.
    + destruct (Req_dec_T 0 0) as [_|E]; [reflexivity|contradiction].
    + destruct (Req_dec_T width 0); [reflexivity|].
      destruct (Req_dec_T 0 0) as [_|E]; [reflexivity|contradiction].
Qed.

Lemma X26_photo_plane_fits_witness :
  let (w, h) := PolaroidFrame.fitPlane 1600 900 (1, 1) in
  0 < w <= 1 /\ 0 < h <= 1 /\ (w = 1 \/ h = 1) /\ w * 900 = h * 1600.
Proof.
  destruct (X26_photo_plane_fits 1600 900 (1, 1)) as [H _].
  apply H; lra.
Defined.

(** ** The mix accumulators *)

Lemma lerp_offset (x y t : R) : lerp x y t - y = (1 - t) * (x - y).
Proof. unfold lerp. ring. Qed.

Lemma lerp_between (lo hi x y t : R) :
  lo <= x <= hi -> lo <= y <= hi -> 0 <= t <= 1 -> lo <= lerp x y t <= hi.
Proof.
  intros Hx Hy Ht. unfold lerp. split; nra.
Qed.

(** X27: over any sequence of modes, with frame deltas of at most a
    quarter of a second, the three accumulators of a polaroid stay in
    range: the chaos and grid mixes in [0, 1], the scale in [0, 1.3].
    The position is the tree position when both mixes are 0, the chaos
    position when the chaos mix is 1 and the grid mix 0, and the grid
    slot when the grid mix is 1, whatever the chaos mix. *)
Theorem X27_polaroid_mixes_stay_in_range :
  (forall ticks : list (TreeMode * R),
     Forall (fun t => 0 <= snd t <= 0.25) ticks ->
     let f := polaroidFrames ticks PolaroidFrame.mix0 in
     0 <= PolaroidFrame.lerpVal f <= 1
     /\ 0 <= PolaroidFrame.gridLerpVal f <= 1
     /\ 0 <= PolaroidFrame.scaleVal f <= 1.3)
  /\ forall (data : PolaroidItems.PolaroidData) (f : PolaroidFrame.Mix),
       (PolaroidFrame.lerpVal f = 0 -> PolaroidFrame.gridLerpVal f = 0 ->
          PolaroidFrame.framePosition data f = PolaroidItems.treePos data)
       /\ (PolaroidFrame.lerpVal f = 1 -> PolaroidFrame.gridLerpVal f = 0 ->
             PolaroidFrame.framePosition data f = PolaroidItems.chaosPos data)
       /\ (PolaroidFrame.gridLerpVal f = 1 ->
             PolaroidFrame.framePosition data f = PolaroidItems.gridPos data).
Proof.
  split.
  - intros ticks Ht. cbv zeta.
    assert (H : forall f : PolaroidFrame.Mix,
              0 <= PolaroidFrame.lerpVal f <= 1
              /\ 0 <= PolaroidFrame.gridLerpVal f <= 1
              /\ 0 <= PolaroidFrame.scaleVal f <= 1.3 ->
              0 <= PolaroidFrame.lerpVal (polaroidFrames ticks f) <= 1
              /\ 0 <= PolaroidFrame.gridLerpVal (polaroidFrames ticks f) <= 1
              /\ 0 <= PolaroidFrame.scaleVal (polaroidFrames ticks f) <= 1.3).
    { induction Ht as [|t ticks Hd _ IH]; intros f Hf; [exact Hf|].
      change (polaroidFrames (t :: ticks) f)
        with (polaroidFrames ticks (PolaroidFrame.useFrame (fst t) (snd t) f)).
      apply IH. destruct Hf as (Hl & Hg & Hs).
      unfold PolaroidFrame.useFrame.
      cbn [PolaroidFrame.lerpVal PolaroidFrame.gridLerpVal PolaroidFrame.scaleVal].
      split; [|split].
      - apply lerp_between; [exact Hl| |lra].
        destruct (TreeMode_eq_dec (fst t) CHAOS); lra.
      - apply lerp_between; [exact Hg| |lra].
        destruct (TreeMode_eq_dec (fst t) GRID); lra.
      - apply lerp_between; [exact Hs| |lra].
        destruct (TreeMode_eq_dec (fst t) CHAOS), (TreeMode_eq_dec (fst t) GRID);
          cbn [orb]; lra. }
    apply H. unfold PolaroidFrame.mix0. cbn. repeat split; lra.
  - intros data f. unfold PolaroidFrame.framePosition, lerpVectors.
    cbn [v_x v_y v_z].
    split; [|split].
    + intros -> ->. destruct (PolaroidItems.treePos data). cbn [v_x v_y v_z].
      f_equal; ring.
    + intros -> ->. destruct (PolaroidItems.treePos data), (PolaroidItems.chaosPos data).
      cbn [v_x v_y v_z]. f_equal; ring.
    + intros ->. destruct (PolaroidItems.gridPos data). cbn [v_x v_y v_z].
      f_equal; ring.
Qed.

Lemma X27_polaroid_mixes_stay_in_range_witness :
  let f := polaroidFrames [(GRID, 0.25); (CHAOS, 0.1); (FORMED, 0.016)] PolaroidFrame.mix0 in
  0 <= PolaroidFrame.scaleVal f <= 1.3.
Proof.
  destruct X27_polaroid_mixes_stay_in_range as [H _].
  apply H.
  repeat (apply Forall_cons; [cbn [snd]; lra|]). apply Forall_nil.
Defined.

(** X28: a frame of the ornament mix multiplies the offset from its
    target by 1 - delta * speed, speed being 2 * (1 - weight * 0.5).
    So with 0 <= delta * speed <= 1 in every frame the mix stays in
    [0, 1] over any sequence of modes; a frame with delta * speed > 1
    throws the mix past its target, and one with delta * speed > 2
    leaves it farther from the target than it was. *)
Theorem X28_ornament_mix_offset :
  (forall (m : TreeMode) (w dt x : R),
     Ornaments.useFrame m w dt x - Ornaments.targetLerp m
       = (1 - dt * Ornaments.physicsSpeed w) * (x - Ornaments.targetLerp m))
  /\ (forall (w : R) (ticks : list (TreeMode * R)),
        Forall (fun t => 0 <= snd t * Ornaments.physicsSpeed w <= 1) ticks ->
        0 <= ornamentFrames w ticks 0 <= 1)
  /\ (forall (m : TreeMode) (w dt x : R),
        1 < dt * Ornaments.physicsSpeed w -> x < Ornaments.targetLerp m ->
        Ornaments.targetLerp m < Ornaments.useFrame m w dt x)
  /\ (forall (m : TreeMode) (w dt x : R),
        2 < dt * Ornaments.physicsSpeed w -> x <> Ornaments.targetLerp m ->
        Rabs (x - Ornaments.targetLerp m)
          < Rabs (Ornaments.useFrame m w dt x - Ornaments.targetLerp m)).
Proof.
  assert (Hoff : forall (m : TreeMode) (w dt x : R),
            Ornaments.useFrame m w dt x - Ornaments.targetLerp m
              = (1 - dt * Ornaments.physicsSpeed w) * (x - Ornaments.targetLerp m)).
  { intros m w dt x. unfold Ornaments.useFrame. apply lerp_offset. }
  split; [exact Hoff|]. split; [|split].
  - intros w ticks Ht.
    assert (H : forall x : R, 0 <= x <= 1 -> 0 <= ornamentFrames w ticks x <= 1).
    { induction Ht as [|t ticks Hd _ IH]; intros x Hx; [exact Hx|].
      change (ornamentFrames w (t :: ticks) x)
        with (ornamentFrames w ticks (Ornaments.useFrame (fst t) w (snd t) x)).
      apply IH. unfold Ornaments.useFrame. apply lerp_between; [exact Hx| |exact Hd].
      unfold Ornaments.targetLerp. destruct (TreeMode_eq_dec (fst t) CHAOS); lra. }
    apply H. lra.
  - intros m w dt x Ha Hx. pose proof (Hoff m w dt x) as E. nra.
  - intros m w dt x Ha Hx. rewrite Hoff, Rabs_mult.
    assert (H1 : 1 < Rabs (1 - dt * Ornaments.physicsSpeed w)).
    { rewrite Rabs_left by lra. lra. }
    assert (H2 : 0 < Rabs (x - Ornaments.targetLerp m)).
    { apply Rabs_pos_lt. lra. }
    nra.
Qed.

Lemma X28_ornament_mix_offset_witness :
  1 < Ornaments.useFrame CHAOS 0.2 0.6 0
  /\ 0 <= ornamentFrames 0.2 [(CHAOS, 0.5); (FORMED, 0.016); (GRID, 0.1)] 0 <= 1.
Proof.
  destruct X28_ornament_mix_offset as (_ & Hin & Hover & _).
  split.
  - apply (Hover CHAOS 0.2 0.6 0).
    + unfold Ornaments.physicsSpeed. lra.
    + unfold Ornaments.targetLerp. simpl. lra.
  - apply Hin.
    repeat (apply Forall_cons; [cbn [snd]; unfold Ornaments.physicsSpeed; lra|]).
    apply Forall_nil.
Defined.

(** ** The easing of the particle shader *)

Lemma Rltb_false' (a b : R) : b <= a -> Rltb a b = false.
Proof. intros H. unfold Rltb. destruct (Rlt_dec a b); [lra|reflexivity]. Qed.

(** X29: the cubic easing maps 0 to 0 and 1 to 1, its two branches
    meet at 1/2, it is symmetric about the centre
    (ease (1 - t) = 1 - ease t) and, on [0, 1], it never decreases and
    stays in [0, 1]. *)
Theorem X29_ease_is_a_transition :
  TreeParticles.ease 0 = 0
  /\ TreeParticles.ease 1 = 1
  /\ TreeParticles.ease 0.5 = 0.5
  /\ 4 * 0.5 * 0.5 * 0.5 = TreeParticles.ease 0.5
  /\ (forall t : R, TreeParticles.ease (1 - t) = 1 - TreeParticles.ease t)
  /\ (forall s t : R, 0 <= s -> s <= t -> t <= 1 ->
        TreeParticles.ease s <= TreeParticles.ease t)
  /\ (forall t : R, 0 <= t <= 1 -> 0 <= TreeParticles.ease t <= 1).
Proof.
  assert (E0 : TreeParticles.ease 0 = 0).
  { unfold TreeParticles.ease. rewrite Rltb_true by lra. ring. }
  assert (E1 : TreeParticles.ease 1 = 1).
  { unfold TreeParticles.ease. rewrite Rltb_false' by lra. simpl. lra. }
  assert (Eh : TreeParticles.ease 0.5 = 0.5).
  { unfold TreeParticles.ease. rewrite Rltb_false' by lra. simpl. lra. }
  assert (Hmono : forall s t : R, 0 <= s -> s <= t -> t <= 1 ->
            TreeParticles.ease s <= TreeParticles.ease t).
  { intros s t Hs Hst Ht. unfold TreeParticles.ease, Rltb.
    destruct (Rlt_dec s 0.5) as [Hs5|Hs5], (Rlt_dec t 0.5) as [Ht5|Ht5]; simpl.
    - assert (s * s <= t * t) by nra.
      assert (s * s * s <= t * t * t) by nra. lra.
    - assert (s * s <= 0.25) by nra.
      assert (s * s * s <= 0.125) by nra.
      set (b := -2 * t + 2).
      assert (0 <= b <= 1) by (unfold b; lra).
      assert (0 <= b * b <= 1) by nra.
      assert (b * (b * (b * 1)) <= 1) by nra.
      lra.
    - lra.
    - set (a := -2 * s + 2). set (b := -2 * t + 2).
      assert (0 <= b <= a) by (unfold a, b; lra).
      assert (0 <= b * b <= a * a) by nra.
      assert (b * (b * b) <= a * (a * a)) by nra.
      replace (b * (b * (b * 1))) with (b * (b * b)) by ring.
      replace (a * (a * (a * 1))) with (a * (a * a)) by ring. lra. }
  split; [exact E0|]. split; [exact E1|]. split; [exact Eh|].
  split; [rewrite Eh; lra|]. split; [|split; [exact Hmono|]].
  - intros t. unfold TreeParticles.ease, Rltb.
    destruct (Rlt_dec (1 - t) 0.5), (Rlt_dec t 0.5); simpl; try lra.
    assert (t = 0.5) by lra. subst t. lra.
  - intros t [H0 H1]. split.
    + rewrite <- E0. apply Hmono; lra.
    + rewrite <- E1. apply Hmono; lra.
Qed.

Lemma X29_ease_is_a_transition_witness :
  TreeParticles.ease 0.25 <= TreeParticles.ease 0.75
  /\ 0 <= TreeParticles.ease 0.75 <= 1.
Proof.
  destruct X29_ease_is_a_transition as (_ & _ & _ & _ & _ & Hm & Hr).
  split; [apply Hm; lra|apply Hr; lra].
Defined.

(** ** The star outline *)

Section StarShape.

Import Star.



End StarShape.


